(** * Daily Study Tracker: the [StudyTracker] class of script.js

    A shallow embedding of the application object and of the JavaScript
    built-ins it relies on, followed by the properties of the session
    store, the filter, the aggregates and the duration formatter.

    Conventions of the model.
    - A JavaScript string is a [string]: a sequence of code units, of which
      the model holds those below 256 (Latin-1).  The lower case of a text
      with a Greek sigma is given apart, on lists of code units.
    - A JavaScript number is a [number]: [NaN] or an integer (the values
      [parseInt] and the integer arithmetic of the class produce).  Sums,
      products, quotients and the numbers read from numerals are rounded as
      binary64 rounds them, so that integers are exact up to 2^53; there
      are no infinities.
    - A time value is a [Z], milliseconds since the epoch, inside the range
      where [TimeClip] is the identity.  In the application object local
      time is UTC plus a fixed adjustment [tza] in milliseconds; the dates
      of the daily chart are also given in a zone whose offset changes.
      One event is handled at one reading of the clock.
    - A call that can throw returns an [option], [None] being the throw.
    - Writes to the page (summary texts, cards, daily chart, notifications)
      are the values written; of the CSV export, the file handed to the
      browser; the canvas geometry, the subject chart and the modal are
      left out.

    Layout: the built-ins ([JsString], [JsNumber], [JsDate], [JSON]), the
    class ([StudyTracker]), the notions the properties are stated with
    ([Spec]), sample inputs ([Samples]), then the properties. *)

From Stdlib Require Import ZArith List String Ascii Bool Lia.
From Stdlib Require Import DecimalString DecimalZ.
From Stdlib Require Import Permutation Sorted.
From Stdlib Require DecimalPos DecimalFacts.
Import ListNotations.

Open Scope Z_scope.

(* ------------------------------------------------------------------ *)
(** ** Strings *)

Module JsString.

Local Open Scope string_scope.

Definition code (c : ascii) : N := N_of_ascii c.

(** WhiteSpace and LineTerminator code units below 256: TAB, LF, VT, FF,
    CR, SP and NBSP. *)
Definition isWhiteSpace (c : ascii) : bool :=
  let n := code c in
  ((9 <=? n) && (n <=? 13) || (n =? 32) || (n =? 160))%N.

Fixpoint trimStart (s : string) : string :=
  match s with
  | String c r => if isWhiteSpace c then trimStart r else s
  | EmptyString => EmptyString
  end.

Fixpoint trimEnd (s : string) : string :=
  match s with
  | String c r =>
      match trimEnd r with
      | EmptyString => if isWhiteSpace c then EmptyString else String c EmptyString
      | r' => String c r'
      end
  | EmptyString => EmptyString
  end.

(** [String.prototype.trim] *)
Definition trim (s : string) : string := trimEnd (trimStart s).

(** Lower-case mapping of one code unit below 256: A-Z, and U+00C0-U+00DE
    but the multiplication sign U+00D7, move up by 32. *)
Definition lowerChar (c : ascii) : ascii :=
  let n := code c in
  if ((65 <=? n) && (n <=? 90)
      || (192 <=? n) && (n <=? 222) && negb (n =? 215))%N
  then ascii_of_N (n + 32) else c.

(** [String.prototype.toLowerCase] *)
Fixpoint toLowerCase (s : string) : string :=
  match s with
  | String c r => String (lowerChar c) (toLowerCase r)
  | EmptyString => EmptyString
  end.

(** [String.prototype.includes]: [t] occurs in [s] at some position. *)
Fixpoint includes (s t : string) : bool :=
  prefix t s ||
  match s with
  | String _ r => includes r t
  | EmptyString => false
  end.

(** Truthiness of a string: only the empty string is falsy. *)
Definition truthy (s : string) : bool :=
  match s with EmptyString => false | _ => true end.

(** [===] on strings *)
Definition strictEq (s t : string) : bool := String.eqb s t.

(** *** Texts beyond Latin-1

    A text as the list of its UTF-16 code units.  [toLowerCase] applies the
    lower-case mapping of Unicode, which for the capital sigma depends on
    where it stands: after a cased letter, and with no cased letter
    following, it is the final small sigma, elsewhere the small sigma
    (characters that are case-ignorable being skipped on both sides).  The
    model gives it on the texts made of the letters A-Z and a-z and of the
    three sigmas, which are all cased letters and of which none is
    case-ignorable; [None] is a text that holds another character. *)

Definition capitalSigma : N := 931.

Definition finalSigma : N := 962.

Definition smallSigma : N := 963.

Definition isCapitalLatin (u : N) : bool := ((65 <=? u) && (u <=? 90))%N.

Definition isSmallLatin (u : N) : bool := ((97 <=? u) && (u <=? 122))%N.

Definition isSigma (u : N) : bool :=
  ((u =? capitalSigma) || (u =? finalSigma) || (u =? smallSigma))%N.

(** [afterCased]: a cased letter stands before the text. *)
Fixpoint lowerUnits (afterCased : bool) (s : list N) : option (list N) :=
  match s with
  | [] => Some []
  | u :: r =>
      if isCapitalLatin u || isSmallLatin u || isSigma u then
        let l :=
          if (u =? capitalSigma)%N then
            if afterCased && match r with [] => true | _ :: _ => false end
            then finalSigma else smallSigma
          else if isCapitalLatin u then (u + 32)%N
          else u in
        option_map (cons l) (lowerUnits true r)
      else None
  end.

(** [String.prototype.toLowerCase] on code units *)
Definition toLowerCaseUnits (s : list N) : option (list N) := lowerUnits false s.

Fixpoint prefixUnits (t s : list N) : bool :=
  match t, s with
  | [], _ => true
  | a :: t', b :: s' => (a =? b)%N && prefixUnits t' s'
  | _ :: _, [] => false
  end.

(** [String.prototype.includes] on code units *)
Fixpoint includesUnits (s t : list N) : bool :=
  prefixUnits t s ||
  match s with
  | _ :: r => includesUnits r t
  | [] => false
  end.

End JsString.

(* ------------------------------------------------------------------ *)
(** ** Numbers *)

Module JsNumber.

Inductive number : Type :=
| NaN
| Num (z : Z).

(** *** Rounding

    A number of the code is a binary64 value.  The integers among them are
    those with at most 53 significant bits, so every integer up to 2^53 in
    magnitude; a sum, a product or a quotient is the exact result rounded
    to the nearest binary64 value, to the one with an even significand when
    two are as near.  The model has no infinities: it follows the code
    below 2^1024 in magnitude. *)

(** The integer nearest to [n / d] for a positive [d], the even one of
    two. *)
Definition roundHalfEven (n d : Z) : Z :=
  let q := n / d in
  let r := n mod d in
  if 2 * r <? d then q
  else if d <? 2 * r then q + 1
  else if Z.even q then q else q + 1.

(** The binary64 value nearest to the integer [z]. *)
Definition round53 (z : Z) : Z :=
  let e := Z.log2 (Z.abs z) - 52 in
  if e <=? 0 then z
  else Z.sgn z * (roundHalfEven (Z.abs z) (2 ^ e) * 2 ^ e).

(** The binary64 value nearest to [n / d] for positive [n] and [d]: a
    significand [m] from 2^52 to 2^53 and an exponent [e], the value being
    [m * 2^e]. *)
Definition nearest (n d : Z) : Z * Z :=
  let scaled k := if 0 <=? k then (n, d * 2 ^ k) else (n * 2 ^ (- k), d) in
  let e0 := Z.log2 n - Z.log2 d - 53 in
  let e := if (let (p, q) := scaled e0 in p <? q * 2 ^ 53) then e0 else e0 + 1 in
  let (p, q) := scaled e in (roundHalfEven p q, e).

(** [Math.floor] of the value [m * 2^e]. *)
Definition floorOf (v : Z * Z) : Z :=
  let (m, e) := v in if 0 <=? e then m * 2 ^ e else m / 2 ^ (- e).

(** [a + b] *)
Definition add (a b : number) : number :=
  match a, b with
  | Num x, Num y => Num (round53 (x + y))
  | _, _ => NaN
  end.

(** [a * b] *)
Definition mul (a b : number) : number :=
  match a, b with
  | Num x, Num y => Num (round53 (x * y))
  | _, _ => NaN
  end.

(** [a < b], [a <= b], [a > b]: false as soon as one side is NaN. *)
Definition lt (a b : number) : bool :=
  match a, b with
  | Num x, Num y => x <? y
  | _, _ => false
  end.

Definition le (a b : number) : bool :=
  match a, b with
  | Num x, Num y => x <=? y
  | _, _ => false
  end.

Definition gt (a b : number) : bool := lt b a.

(** [Math.floor(a / b)] for an integer [a] and a positive integer [b]: the
    quotient is rounded before [Math.floor] sees it. *)
Definition floorDiv (a : number) (b : Z) : number :=
  match a with
  | Num 0 => Num 0
  | Num (Z.pos p) => Num (floorOf (nearest (Z.pos p) b))
  | Num (Z.neg p) => Num (let (m, e) := nearest (Z.pos p) b in floorOf (- m, e))
  | NaN => NaN
  end.

(** [a % b]: the remainder takes the sign of the dividend. *)
Definition rem (a : number) (b : Z) : number :=
  match a with
  | Num x => Num (Z.rem x b)
  | NaN => NaN
  end.

(** Decimal numeral of an integer, with a leading minus sign when negative. *)
Definition decimal (z : Z) : string := NilZero.string_of_int (Z.to_int z).

(** [Number.prototype.toString], as a template literal applies it: the
    decimal numeral, which is what the code writes for every integer up to
    2^53 in magnitude, and for a larger one below 10^21 that no numeral
    with fewer significant digits rounds to. *)
Definition toString (a : number) : string :=
  match a with
  | Num x => decimal x
  | NaN => "NaN"%string
  end.

End JsNumber.

Export JsNumber (number, NaN, Num).

(* ------------------------------------------------------------------ *)
(** ** Dates

    The time-value arithmetic of ECMAScript (Day, YearFromTime, MakeDay, ...)
    and the [Date] methods the class calls. *)

Module JsDate.

Local Open Scope string_scope.
Local Open Scope Z_scope.

Definition msPerDay : Z := 86400000.

Definition Day (t : Z) : Z := t / msPerDay.

Definition TimeWithinDay (t : Z) : Z := t mod msPerDay.

Definition DayFromYear (y : Z) : Z :=
  365 * (y - 1970) + (y - 1969) / 4 - (y - 1901) / 100 + (y - 1601) / 400.

Definition InLeapYear (y : Z) : bool :=
  (y mod 4 =? 0) && (negb (y mod 100 =? 0) || (y mod 400 =? 0)).

(** The year of day number [d]: the largest [y] with [DayFromYear y <= d],
    found next to the estimate by the mean length of a year. *)
Definition YearFromDay (d : Z) : Z :=
  let y := 1970 + (400 * d) / 146097 in
  if DayFromYear (y + 1) <=? d then y + 1
  else if DayFromYear y <=? d then y
  else y - 1.

Definition YearFromTime (t : Z) : Z := YearFromDay (Day t).

Definition DayWithinYear (t : Z) : Z := Day t - DayFromYear (YearFromTime t).

(** Day within the year of the first day of month [m] (0 = January). *)
Definition monthStart (leap : bool) (m : Z) : Z :=
  let l := if leap then 1 else 0 in
  if m <=? 0 then 0
  else if m =? 1 then 31
  else if m =? 2 then 59 + l
  else if m =? 3 then 90 + l
  else if m =? 4 then 120 + l
  else if m =? 5 then 151 + l
  else if m =? 6 then 181 + l
  else if m =? 7 then 212 + l
  else if m =? 8 then 243 + l
  else if m =? 9 then 273 + l
  else if m =? 10 then 304 + l
  else if m =? 11 then 334 + l
  else 365 + l.

Definition MonthFromTime (t : Z) : Z :=
  let leap := InLeapYear (YearFromTime t) in
  let d := DayWithinYear t in
  if d <? monthStart leap 1 then 0
  else if d <? monthStart leap 2 then 1
  else if d <? monthStart leap 3 then 2
  else if d <? monthStart leap 4 then 3
  else if d <? monthStart leap 5 then 4
  else if d <? monthStart leap 6 then 5
  else if d <? monthStart leap 7 then 6
  else if d <? monthStart leap 8 then 7
  else if d <? monthStart leap 9 then 8
  else if d <? monthStart leap 10 then 9
  else if d <? monthStart leap 11 then 10
  else 11.

Definition DateFromTime (t : Z) : Z :=
  DayWithinYear t - monthStart (InLeapYear (YearFromTime t)) (MonthFromTime t) + 1.

(** 1 January 1970 was a Thursday; 0 is Sunday. *)
Definition WeekDay (t : Z) : Z := (Day t + 4) mod 7.

Definition MakeDay (year month date : Z) : Z :=
  let ym := year + month / 12 in
  let mn := month mod 12 in
  DayFromYear ym + monthStart (InLeapYear ym) mn + date - 1.

Definition MakeDate (day time : Z) : Z := day * msPerDay + time.

Definition LocalTime (tza t : Z) : Z := t + tza.

Definition UTC (tza t : Z) : Z := t - tza.

(** [d.getDate()], [d.getDay()] *)
Definition getDate (tza t : Z) : Z := DateFromTime (LocalTime tza t).

Definition getDay (tza t : Z) : Z := WeekDay (LocalTime tza t).

(** [d.setDate(date)] *)
Definition setDate (tza t date : Z) : Z :=
  let lt := LocalTime tza t in
  UTC tza (MakeDate (MakeDay (YearFromTime lt) (MonthFromTime lt) date)
                    (TimeWithinDay lt)).

(** [d.setHours(0, 0, 0, 0)] *)
Definition setHours0 (tza t : Z) : Z :=
  UTC tza (MakeDate (Day (LocalTime tza t)) 0).

Definition digit (n : Z) : ascii := ascii_of_N (48 + Z.to_N (n mod 10)).

(** The last [width] decimal digits of [n >= 0], zero-padded. *)
Fixpoint pad (width : nat) (n : Z) : string :=
  match width with
  | O => EmptyString
  | S w => pad w (n / 10) ++ String (digit n) EmptyString
  end.

(** Years 0 to 9999 print with four digits, the others with a sign and
    six. *)
Definition isoYear (y : Z) : string :=
  if (0 <=? y) && (y <=? 9999) then pad 4 y
  else if y <? 0 then "-" ++ pad 6 (- y)
  else "+" ++ pad 6 y.

(** [d.toISOString()]: YYYY-MM-DDTHH:mm:ss.sssZ, in UTC. *)
Definition toISOString (t : Z) : string :=
  let ms := TimeWithinDay t in
  isoYear (YearFromTime t) ++ "-" ++ pad 2 (MonthFromTime t + 1) ++ "-"
    ++ pad 2 (DateFromTime t) ++ "T" ++ pad 2 (ms / 3600000) ++ ":"
    ++ pad 2 (ms / 60000 mod 60) ++ ":" ++ pad 2 (ms / 1000 mod 60) ++ "."
    ++ pad 3 (ms mod 1000) ++ "Z".

(** [s.split('T')[0]]: what comes before the first T. *)
Fixpoint beforeT (s : string) : string :=
  match s with
  | String c r => if Ascii.eqb c "T" then EmptyString else String c (beforeT r)
  | EmptyString => EmptyString
  end.

(** [new Date(t).toISOString().split('T')[0]] *)
Definition isoDate (t : Z) : string := beforeT (toISOString t).

Definition digitValue (c : ascii) : option Z :=
  let n := N_of_ascii c in
  if ((48 <=? n) && (n <=? 57))%N then Some (Z.of_N n - 48) else None.

Fixpoint digitsValue (acc : Z) (cs : list ascii) : option Z :=
  match cs with
  | [] => Some acc
  | c :: r =>
      match digitValue c with
      | Some v => digitsValue (10 * acc + v) r
      | None => None
      end
  end.

Definition DaysInMonth (y m : Z) : Z :=
  monthStart (InLeapYear y) (m + 1) - monthStart (InLeapYear y) m.

(** [new Date(s)] for a date-only string: the form YYYY-MM-DD, which a date
    field yields, is midnight UTC of that day; the empty string is an
    invalid date ([None]), and so is, in this model, every other string (a
    day the month does not have, and the other formats engines accept). *)
Definition parse (s : string) : option Z :=
  match list_ascii_of_string s with
  | [y1; y2; y3; y4; d1; m1; m2; d2; a1; a2] =>
      if Ascii.eqb d1 "-" && Ascii.eqb d2 "-" then
        match digitsValue 0 [y1; y2; y3; y4], digitsValue 0 [m1; m2],
              digitsValue 0 [a1; a2] with
        | Some y, Some m, Some a =>
            if (1 <=? m) && (m <=? 12) && (1 <=? a) && (a <=? DaysInMonth y (m - 1))
            then Some (MakeDate (MakeDay y (m - 1) a) 0)
            else None
        | _, _, _ => None
        end
      else None
  | _ => None
  end.

(** *** Time zones whose offset changes

    [LocalTZA(t, isUTC)]: the offset of local time from UTC in effect at
    the UTC time value [t], and the one a local time value [t] is read
    with. *)
Record Zone : Type := {
  offsetAtUTC : Z -> Z;
  offsetAtLocal : Z -> Z
}.

Definition fixedZone (tza : Z) : Zone :=
  {| offsetAtUTC := fun _ => tza; offsetAtLocal := fun _ => tza |}.

(** A zone whose offset changes from [before] to [after] at the UTC time
    value [transition].  A local time that the change skips, or repeats, is
    read with the offset before the change. *)
Definition changingZone (transition before after : Z) : Zone :=
  {| offsetAtUTC := fun t => if t <? transition then before else after;
     offsetAtLocal := fun t =>
       if t <? transition + Z.max before after then before else after |}.

Definition LocalTimeIn (zone : Zone) (t : Z) : Z := t + offsetAtUTC zone t.

Definition UTCIn (zone : Zone) (t : Z) : Z := t - offsetAtLocal zone t.

(** [d.getDate()] and [d.setDate(date)] in a zone *)
Definition getDateIn (zone : Zone) (t : Z) : Z :=
  DateFromTime (LocalTimeIn zone t).

Definition setDateIn (zone : Zone) (t date : Z) : Z :=
  let lt := LocalTimeIn zone t in
  UTCIn zone (MakeDate (MakeDay (YearFromTime lt) (MonthFromTime lt) date)
                       (TimeWithinDay lt)).

End JsDate.

(* ------------------------------------------------------------------ *)
(** ** JSON

    [JSON.parse] and the part of [JSON.stringify] the class uses.  A parsed
    string is a list of code units, since an escape can denote any of them;
    a parsed number is the decimal [m * 10^e] its text denotes. *)

Module JSON.

Local Open Scope char_scope.
Local Open Scope Z_scope.

#[local] Set Warnings "-register-all".

Inductive value : Type :=
| JNull
| JBool (b : bool)
| JNumber (m e : Z)
| JString (s : list N)
| JArray (l : list value)
| JObject (l : list (list N * value)).

Definition quote : ascii := ascii_of_N 34.

Definition backslash : ascii := ascii_of_N 92.

Definition isWs (c : ascii) : bool :=
  let n := N_of_ascii c in ((n =? 32) || (n =? 9) || (n =? 10) || (n =? 13))%N.

Fixpoint skipWs (s : list ascii) : list ascii :=
  match s with
  | c :: r => if isWs c then skipWs r else s
  | [] => []
  end.

(** [expect lit s]: [s] without its prefix [lit], when it starts with it. *)
Fixpoint expect (lit s : list ascii) : option (list ascii) :=
  match lit, s with
  | [], _ => Some s
  | a :: lit', c :: r => if Ascii.eqb a c then expect lit' r else None
  | _ :: _, [] => None
  end.

Definition hexValue (c : ascii) : option N :=
  let n := N_of_ascii c in
  if ((48 <=? n) && (n <=? 57))%N then Some (n - 48)%N
  else if ((65 <=? n) && (n <=? 70))%N then Some (n - 55)%N
  else if ((97 <=? n) && (n <=? 102))%N then Some (n - 87)%N
  else None.

Definition escapeValue (c : ascii) : option N :=
  if Ascii.eqb c quote then Some 34%N
  else if Ascii.eqb c backslash then Some 92%N
  else if Ascii.eqb c "/" then Some 47%N
  else if Ascii.eqb c "b" then Some 8%N
  else if Ascii.eqb c "f" then Some 12%N
  else if Ascii.eqb c "n" then Some 10%N
  else if Ascii.eqb c "r" then Some 13%N
  else if Ascii.eqb c "t" then Some 9%N
  else None.

(** The characters of a string literal after its opening quote, up to and
    including the closing one; [acc] holds the code units read so far, last
    first. *)
Fixpoint parseChars (s : list ascii) (acc : list N) : option (list N * list ascii) :=
  match s with
  | [] => None
  | c :: r =>
      if Ascii.eqb c quote then Some (rev acc, r)
      else if Ascii.eqb c backslash then
        match r with
        | [] => None
        | e :: r1 =>
            if Ascii.eqb e "u" then
              match r1 with
              | h1 :: h2 :: h3 :: h4 :: r2 =>
                  match hexValue h1, hexValue h2, hexValue h3, hexValue h4 with
                  | Some a, Some b, Some c', Some d =>
                      parseChars r2 (((a * 16 + b) * 16 + c') * 16 + d :: acc)%N
                  | _, _, _, _ => None
                  end
              | _ => None
              end
            else
              match escapeValue e with
              | Some n => parseChars r1 (n :: acc)
              | None => None
              end
        end
      else if (N_of_ascii c <? 32)%N then None
      else parseChars r (N_of_ascii c :: acc)
  end.

Definition isDigit (c : ascii) : bool :=
  let n := N_of_ascii c in ((48 <=? n) && (n <=? 57))%N.

(** The longest run of digits at the head of [s], and what follows it. *)
Fixpoint takeDigits (s : list ascii) : list ascii * list ascii :=
  match s with
  | c :: r =>
      if isDigit c then let (ds, r') := takeDigits r in (c :: ds, r') else ([], s)
  | [] => ([], [])
  end.

Definition digitsToZ (ds : list ascii) : Z :=
  fold_left (fun acc c => 10 * acc + (Z.of_N (N_of_ascii c) - 48)) ds 0.

(** fraction: a point and at least one digit, or nothing *)
Definition parseFrac (s : list ascii) : option (list ascii * list ascii) :=
  match s with
  | c :: r =>
      if Ascii.eqb c "." then
        match takeDigits r with
        | ([], _) => None
        | (ds, r') => Some (ds, r')
        end
      else Some ([], s)
  | [] => Some ([], s)
  end.

(** exponent: e or E, an optional sign and at least one digit, or nothing *)
Definition parseExp (s : list ascii) : option (Z * list ascii) :=
  match s with
  | c :: r =>
      if Ascii.eqb c "e" || Ascii.eqb c "E" then
        let (sign, r1) :=
          match r with
          | c1 :: r1 =>
              if Ascii.eqb c1 "-" then (-1, r1)
              else if Ascii.eqb c1 "+" then (1, r1) else (1, r)
          | [] => (1, r)
          end in
        match takeDigits r1 with
        | ([], _) => None
        | (ds, r') => Some (sign * digitsToZ ds, r')
        end
      else Some (0, s)
  | [] => Some (0, s)
  end.

(** number: an optional minus sign, an integer part without a leading zero
    (or 0 alone), a fraction and an exponent *)
Definition parseNumber (s : list ascii) : option (value * list ascii) :=
  let (sign, s1) :=
    match s with
    | c :: r => if Ascii.eqb c "-" then (-1, r) else (1, s)
    | [] => (1, s)
    end in
  match takeDigits s1 with
  | ([], _) => None
  | (d :: ds, s2) =>
      if Ascii.eqb d "0" && negb (List.length ds =? 0)%nat then None
      else
        match parseFrac s2 with
        | Some (fs, s3) =>
            match parseExp s3 with
            | Some (e, s4) =>
                Some (JNumber (sign * digitsToZ ((d :: ds) ++ fs))
                              (e - Z.of_nat (List.length fs)), s4)
            | None => None
            end
        | None => None
        end
  end.

(** A value, the elements of an array after its first bracket, and the
    members of an object after its first brace.  [n] bounds the depth of the
    calls. *)
Fixpoint parseValue (n : nat) (s : list ascii) : option (value * list ascii) :=
  match n with
  | O => None
  | S n' =>
      match skipWs s with
      | [] => None
      | c :: r =>
          if Ascii.eqb c "[" then
            match skipWs r with
            | c1 :: r1 =>
                if Ascii.eqb c1 "]" then Some (JArray [], r1)
                else parseElements n' r []
            | [] => None
            end
          else if Ascii.eqb c "{" then
            match skipWs r with
            | c1 :: r1 =>
                if Ascii.eqb c1 "}" then Some (JObject [], r1)
                else parseMembers n' r []
            | [] => None
            end
          else if Ascii.eqb c quote then
            match parseChars r [] with
            | Some (str, r1) => Some (JString str, r1)
            | None => None
            end
          else if Ascii.eqb c "n" then
            option_map (pair JNull) (expect ["u"; "l"; "l"] r)
          else if Ascii.eqb c "t" then
            option_map (pair (JBool true)) (expect ["r"; "u"; "e"] r)
          else if Ascii.eqb c "f" then
            option_map (pair (JBool false)) (expect ["a"; "l"; "s"; "e"] r)
          else parseNumber (c :: r)
      end
  end
with parseElements (n : nat) (s : list ascii) (acc : list value)
  : option (value * list ascii) :=
  match n with
  | O => None
  | S n' =>
      match parseValue n' s with
      | Some (v, r) =>
          match skipWs r with
          | c :: r1 =>
              if Ascii.eqb c "," then parseElements n' r1 (v :: acc)
              else if Ascii.eqb c "]" then Some (JArray (rev (v :: acc)), r1)
              else None
          | [] => None
          end
      | None => None
      end
  end
with parseMembers (n : nat) (s : list ascii) (acc : list (list N * value))
  : option (value * list ascii) :=
  match n with
  | O => None
  | S n' =>
      match skipWs s with
      | c :: r =>
          if Ascii.eqb c quote then
            match parseChars r [] with
            | Some (key, r1) =>
                match skipWs r1 with
                | c1 :: r2 =>
                    if Ascii.eqb c1 ":" then
                      match parseValue n' r2 with
                      | Some (v, r3) =>
                          match skipWs r3 with
                          | c2 :: r4 =>
                              if Ascii.eqb c2 "," then
                                parseMembers n' r4 ((key, v) :: acc)
                              else if Ascii.eqb c2 "}" then
                                Some (JObject (rev ((key, v) :: acc)), r4)
                              else None
                          | [] => None
                          end
                      | None => None
                      end
                    else None
                | [] => None
                end
            | None => None
            end
          else None
      | [] => None
      end
  end.

(** [JSON.parse(text)]: one value with nothing but white space around it;
    [None] is the SyntaxError. *)
Definition parse (text : string) : option value :=
  let s := list_ascii_of_string text in
  match parseValue (2 * List.length s + 2) s with
  | Some (v, r) =>
      match skipWs r with
      | [] => Some v
      | _ :: _ => None
      end
  | None => None
  end.

Definition hexDigit (n : N) : ascii :=
  if (n <? 10)%N then ascii_of_N (48 + n) else ascii_of_N (87 + n).

(** One code unit inside a quoted string, as QuoteJSONString writes it. *)
Definition quoteChar (c : ascii) : string :=
  let n := N_of_ascii c in
  let esc (e : ascii) := String backslash (String e EmptyString) in
  if (n =? 8)%N then esc "b"
  else if (n =? 9)%N then esc "t"
  else if (n =? 10)%N then esc "n"
  else if (n =? 12)%N then esc "f"
  else if (n =? 13)%N then esc "r"
  else if (n =? 34)%N then esc quote
  else if (n =? 92)%N then esc backslash
  else if (n <? 32)%N then
    String backslash (String "u" (String "0" (String "0"
      (String (hexDigit (n / 16)) (String (hexDigit (n mod 16)) EmptyString)))))
  else String c EmptyString.

Fixpoint quoteChars (s : string) : string :=
  match s with
  | String c r => (quoteChar c ++ quoteChars r)%string
  | EmptyString => EmptyString
  end.

(** [JSON.stringify] of a string *)
Definition stringifyString (s : string) : string :=
  String quote (quoteChars s ++ String quote EmptyString)%string.

(** [JSON.stringify] of a number: NaN is written null. *)
Definition stringifyNumber (a : number) : string :=
  match a with
  | Num _ => JsNumber.toString a
  | NaN => "null"%string
  end.

End JSON.

(* ------------------------------------------------------------------ *)
(** ** The application object *)

Module StudyTracker.

Import JsString JsNumber.
Local Open Scope string_scope.
Local Open Scope Z_scope.

(** A study session, as [handleFormSubmit] builds it. *)
Record Session : Type := {
  id : string;
  subject : string;
  duration : number;
  timeUnit : string;
  date : string;
  notes : string;
  timestamp : string
}.

(** The fields of the submitted form, as [formData.get] returns them. *)
Record FormData : Type := {
  get_subject : string;
  get_duration : string;
  get_timeUnit : string;
  get_date : string;
  get_notes : string
}.

(** The key studyTrackerData of [localStorage], and the room left for it:
    [setItem] throws when the text is longer than a finite [quota]. *)
Record Storage : Type := {
  item : option string;
  quota : option nat
}.

(** What the class reads from and writes to the page: the values of the two
    filter fields, the three summary texts, the sessions whose cards are
    shown, the series of the daily chart ([None] when the chart shows
    No data available) and the notifications shown so far, oldest first. *)
Record Page : Type := {
  filterSubject : string;
  filterDate : string;
  todayTotalText : string;
  weekTotalText : string;
  totalSessionsText : string;
  logsContainer : list Session;
  dailyChart : option (list string * list number);
  notifications : list (string * string)
}.

(** The fields of [this], the storage and the page. *)
Record State : Type := {
  studyLogs : list Session;
  filteredLogs : list Session;
  currentAction : option string;
  localStorage : Storage;
  page : Page
}.

(** The time zone adjustment of the browser and the reading of the clock
    while one event is handled. *)
Record Env : Type := {
  tza : Z;
  now : Z
}.

(** What a call evaluates to: a method that falls off its end, or leaves
    by a bare return, evaluates to [undefined]. *)
Inductive jsval : Type :=
| undefined
| boolean (b : bool).

(** A method: a computation over the state, in an environment. *)
Definition M (A : Type) : Type := Env -> State -> A * State.

Definition ret {A : Type} (v : A) : M A := fun _ st => (v, st).

Definition bind {A B : Type} (m : M A) (k : A -> M B) : M B :=
  fun env st => let (a, st') := m env st in k a env st'.

Notation "m ;; k" := (bind m (fun _ => k))
  (at level 61, right associativity).

Definition modify (f : State -> State) : M jsval :=
  fun _ st => (undefined, f st).

Definition set_studyLogs (l : list Session) (st : State) : State :=
  {| studyLogs := l; filteredLogs := filteredLogs st;
     currentAction := currentAction st; localStorage := localStorage st;
     page := page st |}.

Definition set_filteredLogs (l : list Session) (st : State) : State :=
  {| studyLogs := studyLogs st; filteredLogs := l;
     currentAction := currentAction st; localStorage := localStorage st;
     page := page st |}.

Definition set_currentAction (a : option string) (st : State) : State :=
  {| studyLogs := studyLogs st; filteredLogs := filteredLogs st;
     currentAction := a; localStorage := localStorage st; page := page st |}.

Definition set_localStorage (ls : Storage) (st : State) : State :=
  {| studyLogs := studyLogs st; filteredLogs := filteredLogs st;
     currentAction := currentAction st; localStorage := ls; page := page st |}.

Definition set_page (p : Page) (st : State) : State :=
  {| studyLogs := studyLogs st; filteredLogs := filteredLogs st;
     currentAction := currentAction st; localStorage := localStorage st;
     page := p |}.

Definition set_filters (fs fd : string) (p : Page) : Page :=
  {| filterSubject := fs; filterDate := fd;
     todayTotalText := todayTotalText p; weekTotalText := weekTotalText p;
     totalSessionsText := totalSessionsText p;
     logsContainer := logsContainer p; dailyChart := dailyChart p;
     notifications := notifications p |}.

Definition set_summary (t w n : string) (p : Page) : Page :=
  {| filterSubject := filterSubject p; filterDate := filterDate p;
     todayTotalText := t; weekTotalText := w; totalSessionsText := n;
     logsContainer := logsContainer p; dailyChart := dailyChart p;
     notifications := notifications p |}.

Definition set_logsContainer (l : list Session) (p : Page) : Page :=
  {| filterSubject := filterSubject p; filterDate := filterDate p;
     todayTotalText := todayTotalText p; weekTotalText := weekTotalText p;
     totalSessionsText := totalSessionsText p;
     logsContainer := l; dailyChart := dailyChart p;
     notifications := notifications p |}.

Definition set_dailyChart (c : option (list string * list number)) (p : Page)
  : Page :=
  {| filterSubject := filterSubject p; filterDate := filterDate p;
     todayTotalText := todayTotalText p; weekTotalText := weekTotalText p;
     totalSessionsText := totalSessionsText p;
     logsContainer := logsContainer p; dailyChart := c;
     notifications := notifications p |}.

Definition set_notifications (n : list (string * string)) (p : Page) : Page :=
  {| filterSubject := filterSubject p; filterDate := filterDate p;
     todayTotalText := todayTotalText p; weekTotalText := weekTotalText p;
     totalSessionsText := totalSessionsText p;
     logsContainer := logsContainer p; dailyChart := dailyChart p;
     notifications := n |}.

(** *** Built-ins on the application's data *)

Definition getItem (ls : Storage) : option string := item ls.

Definition setItem (ls : Storage) (text : string) : option Storage :=
  match quota ls with
  | Some q =>
      if (String.length text <=? q)%nat
      then Some {| item := Some text; quota := quota ls |}
      else None
  | None => Some {| item := Some text; quota := quota ls |}
  end.

(** Value of a digit in base [radix], for the digits and letters below it. *)
Definition radixDigit (radix : Z) (c : ascii) : option Z :=
  let n := Z.of_N (N_of_ascii c) in
  let v :=
    if (48 <=? n) && (n <=? 57) then n - 48
    else if (65 <=? n) && (n <=? 90) then n - 55
    else if (97 <=? n) && (n <=? 122) then n - 87
    else radix in
  if v <? radix then Some v else None.

(** The value of the longest run of digits at the head of [s], [None] when
    there is no digit. *)
Fixpoint leadingDigits (radix : Z) (s : string) (acc : option Z) : option Z :=
  match s with
  | String c r =>
      match radixDigit radix c with
      | Some v =>
          leadingDigits radix r
            (Some (radix * match acc with Some a => a | None => 0 end + v))
      | None => acc
      end
  | EmptyString => acc
  end.

(** [parseInt(s)] with no radix: leading white space, an optional sign, a
    0x or 0X prefix for base 16, then the digits; NaN when there are none.
    The integer the digits denote is rounded to a number. *)
Definition parseInt (s : string) : number :=
  let s1 := trimStart s in
  let (sign, s2) :=
    match s1 with
    | String c r =>
        if Ascii.eqb c "-" then (-1, r)
        else if Ascii.eqb c "+" then (1, r) else (1, s1)
    | EmptyString => (1, s1)
    end in
  let (radix, s3) :=
    match s2 with
    | String c0 (String x r) =>
        if Ascii.eqb c0 "0" && (Ascii.eqb x "x" || Ascii.eqb x "X")
        then (16, r) else (10, s2)
    | _ => (10, s2)
    end in
  match leadingDigits radix s3 None with
  | Some v => Num (round53 (sign * v))
  | None => NaN
  end.

(** [separator]-joined texts, as [Array.prototype.join]. *)
Fixpoint join (separator : string) (l : list string) : string :=
  match l with
  | [] => EmptyString
  | [x] => x
  | x :: r => x ++ separator ++ join separator r
  end.

Definition member (key : string) (v : string) : string :=
  JSON.stringifyString key ++ ":" ++ v.

(** [JSON.stringify] of a session: its properties in creation order. *)
Definition stringifySession (log : Session) : string :=
  "{" ++ join ","
    [ member "id" (JSON.stringifyString (id log));
      member "subject" (JSON.stringifyString (subject log));
      member "duration" (JSON.stringifyNumber (duration log));
      member "timeUnit" (JSON.stringifyString (timeUnit log));
      member "date" (JSON.stringifyString (date log));
      member "notes" (JSON.stringifyString (notes log));
      member "timestamp" (JSON.stringifyString (timestamp log)) ] ++ "}".

(** [JSON.stringify(this.studyLogs)] *)
Definition stringify (logs : list Session) : string :=
  "[" ++ join "," (map stringifySession logs) ++ "]".

(** *** Reading a parsed value as a collection of sessions *)

Fixpoint textOfUnits (l : list N) : option string :=
  match l with
  | [] => Some EmptyString
  | n :: r =>
      if (n <? 256)%N then option_map (String (ascii_of_N n)) (textOfUnits r)
      else None
  end.

(** The property [key] of a parsed object: its last occurrence in the text. *)
Fixpoint property (key : string) (l : list (list N * JSON.value))
  : option JSON.value :=
  match l with
  | [] => None
  | (k, v) :: r =>
      match property key r with
      | Some v' => Some v'
      | None =>
          match textOfUnits k with
          | Some k' => if String.eqb k' key then Some v else None
          | None => None
          end
      end
  end.

Definition stringProperty (key : string) (l : list (list N * JSON.value))
  : option string :=
  match property key l with
  | Some (JSON.JString u) => textOfUnits u
  | _ => None
  end.

Definition integerProperty (key : string) (l : list (list N * JSON.value))
  : option number :=
  match property key l with
  | Some (JSON.JNumber m e) =>
      if 0 <=? e then Some (Num (m * 10 ^ e))
      else if m mod 10 ^ (- e) =? 0 then Some (Num (m / 10 ^ (- e)))
      else None
  | _ => None
  end.

Definition sessionOfValue (v : JSON.value) : option Session :=
  match v with
  | JSON.JObject l =>
      match stringProperty "id" l, stringProperty "subject" l,
            integerProperty "duration" l, stringProperty "timeUnit" l,
            stringProperty "date" l, stringProperty "notes" l,
            stringProperty "timestamp" l with
      | Some i, Some s, Some d, Some u, Some a, Some n, Some t =>
          Some {| id := i; subject := s; duration := d; timeUnit := u;
                  date := a; notes := n; timestamp := t |}
      | _, _, _, _, _, _, _ => None
      end
  | _ => None
  end.

Fixpoint sessionsOfValues (l : list JSON.value) : option (list Session) :=
  match l with
  | [] => Some []
  | v :: r =>
      match sessionOfValue v, sessionsOfValues r with
      | Some s, Some rest => Some (s :: rest)
      | _, _ => None
      end
  end.

(** The loaded value as a collection: an array of objects that hold the
    seven properties of a session, with an integer duration.  Any other
    value is not a collection. *)
Definition sessionsOfValue (v : JSON.value) : option (list Session) :=
  match v with
  | JSON.JArray l => sessionsOfValues l
  | _ => None
  end.

(** *** Methods *)

(** [showNotification(message, type)] *)
Definition showNotification (message type : string) : M jsval :=
  modify (fun st =>
    set_page (set_notifications (notifications (page st) ++ [(message, type)])
                                (page st)) st).

(** [saveToLocalStorage()]: a throw of [setItem] is caught and logged. *)
Definition saveToLocalStorage : M jsval :=
  modify (fun st =>
    match setItem (localStorage st) (stringify (studyLogs st)) with
    | Some ls => set_localStorage ls st
    | None => st
    end).

(** [loadFromLocalStorage()]: a throw of [JSON.parse] is caught and logged. *)
Definition loadFromLocalStorage (ls : Storage) : JSON.value :=
  match getItem ls with
  | Some data =>
      if truthy data then
        match JSON.parse data with
        | Some v => v
        | None => JSON.JArray []
        end
      else JSON.JArray []
  | None => JSON.JArray []
  end.

(** The callback of [calculateTotalMinutes] and the same expression in
    [createLogCard]. *)
Definition minutesOf (log : Session) : number :=
  if strictEq (timeUnit log) "hours" then mul (duration log) (Num 60)
  else duration log.

(** [calculateTotalMinutes(logs)] *)
Definition calculateTotalMinutes (logs : list Session) : number :=
  fold_left (fun total log => add total (minutesOf log)) logs (Num 0).

(** [formatDuration(minutes)] *)
Definition formatDuration (minutes : number) : string :=
  if lt minutes (Num 60) then toString minutes ++ " min"
  else
    let hours := floorDiv minutes 60 in
    let remainingMinutes := rem minutes 60 in
    if gt remainingMinutes (Num 0)
    then toString hours ++ "h " ++ toString remainingMinutes ++ "m"
    else toString hours ++ "h".

(** [startOfWeek] in [getWeekLogs] *)
Definition startOfWeek (env : Env) : Z :=
  let today := now env in
  let startOfWeek :=
    JsDate.setDate (tza env) today
      (JsDate.getDate (tza env) today - JsDate.getDay (tza env) today) in
  JsDate.setHours0 (tza env) startOfWeek.

(** [logDate >= startOfWeek], false for an invalid date. *)
Definition onOrAfter (start : Z) (logDate : option Z) : bool :=
  match logDate with
  | Some t => start <=? t
  | None => false
  end.

(** [getWeekLogs()] *)
Definition getWeekLogs (env : Env) (st : State) : list Session :=
  filter (fun log => onOrAfter (startOfWeek env) (JsDate.parse (date log)))
         (studyLogs st).

(** The constants [todayTotal] and [weekTotal] of [updateSummary]. *)
Definition todayTotal (env : Env) (st : State) : number :=
  let today := JsDate.isoDate (now env) in
  calculateTotalMinutes
    (filter (fun log => strictEq (date log) today) (studyLogs st)).

Definition weekTotal (env : Env) (st : State) : number :=
  calculateTotalMinutes (getWeekLogs env st).

(** [updateSummary()] *)
Definition updateSummary : M jsval :=
  fun env st =>
    (undefined,
     set_page (set_summary (formatDuration (todayTotal env st))
                           (formatDuration (weekTotal env st))
                           (decimal (Z.of_nat (List.length (studyLogs st))))
                           (page st)) st).

(** [renderLogs()]: one card for each session of [filteredLogs]. *)
Definition renderLogs : M jsval :=
  modify (fun st => set_page (set_logsContainer (filteredLogs st) (page st)) st).

(** [updateFilters()]: the options of the subject filter are rebuilt, which
    leaves its first option, All Subjects with the empty value, selected. *)
Definition updateFilters : M jsval :=
  modify (fun st =>
    set_page (set_filters EmptyString (filterDate (page st)) (page st)) st).

(** The dates of [renderDailyChart]: for i from 6 down to 0, today moved
    back by i days. *)
Definition chartDates (env : Env) : list string :=
  map (fun i =>
         JsDate.isoDate
           (JsDate.setDate (tza env) (now env)
                           (JsDate.getDate (tza env) (now env) - i)))
      [6; 5; 4; 3; 2; 1; 0].

(** The series of [renderDailyChart]: [dates] and [dailyData], or nothing
    when the collection is empty. *)
Definition dailySeries (env : Env) (logs : list Session)
  : option (list string * list number) :=
  if (List.length logs =? 0)%nat then None
  else
    let dates := chartDates env in
    let dailyData :=
      map (fun d =>
             calculateTotalMinutes
               (filter (fun log => strictEq (date log) d) logs))
          dates in
    Some (dates, dailyData).

(** [renderDailyChart()] *)
Definition renderDailyChart : M jsval :=
  fun env st =>
    (undefined,
     set_page (set_dailyChart (dailySeries env (studyLogs st)) (page st)) st).

(** [renderCharts()]; the subject chart only draws. *)
Definition renderCharts : M jsval := renderDailyChart.

(** [handleFormSubmit(e)], on the fields of the submitted form; resetting
    the form and its default date is left to the page. *)
Definition handleFormSubmit (formData : FormData) : M jsval :=
  fun env st =>
    let studySession :=
      {| id := toString (Num (now env));
         subject := trim (get_subject formData);
         duration := parseInt (get_duration formData);
         timeUnit := get_timeUnit formData;
         date := get_date formData;
         notes := trim (get_notes formData);
         timestamp := JsDate.toISOString (now env) |} in
    if negb (truthy (subject studySession))
       || le (duration studySession) (Num 0)
    then
      showNotification "Please fill in all required fields correctly." "error"
                       env st
    else
      (modify (fun st => set_studyLogs (studySession :: studyLogs st) st) ;;
       saveToLocalStorage ;;
       updateSummary ;;
       renderLogs ;;
       updateFilters ;;
       renderCharts ;;
       showNotification "Study session added successfully!" "success") env st.

(** [deleteLog(id)] *)
Definition deleteLog (i : string) : M jsval :=
  modify (fun st =>
    set_studyLogs (filter (fun log => negb (strictEq (id log) i)) (studyLogs st))
                  st) ;;
  saveToLocalStorage ;;
  updateSummary ;;
  renderLogs ;;
  updateFilters ;;
  renderCharts ;;
  showNotification "Study session deleted successfully!" "success".

(** The callback of the filter in [applyFilters]. *)
Definition passes (subjectFilter dateFilter : string) (log : Session) : bool :=
  let subjectMatch :=
    negb (truthy subjectFilter)
    || includes (toLowerCase (subject log)) (toLowerCase subjectFilter) in
  let dateMatch :=
    negb (truthy dateFilter) || strictEq (date log) dateFilter in
  subjectMatch && dateMatch.

(** [applyFilters()] *)
Definition applyFilters : M jsval :=
  modify (fun st =>
    let subjectFilter := filterSubject (page st) in
    let dateFilter := filterDate (page st) in
    set_filteredLogs (filter (passes subjectFilter dateFilter) (studyLogs st))
                     st) ;;
  renderLogs.

(** [clearFilters()] *)
Definition clearFilters : M jsval :=
  modify (fun st =>
    set_page (set_filters EmptyString EmptyString (page st)) st) ;;
  modify (fun st => set_filteredLogs (studyLogs st) st) ;;
  renderLogs.

(** [showClearAllConfirmation()] *)
Definition showClearAllConfirmation : M jsval :=
  modify (set_currentAction (Some "clearAll")).

(** [handleModalConfirm()]; [currentAction] is undefined until the first
    confirmation is asked for. *)
Definition handleModalConfirm : M jsval :=
  fun env st =>
    if match currentAction st with
       | Some action => strictEq action "clearAll"
       | None => false
       end
    then
      (modify (set_studyLogs []) ;;
       saveToLocalStorage ;;
       updateSummary ;;
       renderLogs ;;
       updateFilters ;;
       renderCharts ;;
       showNotification "All study sessions cleared!" "success") env st
    else (undefined, st).

(** [init()] *)
Definition init : M jsval :=
  updateSummary ;;
  renderLogs ;;
  updateFilters ;;
  renderCharts.

(** [new StudyTracker()] on a page and a storage.  [None] stands for a
    loaded value that is not a collection of sessions: the constructor
    throws when it spreads a value that is not iterable, and goes on with
    elements that are no sessions otherwise. *)
Definition constructor (p : Page) (ls : Storage) (env : Env) : option State :=
  match sessionsOfValue (loadFromLocalStorage ls) with
  | Some logs =>
      Some (snd (init env {| studyLogs := logs; filteredLogs := logs;
                             currentAction := None; localStorage := ls;
                             page := p |}))
  | None => None
  end.

(** *** Events *)

(** What the user does on the page; the listeners of
    [setupEventListeners] map each to a method. *)
Inductive Event : Type :=
| Submit (formData : FormData)
| ClickDelete (i : string)
| ChangeFilterSubject (v : string)
| ChangeFilterDate (v : string)
| ClickClearFilters
| ClickClearAll
| ClickConfirmYes.

Definition dispatch (ev : Event) : M jsval :=
  match ev with
  | Submit formData => handleFormSubmit formData
  | ClickDelete i => deleteLog i
  | ChangeFilterSubject v =>
      modify (fun st =>
        set_page (set_filters v (filterDate (page st)) (page st)) st) ;;
      applyFilters
  | ChangeFilterDate v =>
      modify (fun st =>
        set_page (set_filters (filterSubject (page st)) v (page st)) st) ;;
      applyFilters
  | ClickClearFilters => clearFilters
  | ClickClearAll => showClearAllConfirmation
  | ClickConfirmYes => handleModalConfirm
  end.

(** The state after a sequence of events, each at its clock reading. *)
Fixpoint run (tz : Z) (evs : list (Z * Event)) (st : State) : State :=
  match evs with
  | [] => st
  | (t, ev) :: r => run tz r (snd (dispatch ev {| tza := tz; now := t |} st))
  end.

(** A page with nothing filled in and a storage never written to. *)
Definition blankPage : Page :=
  {| filterSubject := EmptyString; filterDate := EmptyString;
     todayTotalText := EmptyString; weekTotalText := EmptyString;
     totalSessionsText := EmptyString; logsContainer := [];
     dailyChart := None; notifications := [] |}.

Definition emptyStorage : Storage := {| item := None; quota := None |}.

(** *** The other methods *)

(** The constant [studySession] of [handleFormSubmit]. *)
Definition studySession (env : Env) (formData : FormData) : Session :=
  {| id := toString (Num (now env));
     subject := trim (get_subject formData);
     duration := parseInt (get_duration formData);
     timeUnit := get_timeUnit formData;
     date := get_date formData;
     notes := trim (get_notes formData);
     timestamp := JsDate.toISOString (now env) |}.

(** [setDefaultDate()]: the value the date field of the form gets. *)
Definition setDefaultDate (env : Env) : string := JsDate.isoDate (now env).

(** Whether the spread [[...this.studyLogs]] of the constructor finds its
    operand iterable: an array and a string are, the other values that
    [JSON.parse] returns are not, and the spread throws a TypeError. *)
Definition iterable (v : JSON.value) : bool :=
  match v with
  | JSON.JArray _ | JSON.JString _ => true
  | _ => false
  end.

(** The dates and the series of [renderDailyChart] in a time zone whose
    offset may change, at the clock reading [now]. *)
Definition chartDatesIn (zone : JsDate.Zone) (now : Z) : list string :=
  map (fun i =>
         JsDate.isoDate
           (JsDate.setDateIn zone now (JsDate.getDateIn zone now - i)))
      [6; 5; 4; 3; 2; 1; 0].

Definition dailySeriesIn (zone : JsDate.Zone) (now : Z) (logs : list Session)
  : option (list string * list number) :=
  if (List.length logs =? 0)%nat then None
  else
    let dates := chartDatesIn zone now in
    let dailyData :=
      map (fun d =>
             calculateTotalMinutes
               (filter (fun log => strictEq (date log) d) logs))
          dates in
    Some (dates, dailyData).

(** The test [subjectMatch] of the callback of [applyFilters], on the code
    units of the filter and of a subject; [None] when the model does not
    have the lower case of one of them. *)
Definition subjectMatchUnits (subjectFilter subject : list N) : option bool :=
  match subjectFilter with
  | [] => Some true
  | _ :: _ =>
      match toLowerCaseUnits subject, toLowerCaseUnits subjectFilter with
      | Some s, Some t => Some (includesUnits s t)
      | _, _ => None
      end
  end.

(** [[...new Set(texts)]]: each text once, in the order of its first
    occurrence; [seen] holds the texts met so far. *)
Fixpoint distinct (seen texts : list string) : list string :=
  match texts with
  | [] => []
  | x :: r =>
      if existsb (String.eqb x) seen then distinct seen r
      else x :: distinct (x :: seen) r
  end.

Fixpoint insertSorted (x : string) (l : list string) : list string :=
  match l with
  | [] => [x]
  | y :: r => if String.leb x y then x :: l else y :: insertSorted x r
  end.

(** [texts.sort()] with no comparison function: ascending by code units. *)
Definition sort (texts : list string) : list string :=
  fold_right insertSorted [] texts.

(** The constant [subjects] of [updateFilters]: the options that follow
    All Subjects in the subject filter. *)
Definition subjects (st : State) : list string :=
  sort (distinct [] (map subject (studyLogs st))).

(** One code unit of a text node, as [innerHTML] writes it. *)
Definition escapeChar (c : ascii) : string :=
  if Ascii.eqb c "&" then "&amp;"
  else if Ascii.eqb c "<" then "&lt;"
  else if Ascii.eqb c ">" then "&gt;"
  else if (code c =? 160)%N then "&nbsp;"
  else String c EmptyString.

(** [escapeHtml(text)]: the [innerHTML] of an element whose [textContent]
    is [text]. *)
Fixpoint escapeHtml (text : string) : string :=
  match text with
  | String c r => escapeChar c ++ escapeHtml r
  | EmptyString => EmptyString
  end.

(** The constant [formattedDate] of [createLogCard], before it is put into
    words: the weekday, year, month and day of the month of
    [new Date(log.date)] in local time, which [toLocaleDateString]
    renders; [None] is the invalid date. *)
Definition formattedDate (env : Env) (log : Session) : option (Z * Z * Z * Z) :=
  option_map
    (fun t =>
       let local := JsDate.LocalTime (tza env) t in
       (JsDate.WeekDay local, JsDate.YearFromTime local,
        JsDate.MonthFromTime local, JsDate.DateFromTime local))
    (JsDate.parse (date log)).

Definition newline : string := String (ascii_of_N 10) EmptyString.

Definition quoted (text : string) : string :=
  String JSON.quote (text ++ String JSON.quote EmptyString).

(** One row of [exportToCSV]. *)
Definition csvRow (log : Session) : string :=
  join ","
    [ quoted (subject log);
      toString (duration log);
      timeUnit log;
      date log;
      quoted (if truthy (notes log) then notes log else EmptyString);
      timestamp log ].

(** The constant [csvContent] of [exportToCSV]. *)
Definition csvContent (logs : list Session) : string :=
  let headers :=
    ["Subject"; "Duration"; "Time Unit"; "Date"; "Notes"; "Timestamp"] in
  join newline (join "," headers :: map csvRow logs).

(** The file [exportToCSV] hands to the browser: its name and its content,
    or nothing when the collection is empty. *)
Definition exportedFile (env : Env) (st : State) : option (string * string) :=
  if (List.length (studyLogs st) =? 0)%nat then None
  else Some ("study-tracker-" ++ JsDate.isoDate (now env) ++ ".csv",
             csvContent (studyLogs st)).

(** [exportToCSV()], as far as the application object and the page go. *)
Definition exportToCSV : M jsval :=
  fun env st =>
    if (List.length (studyLogs st) =? 0)%nat
    then showNotification "No data to export." "error" env st
    else showNotification "Data exported successfully!" "success" env st.

End StudyTracker.

(* ------------------------------------------------------------------ *)
(** ** Notions the properties are stated with *)

Module Spec.

Import JsString JsNumber StudyTracker.
Local Open Scope string_scope.
Local Open Scope Z_scope.

(** [Selects P l l']: [l'] holds exactly the elements of [l] that satisfy
    [P], each as often as in [l] and in the order of [l]. *)
Inductive Selects {A : Type} (P : A -> Prop) : list A -> list A -> Prop :=
| Selects_nil : Selects P [] []
| Selects_keep (x : A) (l l' : list A) :
    P x -> Selects P l l' -> Selects P (x :: l) (x :: l')
| Selects_drop (x : A) (l l' : list A) :
    ~ P x -> Selects P l l' -> Selects P (x :: l) l'.

(** The capital letters of Latin-1: A to Z, and U+00C0 to U+00DE but the
    multiplication sign. *)
Definition IsCapital (c : ascii) : Prop :=
  (65 <= N_of_ascii c <= 90
   \/ (192 <= N_of_ascii c <= 222 /\ N_of_ascii c <> 215))%N.

(** The same character, or the two cases of one letter: the small letter
    stands 32 above its capital. *)
Inductive SameLetter : ascii -> ascii -> Prop :=
| SameLetter_same (c : ascii) : SameLetter c c
| SameLetter_capital (c d : ascii) :
    IsCapital c -> (N_of_ascii d = N_of_ascii c + 32)%N -> SameLetter c d
| SameLetter_small (c d : ascii) :
    IsCapital d -> (N_of_ascii c = N_of_ascii d + 32)%N -> SameLetter c d.

(** [SameLetter] as a test. *)
Definition sameLetterb (c d : ascii) : bool :=
  let capital n := ((65 <=? n) && (n <=? 90)
                    || (192 <=? n) && (n <=? 222) && negb (n =? 215))%N in
  Ascii.eqb c d
  || capital (N_of_ascii c) && (N_of_ascii d =? N_of_ascii c + 32)%N
  || capital (N_of_ascii d) && (N_of_ascii c =? N_of_ascii d + 32)%N.

(** Two texts of the same length whose letters agree up to case. *)
Inductive EqualIgnoringCase : string -> string -> Prop :=
| EqualIgnoringCase_nil : EqualIgnoringCase EmptyString EmptyString
| EqualIgnoringCase_cons (c d : ascii) (s t : string) :
    SameLetter c d -> EqualIgnoringCase s t ->
    EqualIgnoringCase (String c s) (String d t).

(** [t] occurs somewhere in [s], up to case. *)
Definition ContainsIgnoringCase (s t : string) : Prop :=
  exists before middle after : string,
    s = before ++ middle ++ after /\ EqualIgnoringCase middle t.

(** The filter criteria of the page hold of a session; an empty field is an
    absent criterion. *)
Definition MeetsCriteria (subjectSubstring exactDate : string) (log : Session)
  : Prop :=
  (subjectSubstring = EmptyString
   \/ ContainsIgnoringCase (subject log) subjectSubstring)
  /\ (exactDate = EmptyString \/ date log = exactDate).

(** A parser hands back no more text than it was given. *)
Definition Shrinks (f : list ascii -> option (JSON.value * list ascii)) : Prop :=
  forall s v r, f s = Some (v, r) -> (List.length r <= List.length s)%nat.

(** The one notification a rejected form gets. *)
Definition validationMessage : string * string :=
  ("Please fill in all required fields correctly.", "error").

(** The two validated fields, and a form that fails on one of them alone. *)
Inductive Field : Type :=
| SubjectField
| DurationField.

Definition FailsOnlyOn (formData : FormData) (field : Field) : Prop :=
  match field with
  | SubjectField =>
      trim (get_subject formData) = EmptyString
      /\ exists d, parseInt (get_duration formData) = Num d /\ 0 < d
  | DurationField =>
      trim (get_subject formData) <> EmptyString
      /\ exists d, parseInt (get_duration formData) = Num d /\ d <= 0
  end.

(** The failed field can be read off the result of [handleFormSubmit]. *)
Definition ErrorIdentifiesField : Prop :=
  exists read : jsval * State -> Field,
    forall formData env st field,
      FailsOnlyOn formData field ->
      read (handleFormSubmit formData env st) = field.

(** The date text of day number [d], counted from 1 January 1970. *)
Definition dateOfDay (d : Z) : string := JsDate.isoDate (d * JsDate.msPerDay).

(** No letter T in the text. *)
Fixpoint noT (s : string) : bool :=
  match s with
  | String c r => negb (Ascii.eqb c "T") && noT r
  | EmptyString => true
  end.

(** The spec's [toMinutes]: the duration unchanged when the unit is
    minutes, times 60 when it is hours. *)
Definition toMinutes (duration : number) (unit : string) : number :=
  if String.eqb unit "hours" then mul duration (Num 60) else duration.

(** The spec's [totalMinutes]: the sum of [toMinutes] over the sequence, in
    its order, 0 for the empty one. *)
Definition totalMinutes (sessions : list Session) : number :=
  fold_left (fun sum log => add sum (toMinutes (duration log) (timeUnit log)))
            sessions (Num 0).

(** The sessions dated exactly [d]. *)
Definition datedExactly (d : string) (logs : list Session) : list Session :=
  filter (fun log => String.eqb (date log) d) logs.

(** The minutes of the sessions are integers from 0 on whose sum is at most
    2^53: no sum of some of them is rounded. *)
Definition WithinExactIntegers (logs : list Session) : Prop :=
  exists ms : list Z,
    map (fun log => toMinutes (duration log) (timeUnit log)) logs = map Num ms
    /\ Forall (fun m => 0 <= m) ms
    /\ fold_right Z.add 0 ms <= 2 ^ 53.

(** The offset of the zone from UTC never changes. *)
Definition ConstantOffset (zone : JsDate.Zone) (tza : Z) : Prop :=
  (forall t, JsDate.offsetAtUTC zone t = tza)
  /\ (forall t, JsDate.offsetAtLocal zone t = tza).

(** The filtered view is the filter of the page applied to the
    collection. *)
Definition ViewCurrent (st : State) : Prop :=
  filteredLogs st
  = filter (passes (filterSubject (page st)) (filterDate (page st)))
           (studyLogs st).

(** Day number of the most recent Sunday at or before the local day of the
    clock reading. *)
Definition weekStartDay (env : Env) : Z :=
  let today := JsDate.Day (JsDate.LocalTime (tza env) (now env)) in
  today - (today + 4) mod 7.

(** The day a session is dated, when its date is one. *)
Definition dayOf (log : Session) : option Z :=
  option_map JsDate.Day (JsDate.parse (date log)).

Definition inWeek (env : Env) (log : Session) : bool :=
  match dayOf log with
  | Some d => weekStartDay env <=? d
  | None => false
  end.

(** The minutes of the sessions dated on or after the start of the week. *)
Definition weekMinutes (env : Env) (logs : list Session) : number :=
  calculateTotalMinutes (filter (inWeek env) logs).

(** Every id is the numeral of a clock reading below [bound], and no two
    sessions share one. *)
Definition IdsBelow (bound : Z) (logs : list Session) : Prop :=
  NoDup (map id logs)
  /\ forall log, In log logs -> exists t, id log = decimal t /\ t < bound.

(** The clock readings of the events increase strictly, from [bound] on. *)
Fixpoint Increasing (bound : Z) (evs : list (Z * Event)) : Prop :=
  match evs with
  | [] => True
  | (t, _) :: rest => bound <= t /\ Increasing (t + 1) rest
  end.

(** The session is dated on one of [dates]. *)
Definition datedWithin (dates : list string) (log : Session) : bool :=
  existsb (String.eqb (date log)) dates.

(** The session is dated on day number [d]. *)
Definition datedOn (d : Z) (log : Session) : bool :=
  match dayOf log with
  | Some d' => d' =? d
  | None => false
  end.

(** Weekday, year, month and day of the month of day number [d]. *)
Definition fieldsOfDay (d : Z) : Z * Z * Z * Z :=
  let t := d * JsDate.msPerDay in
  (JsDate.WeekDay t, JsDate.YearFromTime t, JsDate.MonthFromTime t,
   JsDate.DateFromTime t).

(** The clock reading lies in the years 0 to 9999, those of the date texts
    with a four-digit year. *)
Definition InFourDigitYears (t : Z) : Prop :=
  JsDate.DayFromYear 0 <= JsDate.Day t < JsDate.DayFromYear 10000.

(** What the date field of the form yields: nothing, or the text
    YYYY-MM-DD of a day of the years 0 to 9999. *)
Definition DateFieldValue (text : string) : Prop :=
  text = EmptyString
  \/ exists d, JsDate.DayFromYear 0 <= d < JsDate.DayFromYear 10000
               /\ text = dateOfDay d.

(** What the validation of [handleFormSubmit] lets through: a subject that
    is not empty, and a duration that is positive or NaN. *)
Definition Accepted (formData : FormData) : Prop :=
  trim (get_subject formData) <> EmptyString
  /\ (parseInt (get_duration formData) = NaN
      \/ exists d, parseInt (get_duration formData) = Num d /\ 0 < d).

(** A session as the form yields it: a subject with no white space around
    it and not empty, and a duration that is positive or NaN. *)
Definition WellFormed (log : Session) : Prop :=
  subject log <> EmptyString
  /\ trim (subject log) = subject log
  /\ (duration log = NaN \/ exists d, duration log = Num d /\ 0 < d).

(** The ids are the numerals of clock readings that decrease strictly along
    the collection, all below [bound]. *)
Inductive NewestFirst : Z -> list Session -> Prop :=
| NewestFirst_nil (bound : Z) : NewestFirst bound []
| NewestFirst_cons (bound t : Z) (log : Session) (logs : list Session) :
    id log = decimal t -> t < bound -> NewestFirst t logs ->
    NewestFirst bound (log :: logs).

(** The page shows the filtered view and the size of the collection. *)
Definition PageInStep (st : State) : Prop :=
  logsContainer (page st) = filteredLogs st
  /\ totalSessionsText (page st) = decimal (Z.of_nat (List.length (studyLogs st))).

(** What the calls that follow a change of the collection do, from saving
    to the notification. *)
Definition refresh (message type : string) : M jsval :=
  saveToLocalStorage ;;
  updateSummary ;;
  renderLogs ;;
  updateFilters ;;
  renderCharts ;;
  showNotification message type.

(** The text does not start with white space. *)
Definition startsClean (s : string) : Prop :=
  match s with
  | String c _ => isWhiteSpace c = false
  | EmptyString => True
  end.

(** The storage never refuses a write and, unless collection and storage
    are still those of [st0], it holds the text of the collection. *)
Definition WrittenThrough (st0 st : State) : Prop :=
  quota (localStorage st) = None
  /\ ((studyLogs st = studyLogs st0 /\ localStorage st = localStorage st0)
      \/ item (localStorage st) = Some (stringify (studyLogs st))).

(** [a] comes before [b] by code units. *)
Definition Before (a b : string) : Prop := String.compare a b = Lt.

(** Reading back the four character references that [escapeHtml] writes. *)
Fixpoint unescapeHtml (s : string) : string :=
  match s with
  | String "&" (String "a" (String "m" (String "p" (String ";" r)))) =>
      String "&" (unescapeHtml r)
  | String "&" (String "l" (String "t" (String ";" r))) =>
      String "<" (unescapeHtml r)
  | String "&" (String "g" (String "t" (String ";" r))) =>
      String ">" (unescapeHtml r)
  | String "&" (String "n" (String "b" (String "s" (String "p" (String ";" r))))) =>
      String (ascii_of_N 160) (unescapeHtml r)
  | String c r => String c (unescapeHtml r)
  | EmptyString => EmptyString
  end.

(** The character occurs in the text. *)
Fixpoint occurs (c : ascii) (s : string) : bool :=
  match s with
  | String c' r => Ascii.eqb c c' || occurs c r
  | EmptyString => false
  end.

(** The character that ends a line of the exported file. *)
Definition lineFeed : ascii := ascii_of_N 10.

(** The lines of a text: what stands between its line feeds. *)
Fixpoint splitLines (s : string) : list string :=
  match s with
  | String c r =>
      if Ascii.eqb c lineFeed then EmptyString :: splitLines r
      else
        match splitLines r with
        | l :: ls => String c l :: ls
        | [] => [String c EmptyString]
        end
  | EmptyString => [EmptyString]
  end.

(** No field of the session that is a text holds a line feed. *)
Definition SingleLine (log : Session) : Prop :=
  occurs lineFeed (subject log) = false
  /\ occurs lineFeed (timeUnit log) = false
  /\ occurs lineFeed (date log) = false
  /\ occurs lineFeed (notes log) = false
  /\ occurs lineFeed (timestamp log) = false.

(** The value of the digits [d] read after a number [acc]. *)
Fixpoint horner (acc : Z) (d : Decimal.uint) : Z :=
  match d with
  | Decimal.Nil => acc
  | Decimal.D0 l => horner (10 * acc) l
  | Decimal.D1 l => horner (10 * acc + 1) l
  | Decimal.D2 l => horner (10 * acc + 2) l
  | Decimal.D3 l => horner (10 * acc + 3) l
  | Decimal.D4 l => horner (10 * acc + 4) l
  | Decimal.D5 l => horner (10 * acc + 5) l
  | Decimal.D6 l => horner (10 * acc + 6) l
  | Decimal.D7 l => horner (10 * acc + 7) l
  | Decimal.D8 l => horner (10 * acc + 8) l
  | Decimal.D9 l => horner (10 * acc + 9) l
  end.

(** The code units of a text. *)
Definition units (s : string) : list N :=
  map N_of_ascii (list_ascii_of_string s).

(** The value that the text of a session denotes: its seven properties in
    creation order, a duration that is NaN being null. *)
Definition valueOfSession (log : Session) : JSON.value :=
  JSON.JObject
    [ (units "id", JSON.JString (units (id log)));
      (units "subject", JSON.JString (units (subject log)));
      (units "duration",
       match duration log with
       | Num z => JSON.JNumber z 0
       | NaN => JSON.JNull
       end);
      (units "timeUnit", JSON.JString (units (timeUnit log)));
      (units "date", JSON.JString (units (date log)));
      (units "notes", JSON.JString (units (notes log)));
      (units "timestamp", JSON.JString (units (timestamp log))) ].

End Spec.

(* ------------------------------------------------------------------ *)
(** ** Sample inputs *)

Module Samples.

Import StudyTracker.
Local Open Scope string_scope.
Local Open Scope Z_scope.

(** Wednesday 10 January 2024, 17:00 UTC, in a browser five hours behind
    UTC: noon, local time. *)
Definition wednesdayNoon : Env := {| tza := -18000000; now := 1704906000000 |}.

(** The application on a blank page and an empty storage, once constructed. *)
Definition fresh : State :=
  {| studyLogs := []; filteredLogs := []; currentAction := None;
     localStorage := emptyStorage;
     page := set_summary "0 min" "0 min" "0" blankPage |}.

Definition mathForm : FormData :=
  {| get_subject := "Math"; get_duration := "30"; get_timeUnit := "minutes";
     get_date := "2024-01-10"; get_notes := EmptyString |}.

(** A form whose subject is blank, and one whose duration is zero. *)
Definition blankSubjectForm : FormData :=
  {| get_subject := "   "; get_duration := "30"; get_timeUnit := "minutes";
     get_date := "2024-01-10"; get_notes := EmptyString |}.

Definition zeroDurationForm : FormData :=
  {| get_subject := "Math"; get_duration := "0"; get_timeUnit := "minutes";
     get_date := "2024-01-10"; get_notes := EmptyString |}.

(** Thirty minutes of Math on Sunday 7 January 2024. *)
Definition sundayMath : Session :=
  {| id := "1704636000000"; subject := "Math"; duration := Num 30;
     timeUnit := "minutes"; date := "2024-01-07"; notes := EmptyString;
     timestamp := "2024-01-07T14:00:00.000Z" |}.

Definition withLogs (logs : list Session) : State :=
  set_filteredLogs logs (set_studyLogs logs fresh).

(** Sunday 7 January 2024, 17:00 UTC, in the same browser. *)
Definition sundayNoon : Env := {| tza := -18000000; now := 1704646800000 |}.

(** The same Wednesday noon in a browser five and a half hours ahead of
    UTC. *)
Definition wednesdayNoonAhead : Env :=
  {| tza := 19800000; now := 1704868200000 |}.

Definition storing (text : string) : Storage :=
  {| item := Some text; quota := None |}.

(** New York around 10 March 2024: five hours behind UTC until 07:00 UTC of
    that day, when the clocks go forward, and four hours behind after. *)
Definition newYork : JsDate.Zone :=
  JsDate.changingZone 1710054000000 (-18000000) (-14400000).

(** Monday 11 March 2024, 23:30 UTC: 19:30 in New York. *)
Definition mondayEvening : Z := 1710199800000.

End Samples.

(* ------------------------------------------------------------------ *)
(** ** Properties *)

Import JsString JsNumber StudyTracker Spec Samples.

(** *** Running the methods *)

Ltac run_methods :=
  unfold handleFormSubmit, deleteLog, applyFilters, clearFilters,
    handleModalConfirm, showClearAllConfirmation, init, renderCharts,
    renderDailyChart, renderLogs, updateFilters, updateSummary,
    saveToLocalStorage, showNotification, bind, modify, ret;
  cbn [fst snd studyLogs filteredLogs currentAction localStorage page
       set_studyLogs set_filteredLogs set_currentAction set_localStorage
       set_page].

Lemma filter_Selects {A : Type} (f : A -> bool) (P : A -> Prop) (l : list A) :
  (forall x, In x l -> (f x = true <-> P x)) ->
  Selects P l (filter f l).
Proof.
  induction l as [|x l IH]; intros Hf; cbn [filter].
  - constructor.
  - assert (Hx : f x = true <-> P x) by (apply Hf; now left).
    assert (Hl : Selects P l (filter f l))
      by (apply IH; intros y Hy; apply Hf; now right).
    destruct (f x) eqn:E.
    + apply Selects_keep; [now apply Hx | exact Hl].
    + apply Selects_drop; [|exact Hl].
      intros HP. apply Hx in HP. discriminate.
Qed.

Lemma Selects_In {A : Type} (P : A -> Prop) (l l' : list A) :
  Selects P l l' -> forall x, In x l' <-> In x l /\ P x.
Proof.
  induction 1 as [|x l l' Hx _ IH|x l l' Hx _ IH]; intros y; cbn [In].
  - tauto.
  - rewrite IH. split.
    + intros [->|[Hy HP]]; auto.
    + intros [[->|Hy] HP]; auto.
  - rewrite IH. split.
    + intros [Hy HP]; auto.
    + intros [[->|Hy] HP]; [contradiction|auto].
Qed.

(** *** Strings *)

Lemma truthy_false (s : string) : truthy s = false <-> s = EmptyString.
Proof. destruct s; cbn; split; congruence. Qed.

Lemma strictEq_true (s t : string) : strictEq s t = true <-> s = t.
Proof. apply String.eqb_eq. Qed.

Lemma sameLetterb_SameLetter (c d : ascii) :
  sameLetterb c d = true <-> SameLetter c d.
Proof.
  unfold sameLetterb.
  rewrite !orb_true_iff, !andb_true_iff, !orb_true_iff, !andb_true_iff,
    !negb_true_iff, !N.leb_le, !N.eqb_eq, !N.eqb_neq, Ascii.eqb_eq.
  split.
  - intros [[->|[H E]]|[H E]].
    + constructor.
    + apply SameLetter_capital; [unfold IsCapital; lia|exact E].
    + apply SameLetter_small; [unfold IsCapital; lia|exact E].
  - intros [c'|c' d' Hc E|c' d' Hd E]; unfold IsCapital in *.
    + left. now left.
    + left. right. split; [lia|exact E].
    + right. split; [lia|exact E].
Qed.

(** The lower case of the code agrees with the two cases of the letters:
    checked on every pair of characters. *)
Lemma lowerChar_sameLetterb (c d : ascii) :
  Ascii.eqb (lowerChar c) (lowerChar d) = sameLetterb c d.
Proof.
  assert (H : forallb (fun m =>
                forallb (fun n =>
                  Bool.eqb (Ascii.eqb (lowerChar (ascii_of_nat m))
                                      (lowerChar (ascii_of_nat n)))
                           (sameLetterb (ascii_of_nat m) (ascii_of_nat n)))
                  (seq 0 256)) (seq 0 256) = true)
    by (vm_compute; reflexivity).
  rewrite forallb_forall in H.
  pose proof (nat_ascii_bounded c) as Bc.
  pose proof (nat_ascii_bounded d) as Bd.
  specialize (H (nat_of_ascii c)). rewrite forallb_forall in H.
  specialize (H ltac:(apply in_seq; lia) (nat_of_ascii d)
                ltac:(apply in_seq; lia)).
  rewrite !ascii_nat_embedding in H. now apply Bool.eqb_prop in H.
Qed.

Lemma lowerChar_SameLetter (c d : ascii) :
  lowerChar c = lowerChar d <-> SameLetter c d.
Proof.
  rewrite <- sameLetterb_SameLetter, <- lowerChar_sameLetterb.
  symmetry. apply Ascii.eqb_eq.
Qed.

Lemma prefix_toLowerCase (t s : string) :
  prefix (toLowerCase t) (toLowerCase s) = true <->
  exists middle after, s = (middle ++ after)%string /\ EqualIgnoringCase middle t.
Proof.
  revert s. induction t as [|d t IH]; intros s; cbn [toLowerCase prefix].
  - split.
    + intros _. exists EmptyString, s. split; [reflexivity|constructor].
    + destruct (toLowerCase s); reflexivity.
  - destruct s as [|c s]; cbn [toLowerCase prefix].
    + split; [discriminate|].
      intros (m & a & E & H). inversion H; subst. discriminate.
    + destruct (ascii_dec (lowerChar d) (lowerChar c)) as [e|ne].
      * rewrite IH. split.
        -- intros (m & a & -> & H). exists (String c m), a.
           split; [reflexivity|].
           constructor; [now apply lowerChar_SameLetter|exact H].
        -- intros (m & a & E & H). inversion H; subst.
           cbn in E. injection E as -> ->. now exists s0, a.
      * split; [discriminate|].
        intros (m & a & E & H). inversion H as [|? ? ? ? L]; subst.
        cbn in E. injection E as -> ->.
        apply lowerChar_SameLetter in L. congruence.
Qed.

Lemma includes_toLowerCase (s t : string) :
  includes (toLowerCase s) (toLowerCase t) = true <-> ContainsIgnoringCase s t.
Proof.
  unfold ContainsIgnoringCase.
  induction s as [|c s IH].
  - cbn [toLowerCase includes]. rewrite orb_false_r.
    change EmptyString with (toLowerCase EmptyString) at 1.
    rewrite prefix_toLowerCase. split.
    + intros (m & a & E & H). exists EmptyString, m, a. now split.
    + intros (b & m & a & E & H).
      destruct b; [|discriminate]. now exists m, a.
  - cbn [toLowerCase includes]. rewrite orb_true_iff.
    change (String (lowerChar c) (toLowerCase s))
      with (toLowerCase (String c s)).
    rewrite prefix_toLowerCase, IH. split.
    + intros [(m & a & E & H)|(b & m & a & E & H)].
      * exists EmptyString, m, a. now split.
      * exists (String c b), m, a. split; [cbn; now rewrite E|exact H].
    + intros (b & m & a & E & H). destruct b as [|c' b].
      * left. now exists m, a.
      * right. cbn in E. injection E as -> ->. now exists b, m, a.
Qed.

Lemma passes_MeetsCriteria (fs fd : string) (log : Session) :
  passes fs fd log = true <-> MeetsCriteria fs fd log.
Proof.
  unfold passes, MeetsCriteria.
  rewrite andb_true_iff, !orb_true_iff, !negb_true_iff, !truthy_false,
    includes_toLowerCase, strictEq_true.
  reflexivity.
Qed.

(** On texts of Latin-1 characters the claim holds.  The filtered view that
    [applyFilters] computes holds a session exactly when it is in the
    collection and meets the criteria of the page (subject filter empty or
    contained in the subject up to case, and date filter empty or equal to
    the date); the sessions it holds are in the order of the collection. *)
Theorem applyFilters_spec (env : Env) (st : State) :
  let criteria := MeetsCriteria (filterSubject (page st)) (filterDate (page st)) in
  let result := filteredLogs (snd (applyFilters env st)) in
  (forall log, In log result <-> In log (studyLogs st) /\ criteria log)
  /\ Selects criteria (studyLogs st) result
  /\ logsContainer (page (snd (applyFilters env st))) = result.
Proof.
  assert (H : Selects (MeetsCriteria (filterSubject (page st)) (filterDate (page st)))
                (studyLogs st) (filteredLogs (snd (applyFilters env st)))).
  { run_methods. apply filter_Selects. intros log _. apply passes_MeetsCriteria. }
  cbv zeta. split; [|split].
  - now apply Selects_In.
  - exact H.
  - reflexivity.
Qed.

(** *** Texts beyond Latin-1 *)

Lemma lowerUnits_letter (c : ascii) (r : list N) (afterCased : bool) :
  isCapitalLatin (N_of_ascii c) || isSmallLatin (N_of_ascii c) = true ->
  lowerUnits afterCased (N_of_ascii c :: r)
  = option_map (cons (N_of_ascii (lowerChar c))) (lowerUnits true r).
Proof.
  destruct c as [[] [] [] [] [] [] [] []]; intros H; try discriminate H;
    reflexivity.
Qed.

(** On texts of the letters A-Z and a-z, [toLowerCase] on code units is the
    one on characters. *)
Lemma toLowerCaseUnits_letters (s : string) :
  Forall (fun c => isCapitalLatin (N_of_ascii c) || isSmallLatin (N_of_ascii c)
                   = true)
         (list_ascii_of_string s) ->
  toLowerCaseUnits (units s) = Some (units (toLowerCase s)).
Proof.
  unfold toLowerCaseUnits, units. generalize false.
  induction s as [|c s IH]; intros b H; [reflexivity|].
  cbn [list_ascii_of_string map toLowerCase] in *.
  inversion H as [|? ? Hc Hs]; subst.
  rewrite lowerUnits_letter by exact Hc. now rewrite IH.
Qed.

Lemma prefixUnits_prefix (t s : string) :
  prefixUnits (units t) (units s) = prefix t s.
Proof.
  unfold units. revert s. induction t as [|a t IH]; intros [|b s];
    cbn [list_ascii_of_string map prefixUnits prefix]; try reflexivity.
  rewrite IH. destruct (ascii_dec a b) as [->|N].
  - now rewrite N.eqb_refl.
  - replace (N_of_ascii a =? N_of_ascii b)%N with false; [reflexivity|].
    symmetry. apply N.eqb_neq. intros E. apply N.
    now rewrite <- (ascii_N_embedding a), <- (ascii_N_embedding b), E.
Qed.

Lemma includesUnits_includes (s t : string) :
  includesUnits (units s) (units t) = includes s t.
Proof.
  induction s as [|c s IH].
  - cbn [includes]. change (units EmptyString) with (@nil N).
    cbn [includesUnits]. f_equal. apply (prefixUnits_prefix t EmptyString).
  - cbn [includes]. change (units (String c s)) with (N_of_ascii c :: units s).
    cbn [includesUnits]. rewrite IH. f_equal.
    apply (prefixUnits_prefix t (String c s)).
Qed.

(** On such texts the subject test on code units is the one of [passes]. *)
Lemma subjectMatchUnits_letters (subjectFilter subject : string) :
  Forall (fun c => isCapitalLatin (N_of_ascii c) || isSmallLatin (N_of_ascii c)
                   = true)
         (list_ascii_of_string subjectFilter) ->
  Forall (fun c => isCapitalLatin (N_of_ascii c) || isSmallLatin (N_of_ascii c)
                   = true)
         (list_ascii_of_string subject) ->
  subjectMatchUnits (units subjectFilter) (units subject)
  = Some (negb (truthy subjectFilter)
          || includes (toLowerCase subject) (toLowerCase subjectFilter)).
Proof.
  intros Hf Hs. unfold subjectMatchUnits.
  rewrite (toLowerCaseUnits_letters subject Hs),
    (toLowerCaseUnits_letters subjectFilter Hf), includesUnits_includes.
  destruct subjectFilter; reflexivity.
Qed.

(** C7, on the code.  The subject A followed by a capital sigma holds the
    filter text, a capital sigma, as it is written; [toLowerCase] turns the
    sigma of the subject, which ends a word, into the final small sigma and
    the sigma of the filter, which stands alone, into the small sigma, and
    [includes] does not find the one in the other: the session is left out
    of the filtered view. *)
Theorem final_sigma_hides_subject :
  let subject := [65; capitalSigma]%N in
  let subjectFilter := [capitalSigma] in
  (exists before after, subject = before ++ subjectFilter ++ after)
  /\ toLowerCaseUnits subject = Some [97; finalSigma]%N
  /\ toLowerCaseUnits subjectFilter = Some [smallSigma]
  /\ subjectMatchUnits subjectFilter subject = Some false.
Proof.
  cbv zeta. split; [|repeat split].
  exists [65%N], []. reflexivity.
Qed.

(** *** Removal *)

Lemma deleteLog_studyLogs (i : string) (env : Env) (st : State) :
  studyLogs (snd (deleteLog i env st))
  = filter (fun log => negb (strictEq (id log) i)) (studyLogs st).
Proof.
  run_methods. destruct (setItem _ _); reflexivity.
Qed.

Lemma deleteLog_notifications (i : string) (env : Env) (st : State) :
  notifications (page (snd (deleteLog i env st)))
  = notifications (page st)
      ++ [("Study session deleted successfully!", "success")]%string.
Proof.
  run_methods. destruct (setItem _ _); reflexivity.
Qed.

Lemma differs_from (i : string) (log : Session) :
  negb (strictEq (id log) i) = true <-> id log <> i.
Proof.
  rewrite negb_true_iff, <- not_true_iff_false, strictEq_true. reflexivity.
Qed.

(** C10.  [deleteLog(id)] leaves no session with the given id, however many
    there were, and keeps every other session, unchanged and in the order
    it had. *)
Theorem deleteLog_removes_all (i : string) (env : Env) (st : State) :
  let remaining := studyLogs (snd (deleteLog i env st)) in
  (forall log, In log remaining -> id log <> i)
  /\ Selects (fun log => id log <> i) (studyLogs st) remaining.
Proof.
  cbv zeta. rewrite deleteLog_studyLogs.
  assert (H : Selects (fun log => id log <> i) (studyLogs st)
                (filter (fun log => negb (strictEq (id log) i)) (studyLogs st))).
  { apply filter_Selects. intros log _. apply differs_from. }
  split; [|exact H].
  intros log Hin. now apply (Selects_In _ _ _ H) in Hin.
Qed.

Lemma filter_all {A : Type} (f : A -> bool) (l : list A) :
  (forall x, In x l -> f x = true) -> filter f l = l.
Proof.
  induction l as [|x l IH]; intros H; cbn [filter]; [reflexivity|].
  rewrite (H x (or_introl eq_refl)), IH; [reflexivity|].
  intros y Hy. apply H. now right.
Qed.

Lemma deleteLog_localStorage (i : string) (env : Env) (st : State) :
  localStorage (snd (deleteLog i env st))
  = match setItem (localStorage st)
            (stringify (filter (fun log => negb (strictEq (id log) i))
                               (studyLogs st))) with
    | Some ls => ls
    | None => localStorage st
    end.
Proof.
  run_methods. destruct (setItem _ _); reflexivity.
Qed.

(** C5, as the code has it.  For an id that no session of the collection
    has, [deleteLog(id)] leaves the collection as it was and completes,
    also when the write to the storage throws, which leaves the storage as
    it was; the call evaluates to [undefined], and the notification it
    shows is the one of a removal. *)
Theorem deleteLog_absent (i : string) (env : Env) (st : State) :
  (forall log, In log (studyLogs st) -> id log <> i) ->
  studyLogs (snd (deleteLog i env st)) = studyLogs st
  /\ fst (deleteLog i env st) = undefined
  /\ notifications (page (snd (deleteLog i env st)))
     = notifications (page st)
         ++ [("Study session deleted successfully!", "success")]%string
  /\ (setItem (localStorage st) (stringify (studyLogs st)) = None ->
      localStorage (snd (deleteLog i env st)) = localStorage st).
Proof.
  intros Habsent.
  assert (E : filter (fun log => negb (strictEq (id log) i)) (studyLogs st)
              = studyLogs st).
  { apply filter_all. intros log Hin. apply differs_from. now apply Habsent. }
  split; [|split; [|split]].
  - now rewrite deleteLog_studyLogs.
  - reflexivity.
  - apply deleteLog_notifications.
  - intros Hthrow. now rewrite deleteLog_localStorage, E, Hthrow.
Qed.

Lemma deleteLog_absent_witness :
  studyLogs (snd (deleteLog "nonexistent" wednesdayNoon (withLogs [sundayMath])))
  = [sundayMath]
  /\ fst (deleteLog "nonexistent" wednesdayNoon (withLogs [sundayMath]))
     = undefined.
Proof.
  destruct (deleteLog_absent "nonexistent" wednesdayNoon (withLogs [sundayMath]))
    as (Hlogs & Hvalue & _).
  - intros log [<-|[]]. cbn. discriminate.
  - split; [exact Hlogs|exact Hvalue].
Defined.

(** C5 as stated fails: for an id that no session has, the call does not
    evaluate to false, and what it reports is a successful removal. *)
Lemma deleteLog_absent_not_false :
  (forall log, In log (studyLogs (withLogs [sundayMath])) ->
               id log <> "nonexistent"%string)
  /\ fst (deleteLog "nonexistent" wednesdayNoon (withLogs [sundayMath]))
     <> boolean false
  /\ notifications
       (page (snd (deleteLog "nonexistent" wednesdayNoon (withLogs [sundayMath]))))
     = [("Study session deleted successfully!", "success")]%string.
Proof.
  split; [|split].
  - intros log [<-|[]]. cbn. discriminate.
  - cbn. discriminate.
  - vm_compute. reflexivity.
Qed.

(** *** Numbers *)

(** A rounded quotient is within a half of the quotient. *)
Lemma roundHalfEven_bounds (n d : Z) :
  0 < d ->
  2 * n - d <= 2 * (d * roundHalfEven n d) <= 2 * n + d.
Proof.
  intros Hd. unfold roundHalfEven.
  pose proof (Z.div_mod n d ltac:(lia)) as E.
  pose proof (Z.mod_pos_bound n d Hd) as B.
  destruct (Z.ltb_spec (2 * (n mod d)) d); [nia|].
  destruct (Z.ltb_spec d (2 * (n mod d))); [nia|].
  destruct (Z.even (n / d)); nia.
Qed.

(** Every integer up to 2^53 in magnitude is a number. *)
Lemma round53_exact (z : Z) : Z.abs z <= 2 ^ 53 -> round53 z = z.
Proof.
  intros H. unfold round53.
  destruct (Z.leb_spec (Z.log2 (Z.abs z) - 52) 0) as [|L]; [reflexivity|].
  assert (E : Z.abs z = 2 ^ 53).
  { destruct (Z.eq_dec (Z.abs z) (2 ^ 53)) as [|N]; [assumption|exfalso].
    assert (0 < Z.abs z)
      by (destruct (Z.abs z) eqn:A; cbn in L; lia).
    assert (Z.log2 (Z.abs z) < 53); [|lia].
    apply Z.log2_lt_pow2; lia. }
  rewrite E. change (Z.log2 (2 ^ 53) - 52) with 1.
  change (roundHalfEven (2 ^ 53) (2 ^ 1) * 2 ^ 1) with (2 ^ 53).
  rewrite <- E. rewrite Z.mul_comm. apply Z.abs_sgn.
Qed.

(** Up to 2^53 the hours of [formatDuration] are the quotient by 60: the
    rounding of the division never reaches the next integer. *)
Lemma floor_nearest_60 (x : Z) :
  0 < x <= 2 ^ 53 -> floorOf (nearest x 60) = x / 60.
Proof.
  intros [H0 H53].
  destruct (Z.eq_dec x (2 ^ 53)) as [->|N]; [vm_compute; reflexivity|].
  assert (La : Z.log2 x <= 52) by (apply Z.lt_succ_r, Z.log2_lt_pow2; lia).
  pose proof (Z.log2_nonneg x) as Lb.
  unfold nearest. change (Z.log2 60) with 5.
  set (a := Z.log2 x) in *.
  replace (0 <=? a - 5 - 53) with false by (symmetry; apply Z.leb_gt; lia).
  replace (0 <=? a - 5 - 53 + 1) with false by (symmetry; apply Z.leb_gt; lia).
  set (e := if x * 2 ^ (- (a - 5 - 53)) <? 60 * 2 ^ 53 then a - 5 - 53
            else a - 5 - 53 + 1).
  assert (He : e <= -5) by (unfold e; destruct (_ <? _); lia).
  replace (0 <=? e) with false by (symmetry; apply Z.leb_gt; lia).
  unfold floorOf.
  replace (0 <=? e) with false by (symmetry; apply Z.leb_gt; lia).
  set (k := - e) in *. 
  assert (Hk : 32 <= 2 ^ k).
  { change 32 with (2 ^ 5). apply Z.pow_le_mono_r; lia. }
  pose proof (roundHalfEven_bounds (x * 2 ^ k) 60 ltac:(lia)) as [B1 B2].
  set (P := 2 ^ k) in *. set (R := roundHalfEven (x * P) 60) in *.
  pose proof (Z.div_mod x 60 ltac:(lia)) as E.
  pose proof (Z.mod_pos_bound x 60 ltac:(lia)) as M.
  symmetry. apply (Z.div_unique R P (x / 60) (R - P * (x / 60))); [|lia].
  left. nia.
Qed.

Lemma add_exact (x y : Z) :
  Z.abs (x + y) <= 2 ^ 53 -> add (Num x) (Num y) = Num (x + y).
Proof. intros H. cbn [add]. now rewrite round53_exact. Qed.

Lemma mul_exact (x y : Z) :
  Z.abs (x * y) <= 2 ^ 53 -> mul (Num x) (Num y) = Num (x * y).
Proof. intros H. cbn [mul]. now rewrite round53_exact. Qed.

Lemma floorDiv_exact (x : Z) :
  0 <= x <= 2 ^ 53 -> floorDiv (Num x) 60 = Num (x / 60).
Proof.
  intros H. destruct x as [|p|p]; [reflexivity| |lia].
  cbn [floorDiv]. now rewrite floor_nearest_60.
Qed.

(** *** Duration formatting *)

Lemma formatDuration_below_60 (m : Z) :
  m < 60 -> formatDuration (Num m) = (decimal m ++ " min")%string.
Proof.
  intros H. unfold formatDuration, lt.
  destruct (Z.ltb_spec m 60); [reflexivity|lia].
Qed.

Lemma formatDuration_from_60 (m : Z) :
  60 <= m <= 2 ^ 53 ->
  formatDuration (Num m)
  = if 0 <? m mod 60
    then (decimal (m / 60) ++ "h " ++ decimal (m mod 60) ++ "m")%string
    else (decimal (m / 60) ++ "h")%string.
Proof.
  intros H. unfold formatDuration. rewrite floorDiv_exact by lia.
  unfold lt, gt, rem, toString, lt.
  destruct (Z.ltb_spec m 60); [lia|].
  rewrite Z.rem_mod_nonneg by lia. reflexivity.
Qed.

(** C9, as the code has it.  For a non-negative integer [m] up to 2^53,
    the integers that a number holds exactly, [formatDuration(m)] is the
    decimal numeral of [m] followed by " min" when [m < 60]; from 60 on it
    is the numeral of [m div 60] followed by "h" when 60 divides [m], and
    by "h ", the numeral of the remainder and "m" when it does not.  In
    particular 0 gives "0 min". *)
Theorem formatDuration_spec (m : Z) :
  0 <= m <= 2 ^ 53 ->
  (m < 60 -> formatDuration (Num m) = (decimal m ++ " min")%string)
  /\ (60 <= m -> m mod 60 = 0 ->
      formatDuration (Num m) = (decimal (m / 60) ++ "h")%string)
  /\ (60 <= m -> m mod 60 <> 0 ->
      formatDuration (Num m)
      = (decimal (m / 60) ++ "h " ++ decimal (m mod 60) ++ "m")%string)
  /\ formatDuration (Num 0) = "0 min"%string.
Proof.
  intros Hm. split; [|split; [|split]].
  - apply formatDuration_below_60.
  - intros H60 Hr. rewrite formatDuration_from_60, Hr by lia. reflexivity.
  - intros H60 Hr. rewrite formatDuration_from_60 by lia.
    destruct (Z.ltb_spec 0 (m mod 60)); [reflexivity|].
    pose proof (Z.mod_pos_bound m 60). lia.
  - reflexivity.
Qed.

Lemma formatDuration_spec_witness :
  formatDuration (Num 59) = "59 min"%string
  /\ formatDuration (Num 60) = "1h"%string
  /\ formatDuration (Num 90) = "1h 30m"%string.
Proof.
  split; [|split].
  - apply (formatDuration_spec 59); lia.
  - apply (formatDuration_spec 60); [lia|lia|reflexivity].
  - apply (formatDuration_spec 90); [lia|lia|].
    vm_compute. discriminate.
Defined.

(** C9 as stated fails beyond 2^53.  At 2^59 + 896, a number, the quotient
    by 60 is rounded up to the next number before [Math.floor] sees it, and
    the hours shown are one more than [m div 60]. *)
Lemma formatDuration_rounds_the_hours :
  let m := 2 ^ 59 + 896 in
  round53 m = m
  /\ 60 <= m
  /\ m mod 60 <> 0
  /\ formatDuration (Num m) = "9607679205057074h 4m"%string
  /\ (decimal (m / 60) ++ "h " ++ decimal (m mod 60) ++ "m")%string
     = "9607679205057073h 4m"%string
  /\ formatDuration (Num m)
     <> (decimal (m / 60) ++ "h " ++ decimal (m mod 60) ++ "m")%string.
Proof. cbv zeta. repeat split; vm_compute; congruence. Qed.

(** *** Validation *)

(** C4, as the code has it.  When the trimmed subject is empty or the
    parsed duration is an integer that is not positive, [handleFormSubmit]
    shows one notification, of type error and the same for both fields, and
    changes nothing else: the collection, the filtered view, the storage
    and the rest of the page are as before. *)
Theorem handleFormSubmit_invalid (formData : FormData) (env : Env) (st : State) :
  trim (get_subject formData) = EmptyString
  \/ (exists d, parseInt (get_duration formData) = Num d /\ d <= 0) ->
  handleFormSubmit formData env st
  = (undefined,
     set_page (set_notifications (notifications (page st) ++ [validationMessage])
                                 (page st)) st)
  /\ studyLogs (snd (handleFormSubmit formData env st)) = studyLogs st
  /\ filteredLogs (snd (handleFormSubmit formData env st)) = filteredLogs st
  /\ localStorage (snd (handleFormSubmit formData env st)) = localStorage st.
Proof.
  intros Hinvalid.
  assert (E : handleFormSubmit formData env st
              = (undefined,
                 set_page (set_notifications
                             (notifications (page st) ++ [validationMessage])
                             (page st)) st)).
  { unfold handleFormSubmit. cbn [subject duration].
    destruct Hinvalid as [Hs|(d & Hd & Hle)].
    - rewrite Hs. reflexivity.
    - rewrite Hd. unfold le. destruct (Z.leb_spec d 0); [|lia].
      rewrite orb_true_r. reflexivity. }
  rewrite E. repeat split.
Qed.

Lemma handleFormSubmit_invalid_witness :
  studyLogs (snd (handleFormSubmit zeroDurationForm wednesdayNoon
                                   (withLogs [sundayMath])))
  = [sundayMath]
  /\ localStorage (snd (handleFormSubmit zeroDurationForm wednesdayNoon
                                         (withLogs [sundayMath])))
     = emptyStorage.
Proof.
  destruct (handleFormSubmit_invalid zeroDurationForm wednesdayNoon
              (withLogs [sundayMath])) as (_ & Hlogs & _ & Hstore).
  - right. exists 0. split; [reflexivity|lia].
  - split; [exact Hlogs|exact Hstore].
Defined.

(** C4 as stated fails: the error does not tell which field failed.  A form
    that fails on its subject alone and a form that fails on its duration
    alone end in the same result and the same state, so that nothing reads
    the failed field off the result. *)
Lemma validation_error_names_no_field :
  FailsOnlyOn blankSubjectForm SubjectField
  /\ FailsOnlyOn zeroDurationForm DurationField
  /\ handleFormSubmit blankSubjectForm wednesdayNoon fresh
     = handleFormSubmit zeroDurationForm wednesdayNoon fresh
  /\ notifications
       (page (snd (handleFormSubmit blankSubjectForm wednesdayNoon fresh)))
     = [validationMessage]
  /\ ~ ErrorIdentifiesField.
Proof.
  assert (Hs : FailsOnlyOn blankSubjectForm SubjectField).
  { split; [reflexivity|]. exists 30. split; [reflexivity|lia]. }
  assert (Hd : FailsOnlyOn zeroDurationForm DurationField).
  { split; [discriminate|]. exists 0. split; [reflexivity|lia]. }
  split; [exact Hs|]. split; [exact Hd|].
  split; [reflexivity|]. split; [reflexivity|].
  intros (read & Hread).
  pose proof (Hread _ wednesdayNoon fresh _ Hs) as E1.
  pose proof (Hread _ wednesdayNoon fresh _ Hd) as E2.
  change (handleFormSubmit zeroDurationForm wednesdayNoon fresh)
    with (handleFormSubmit blankSubjectForm wednesdayNoon fresh) in E2.
  congruence.
Qed.

(** *** JSON texts *)

Section JsonTexts.

Import JSON.
Local Open Scope nat_scope.

Lemma skipWs_length (s : list ascii) : List.length (skipWs s) <= List.length s.
Proof.
  induction s as [|c s IH]; cbn [skipWs]; [lia|].
  destruct (isWs c); cbn [List.length] in *; lia.
Qed.

Lemma skipWs_cons (s r : list ascii) (c : ascii) :
  skipWs s = c :: r -> List.length r < List.length s.
Proof.
  intros H. pose proof (skipWs_length s) as L. rewrite H in L.
  cbn [List.length] in L. lia.
Qed.

Lemma expect_length (lit s r : list ascii) :
  expect lit s = Some r -> List.length r <= List.length s.
Proof.
  revert s. induction lit as [|a lit IH]; intros s; cbn [expect].
  - intros [= ->]. lia.
  - destruct s as [|c s]; [discriminate|].
    destruct (Ascii.eqb a c); [|discriminate].
    intros H. apply IH in H. cbn [List.length]. lia.
Qed.

Lemma parseChars_length (s : list ascii) (acc u : list N) (r : list ascii) :
  parseChars s acc = Some (u, r) -> List.length r < List.length s.
Proof.
  revert acc.
  induction s as [s IH] using (well_founded_induction
                                 (Wf_nat.well_founded_ltof _ (@List.length ascii))).
  unfold Wf_nat.ltof in IH. intros acc.
  destruct s as [|c s]; cbn [parseChars]; [discriminate|].
  destruct (Ascii.eqb c quote); [intros [= _ ->]; cbn [List.length]; lia|].
  destruct (Ascii.eqb c backslash).
  - destruct s as [|e s1]; [discriminate|].
    destruct (Ascii.eqb e "u").
    + destruct s1 as [|h1 [|h2 [|h3 [|h4 r2]]]]; try discriminate.
      destruct (hexValue h1), (hexValue h2), (hexValue h3), (hexValue h4);
        try discriminate.
      intros H. apply IH in H; cbn [List.length] in *; lia.
    + destruct (escapeValue e); [|discriminate].
      intros H. apply IH in H; cbn [List.length] in *; lia.
  - destruct (N_of_ascii c <? 32)%N; [discriminate|].
    intros H. apply IH in H; cbn [List.length] in *; lia.
Qed.

Lemma takeDigits_length (s ds r : list ascii) :
  takeDigits s = (ds, r) -> List.length ds + List.length r = List.length s.
Proof.
  revert ds r. induction s as [|c s IH]; intros ds r; cbn [takeDigits].
  - intros [= <- <-]. reflexivity.
  - destruct (isDigit c).
    + destruct (takeDigits s) as [ds' r'] eqn:E. intros [= <- <-].
      cbn [List.length]. rewrite <- (IH ds' r' eq_refl). lia.
    + intros [= <- <-]. reflexivity.
Qed.

Lemma parseFrac_length (s fs r : list ascii) :
  parseFrac s = Some (fs, r) -> List.length r <= List.length s.
Proof.
  unfold parseFrac. destruct s as [|c s]; [intros [= _ <-]; lia|].
  destruct (Ascii.eqb c ".").
  - destruct (takeDigits s) as [ds r'] eqn:E. apply takeDigits_length in E.
    destruct ds; [discriminate|]. intros [= _ <-]. cbn [List.length] in *. lia.
  - intros [= _ <-]. lia.
Qed.

Lemma parseExp_length (s r : list ascii) (e : Z) :
  parseExp s = Some (e, r) -> List.length r <= List.length s.
Proof.
  unfold parseExp. destruct s as [|c s]; [intros [= _ <-]; lia|].
  destruct (Ascii.eqb c "e" || Ascii.eqb c "E").
  - match goal with
    | |- context [let (_, _) := ?p in _] => destruct p as [sign r1] eqn:P
    end.
    assert (L : List.length r1 <= List.length s).
    { destruct s as [|c1 s1]; [injection P as _ <-; lia|].
      destruct (Ascii.eqb c1 "-"); [injection P as _ <-; cbn [List.length]; lia|].
      destruct (Ascii.eqb c1 "+"); injection P as _ <-; cbn [List.length]; lia. }
    destruct (takeDigits r1) as [ds r'] eqn:E. apply takeDigits_length in E.
    destruct ds; [discriminate|]. intros [= _ <-]. cbn [List.length] in *. lia.
  - intros [= _ <-]. lia.
Qed.

Lemma parseNumber_length (s r : list ascii) (v : value) :
  parseNumber s = Some (v, r) -> List.length r <= List.length s.
Proof.
  unfold parseNumber.
  match goal with
  | |- context [let (_, _) := ?p in _] => destruct p as [sign s1] eqn:P
  end.
  assert (L : List.length s1 <= List.length s).
  { destruct s as [|c s']; [injection P as _ <-; lia|].
    destruct (Ascii.eqb c "-"); injection P as _ <-; cbn [List.length]; lia. }
  destruct (takeDigits s1) as [ds s2] eqn:E. apply takeDigits_length in E.
  destruct ds as [|d ds]; [discriminate|].
  destruct (_ && _); [discriminate|].
  destruct (parseFrac s2) as [[fs s3]|] eqn:F; [|discriminate].
  apply parseFrac_length in F.
  destruct (parseExp s3) as [[e s4]|] eqn:X; [|discriminate].
  apply parseExp_length in X. intros [= _ <-]. lia.
Qed.

Lemma parse_family_length (n : nat) :
  Shrinks (parseValue n)
  /\ (forall acc, Shrinks (fun s => parseElements n s acc))
  /\ (forall acc, Shrinks (fun s => parseMembers n s acc)).
Proof.
  unfold Shrinks.
  induction n as [|n (IHv & IHe & IHm)]; [repeat split; discriminate|].
  repeat split.
  - intros s v r. cbn [parseValue].
    destruct (skipWs s) as [|c s1] eqn:W; [discriminate|].
    apply skipWs_cons in W.
    destruct (Ascii.eqb c "[").
    { destruct (skipWs s1) as [|c1 r1] eqn:W1; [discriminate|].
      apply skipWs_cons in W1.
      destruct (Ascii.eqb c1 "]"); [intros [= _ <-]; lia|].
      intros H. apply IHe in H. lia. }
    destruct (Ascii.eqb c "{").
    { destruct (skipWs s1) as [|c1 r1] eqn:W1; [discriminate|].
      apply skipWs_cons in W1.
      destruct (Ascii.eqb c1 "}"); [intros [= _ <-]; lia|].
      intros H. apply IHm in H. lia. }
    destruct (Ascii.eqb c quote).
    { destruct (parseChars s1 []) as [[u r1]|] eqn:P; [|discriminate].
      apply parseChars_length in P. intros [= _ <-]. lia. }
    destruct (Ascii.eqb c "n").
    { destruct (expect _ s1) as [r1|] eqn:X; [|discriminate].
      apply expect_length in X. intros [= _ <-]. lia. }
    destruct (Ascii.eqb c "t").
    { destruct (expect _ s1) as [r1|] eqn:X; [|discriminate].
      apply expect_length in X. intros [= _ <-]. lia. }
    destruct (Ascii.eqb c "f").
    { destruct (expect _ s1) as [r1|] eqn:X; [|discriminate].
      apply expect_length in X. intros [= _ <-]. lia. }
    intros H. apply parseNumber_length in H. cbn [List.length] in H. lia.
  - intros acc s v r. cbn [parseElements].
    destruct (parseValue n s) as [[v1 r1]|] eqn:V; [|discriminate].
    apply IHv in V.
    destruct (skipWs r1) as [|c r2] eqn:W; [discriminate|].
    apply skipWs_cons in W.
    destruct (Ascii.eqb c ","); [intros H; apply IHe in H; lia|].
    destruct (Ascii.eqb c "]"); [|discriminate].
    intros [= _ <-]. lia.
  - intros acc s v r. cbn [parseMembers].
    destruct (skipWs s) as [|c s1] eqn:W; [discriminate|].
    apply skipWs_cons in W.
    destruct (Ascii.eqb c quote); [|discriminate].
    destruct (parseChars s1 []) as [[key r1]|] eqn:P; [|discriminate].
    apply parseChars_length in P.
    destruct (skipWs r1) as [|c1 r2] eqn:W1; [discriminate|].
    apply skipWs_cons in W1.
    destruct (Ascii.eqb c1 ":"); [|discriminate].
    destruct (parseValue n r2) as [[v1 r3]|] eqn:V; [|discriminate].
    apply IHv in V.
    destruct (skipWs r3) as [|c2 r4] eqn:W2; [discriminate|].
    apply skipWs_cons in W2.
    destruct (Ascii.eqb c2 ","); [intros H; apply IHm in H; lia|].
    destruct (Ascii.eqb c2 "}"); [|discriminate].
    intros [= _ <-]. lia.
Qed.

(** Beyond twice the length of the text, the bound on the depth of the
    calls no longer matters. *)
Lemma parse_family_fuel (n : nat) :
  (forall s m, 2 * List.length s + 2 <= n -> n <= m ->
               parseValue n s = parseValue m s)
  /\ (forall s acc m, 2 * List.length s + 3 <= n -> n <= m ->
                      parseElements n s acc = parseElements m s acc)
  /\ (forall s acc m, 2 * List.length s + 3 <= n -> n <= m ->
                      parseMembers n s acc = parseMembers m s acc).
Proof.
  induction n as [|n (IHv & IHe & IHm)]; [repeat split; intros; lia|].
  repeat split.
  - intros s [|m] Hn Hm; [lia|]. cbn [parseValue].
    destruct (skipWs s) as [|c s1] eqn:W; [reflexivity|].
    apply skipWs_cons in W.
    destruct (Ascii.eqb c "[").
    { destruct (skipWs s1) as [|c1 r1] eqn:W1; [reflexivity|].
      destruct (Ascii.eqb c1 "]"); [reflexivity|].
      apply IHe; lia. }
    destruct (Ascii.eqb c "{"); [|reflexivity].
    destruct (skipWs s1) as [|c1 r1] eqn:W1; [reflexivity|].
    destruct (Ascii.eqb c1 "}"); [reflexivity|].
    apply IHm; lia.
  - intros s acc [|m] Hn Hm; [lia|]. cbn [parseElements].
    rewrite (IHv s m) by lia.
    destruct (parseValue m s) as [[v1 r1]|] eqn:V; [|reflexivity].
    apply (proj1 (parse_family_length m)) in V.
    destruct (skipWs r1) as [|c r2] eqn:W; [reflexivity|].
    apply skipWs_cons in W.
    destruct (Ascii.eqb c ","); [|reflexivity].
    apply IHe; lia.
  - intros s acc [|m] Hn Hm; [lia|]. cbn [parseMembers].
    destruct (skipWs s) as [|c s1] eqn:W; [reflexivity|].
    apply skipWs_cons in W.
    destruct (Ascii.eqb c quote); [|reflexivity].
    destruct (parseChars s1 []) as [[key r1]|] eqn:P; [|reflexivity].
    apply parseChars_length in P.
    destruct (skipWs r1) as [|c1 r2] eqn:W1; [reflexivity|].
    apply skipWs_cons in W1.
    destruct (Ascii.eqb c1 ":"); [|reflexivity].
    rewrite (IHv r2 m) by lia.
    destruct (parseValue m r2) as [[v1 r3]|] eqn:V; [|reflexivity].
    apply (proj1 (parse_family_length m)) in V.
    destruct (skipWs r3) as [|c2 r4] eqn:W2; [reflexivity|].
    apply skipWs_cons in W2.
    destruct (Ascii.eqb c2 ","); [|reflexivity].
    apply IHm; lia.
Qed.

(** [JSON.parse] gives what [parseValue] gives under any larger bound: a
    text it rejects is rejected for its syntax. *)
Lemma JSON_parse_fuel (text : string) (m : nat) :
  2 * List.length (list_ascii_of_string text) + 2 <= m ->
  parse text
  = match parseValue m (list_ascii_of_string text) with
    | Some (v, r) => match skipWs r with [] => Some v | _ :: _ => None end
    | None => None
    end.
Proof.
  intros H. unfold parse.
  now rewrite (proj1 (parse_family_fuel _) _ m) by lia.
Qed.

End JsonTexts.

(** *** Loading *)

(** What the code guards against.  When the slot is missing, holds the
    empty text or holds a text that [JSON.parse] rejects,
    [loadFromLocalStorage] returns the empty array, the throw of
    [JSON.parse] being caught. *)
Theorem loadFromLocalStorage_unreadable (ls : Storage) :
  getItem ls = None
  \/ getItem ls = Some EmptyString
  \/ (exists data, getItem ls = Some data /\ JSON.parse data = None) ->
  loadFromLocalStorage ls = JSON.JArray [].
Proof.
  unfold loadFromLocalStorage.
  intros [->|[->|(data & -> & Hparse)]]; [reflexivity|reflexivity|].
  rewrite Hparse. destruct (truthy data); reflexivity.
Qed.

Lemma loadFromLocalStorage_unreadable_witness :
  loadFromLocalStorage (storing "[{") = JSON.JArray [].
Proof.
  apply (loadFromLocalStorage_unreadable (storing "[{")).
  right. right. exists "[{"%string. split; reflexivity.
Defined.

(** A text that parses is returned as the value it denotes, of whatever
    shape. *)
Lemma loadFromLocalStorage_readable (ls : Storage) (data : string)
      (v : JSON.value) :
  getItem ls = Some data -> data <> EmptyString -> JSON.parse data = Some v ->
  loadFromLocalStorage ls = v.
Proof.
  unfold loadFromLocalStorage. intros -> Hne ->.
  destruct data; [contradiction|reflexivity].
Qed.

(** A slot that holds well-formed JSON which is not an array of sessions
    is loaded as it is, not as an empty collection. *)
Lemma load_keeps_wrong_shape :
  loadFromLocalStorage (storing "{}") = JSON.JObject []
  /\ sessionsOfValue (JSON.JObject []) = None
  /\ loadFromLocalStorage (storing "{}") <> JSON.JArray []
  /\ loadFromLocalStorage (storing "[7]") = JSON.JArray [JSON.JNumber 7 0]
  /\ sessionsOfValue (JSON.JArray [JSON.JNumber 7 0]) = None.
Proof.
  repeat split. vm_compute. discriminate.
Qed.

(** C6, on the code.  With the text {} in the slot, which [JSON.parse]
    accepts, [loadFromLocalStorage] returns the object it denotes and not
    an empty collection; the object is not iterable, so that the spread of
    the constructor throws and no application is built.  The sibling case
    of a text that [JSON.parse] rejects is caught and loads as the empty
    array, on which the constructor goes through. *)
Theorem load_wrong_shape_throws :
  loadFromLocalStorage (storing "{}") = JSON.JObject []
  /\ loadFromLocalStorage (storing "{}") <> JSON.JArray []
  /\ iterable (loadFromLocalStorage (storing "{}")) = false
  /\ constructor blankPage (storing "{}") wednesdayNoon = None
  /\ loadFromLocalStorage (storing "[{") = JSON.JArray []
  /\ constructor blankPage (storing "[{") wednesdayNoon <> None.
Proof.
  repeat split; vm_compute; discriminate.
Qed.

(** *** Dates *)

Import JsDate.

Lemma msPerDay_pos : 0 < msPerDay.
Proof. reflexivity. Qed.

Lemma MonthFromTime_range (t : Z) : 0 <= MonthFromTime t <= 11.
Proof.
  unfold MonthFromTime.
  repeat match goal with
         | |- context [if ?b then _ else _] => destruct b
         end; lia.
Qed.

(** The day of the month counts from the first day of the month of [t]. *)
Lemma MakeDay_fields (t k : Z) :
  MakeDay (YearFromTime t) (MonthFromTime t) (DateFromTime t + k) = Day t + k.
Proof.
  pose proof (MonthFromTime_range t) as Hm.
  unfold MakeDay.
  rewrite Z.div_small, Z.mod_small, Z.add_0_r by lia.
  unfold DateFromTime, DayWithinYear. lia.
Qed.

Lemma setDate_getDate (tz t i : Z) :
  setDate tz t (getDate tz t - i) = t - i * msPerDay.
Proof.
  unfold setDate, getDate, UTC, MakeDate, TimeWithinDay.
  replace (DateFromTime (LocalTime tz t) - i)
    with (DateFromTime (LocalTime tz t) + - i) by lia.
  rewrite MakeDay_fields. unfold Day, LocalTime.
  pose proof (Z.div_mod (t + tz) msPerDay) as H.
  pose proof msPerDay_pos. lia.
Qed.

Lemma Day_sub_days (t i : Z) : Day (t - i * msPerDay) = Day t - i.
Proof.
  unfold Day. replace (t - i * msPerDay) with (t + (- i) * msPerDay) by lia.
  rewrite Z.div_add by (pose proof msPerDay_pos; lia). lia.
Qed.

Lemma Day_midnight (d : Z) : Day (d * msPerDay) = d.
Proof. unfold Day. apply Z.div_mul. pose proof msPerDay_pos. lia. Qed.

Lemma noT_app (a b : string) : noT (a ++ b) = noT a && noT b.
Proof.
  induction a as [|c a IH]; cbn [append noT]; [reflexivity|].
  rewrite IH. apply andb_assoc.
Qed.

Lemma beforeT_app (a b : string) :
  noT a = true -> beforeT (a ++ b) = (a ++ beforeT b)%string.
Proof.
  induction a as [|c a IH]; cbn [append noT beforeT]; [reflexivity|].
  intros H. apply andb_true_iff in H as [Hc Ha].
  apply negb_true_iff in Hc. rewrite Hc, IH by exact Ha. reflexivity.
Qed.

Lemma noT_digit (n : Z) : noT (String (digit n) EmptyString) = true.
Proof.
  unfold digit. pose proof (Z.mod_pos_bound n 10 ltac:(lia)) as H.
  remember (n mod 10) as r eqn:E. clear E.
  assert (C : r = 0 \/ r = 1 \/ r = 2 \/ r = 3 \/ r = 4 \/ r = 5 \/ r = 6
              \/ r = 7 \/ r = 8 \/ r = 9) by lia.
  repeat destruct C as [->|C]; try subst r; reflexivity.
Qed.

Lemma noT_pad (w : nat) (n : Z) : noT (pad w n) = true.
Proof.
  revert n. induction w as [|w IH]; intros n; cbn [pad]; [reflexivity|].
  rewrite noT_app, IH, noT_digit. reflexivity.
Qed.

Lemma noT_isoYear (y : Z) : noT (isoYear y) = true.
Proof.
  unfold isoYear.
  destruct (_ && _); [apply noT_pad|].
  destruct (y <? 0); cbn [append noT]; rewrite noT_pad; reflexivity.
Qed.

(** The date part of [toISOString]: year, month and day of the month. *)
Lemma isoDate_fields (t : Z) :
  isoDate t
  = (isoYear (YearFromTime t) ++ "-" ++ pad 2 (MonthFromTime t + 1) ++ "-"
       ++ pad 2 (DateFromTime t))%string.
Proof.
  unfold isoDate, toISOString.
  rewrite beforeT_app by apply noT_isoYear.
  rewrite (beforeT_app "-") by reflexivity.
  rewrite beforeT_app by apply noT_pad.
  rewrite (beforeT_app "-") by reflexivity.
  rewrite beforeT_app by apply noT_pad.
  cbn [append beforeT]. rewrite Ascii.eqb_refl.
  reflexivity.
Qed.

Lemma fields_of_Day (t t' : Z) :
  Day t = Day t' ->
  YearFromTime t = YearFromTime t'
  /\ MonthFromTime t = MonthFromTime t'
  /\ DateFromTime t = DateFromTime t'.
Proof.
  intros H.
  assert (Hy : YearFromTime t = YearFromTime t')
    by (unfold YearFromTime; now rewrite H).
  assert (Hd : DayWithinYear t = DayWithinYear t')
    by (unfold DayWithinYear; now rewrite H, Hy).
  assert (Hm : MonthFromTime t = MonthFromTime t')
    by (unfold MonthFromTime; now rewrite Hy, Hd).
  repeat split; [exact Hy|exact Hm|].
  unfold DateFromTime. now rewrite Hy, Hd, Hm.
Qed.

(** The date text of a time is the date text of its day. *)
Lemma isoDate_Day (t : Z) : isoDate t = dateOfDay (Day t).
Proof.
  unfold dateOfDay. rewrite !isoDate_fields.
  destruct (fields_of_Day t (Day t * msPerDay)) as (-> & -> & ->);
    [now rewrite Day_midnight|reflexivity].
Qed.

Lemma chartDates_days (env : Env) :
  chartDates env
  = map (fun k => dateOfDay (Day (now env) - 6 + k)) [0; 1; 2; 3; 4; 5; 6].
Proof.
  unfold chartDates. cbn [map].
  rewrite !setDate_getDate, !isoDate_Day, !Day_sub_days.
  repeat (f_equal; try lia).
Qed.

(** *** The calendar *)

Lemma step_div (y k c : Z) :
  0 < c ->
  (y + 1 - k) / c = (y - k) / c + (if (y + 1 - k) mod c =? 0 then 1 else 0).
Proof.
  intros Hc.
  pose proof (Z.div_mod (y + 1 - k) c ltac:(lia)).
  pose proof (Z.div_mod (y - k) c ltac:(lia)).
  pose proof (Z.mod_pos_bound (y - k) c Hc).
  pose proof (Z.mod_pos_bound (y + 1 - k) c Hc).
  destruct (Z.eqb_spec ((y + 1 - k) mod c) 0); nia.
Qed.

Lemma DayFromYear_succ (y : Z) :
  DayFromYear (y + 1) = DayFromYear y + (if InLeapYear y then 366 else 365).
Proof.
  unfold DayFromYear, InLeapYear.
  rewrite (step_div y 1969 4), (step_div y 1901 100), (step_div y 1601 400)
    by lia.
  replace (y + 1 - 1969) with (y + (-492) * 4) by lia.
  replace (y + 1 - 1901) with (y + (-19) * 100) by lia.
  replace (y + 1 - 1601) with (y + (-4) * 400) by lia.
  rewrite !Z.mod_add by lia.
  pose proof (Z.rem_mul_r y 100 4 ltac:(lia) ltac:(lia)) as E1.
  change (100 * 4) with 400 in E1.
  pose proof (Z.rem_mul_r y 4 25 ltac:(lia) ltac:(lia)) as E2.
  change (4 * 25) with 100 in E2.
  pose proof (Z.mod_pos_bound y 4 ltac:(lia)).
  pose proof (Z.mod_pos_bound y 100 ltac:(lia)).
  pose proof (Z.mod_pos_bound (y / 100) 4 ltac:(lia)).
  pose proof (Z.mod_pos_bound (y / 4) 25 ltac:(lia)).
  destruct (Z.eqb_spec (y mod 4) 0), (Z.eqb_spec (y mod 100) 0),
    (Z.eqb_spec (y mod 400) 0); cbn [andb orb negb]; lia.
Qed.

Lemma DayFromYear_bounds (y : Z) :
  146097 * (y - 1970) - 506 <= 400 * DayFromYear y
  <= 146097 * (y - 1970) + 589.
Proof.
  unfold DayFromYear.
  pose proof (Z.div_mod (y - 1969) 4 ltac:(lia)).
  pose proof (Z.mod_pos_bound (y - 1969) 4 ltac:(lia)).
  pose proof (Z.div_mod (y - 1901) 100 ltac:(lia)).
  pose proof (Z.mod_pos_bound (y - 1901) 100 ltac:(lia)).
  pose proof (Z.div_mod (y - 1601) 400 ltac:(lia)).
  pose proof (Z.mod_pos_bound (y - 1601) 400 ltac:(lia)).
  lia.
Qed.

Lemma YearFromDay_spec (d : Z) :
  DayFromYear (YearFromDay d) <= d < DayFromYear (YearFromDay d + 1).
Proof.
  unfold YearFromDay.
  pose proof (Z.div_mod (400 * d) 146097 ltac:(lia)) as Hq.
  pose proof (Z.mod_pos_bound (400 * d) 146097 ltac:(lia)) as Hr.
  set (q := 400 * d / 146097) in *.
  pose proof (DayFromYear_bounds (1970 + q + 1 + 1)).
  pose proof (DayFromYear_bounds (1970 + q - 1)).
  destruct (Z.leb_spec (DayFromYear (1970 + q + 1)) d).
  - split; [assumption|lia].
  - destruct (Z.leb_spec (DayFromYear (1970 + q)) d).
    + split; assumption.
    + replace (1970 + q - 1 + 1) with (1970 + q) by lia.
      split; [lia|assumption].
Qed.

Lemma DayFromYear_lt (y y' : Z) : y < y' -> DayFromYear y < DayFromYear y'.
Proof.
  intros H. pose proof (DayFromYear_bounds y). pose proof (DayFromYear_bounds y').
  assert (C : y + 1 = y' \/ y + 2 <= y') by lia.
  destruct C as [<-|C]; [|lia].
  rewrite DayFromYear_succ. destruct (InLeapYear y); lia.
Qed.

Lemma YearFromDay_unique (d y : Z) :
  DayFromYear y <= d < DayFromYear (y + 1) -> YearFromDay d = y.
Proof.
  intros H. pose proof (YearFromDay_spec d) as S.
  destruct (Z.lt_trichotomy (YearFromDay d) y) as [L|[E|G]]; [|exact E|].
  - assert (DayFromYear (YearFromDay d + 1) <= DayFromYear y).
    { destruct (Z.eq_dec (YearFromDay d + 1) y) as [->|]; [lia|].
      apply Z.lt_le_incl, DayFromYear_lt. lia. }
    lia.
  - assert (DayFromYear (y + 1) <= DayFromYear (YearFromDay d)).
    { destruct (Z.eq_dec (y + 1) (YearFromDay d)) as [->|]; [lia|].
      apply Z.lt_le_incl, DayFromYear_lt. lia. }
    lia.
Qed.

Lemma DayWithinYear_range (t : Z) :
  0 <= DayWithinYear t < (if InLeapYear (YearFromTime t) then 366 else 365).
Proof.
  unfold DayWithinYear, YearFromTime.
  pose proof (YearFromDay_spec (Day t)) as S.
  rewrite DayFromYear_succ in S. lia.
Qed.

Lemma MonthFromTime_spec (t : Z) :
  let leap := InLeapYear (YearFromTime t) in
  monthStart leap (MonthFromTime t) <= DayWithinYear t
  < monthStart leap (MonthFromTime t + 1).
Proof.
  cbv zeta. pose proof (DayWithinYear_range t) as R.
  unfold MonthFromTime.
  destruct (InLeapYear (YearFromTime t));
  repeat match goal with
         | |- context [if ?a <? ?b then _ else _] => 
             destruct (Z.ltb_spec a b)
         end; cbn in *; lia.
Qed.

Lemma DateFromTime_range (t : Z) :
  1 <= DateFromTime t
  <= DaysInMonth (YearFromTime t) (MonthFromTime t).
Proof.
  pose proof (MonthFromTime_spec t) as S. cbv zeta in S.
  unfold DateFromTime, DaysInMonth.
  lia.
Qed.

Lemma digitValue_digit (n : Z) : digitValue (digit n) = Some (n mod 10).
Proof.
  unfold digit. pose proof (Z.mod_pos_bound n 10 ltac:(lia)) as H.
  remember (n mod 10) as r eqn:E. clear E.
  assert (C : r = 0 \/ r = 1 \/ r = 2 \/ r = 3 \/ r = 4 \/ r = 5 \/ r = 6
              \/ r = 7 \/ r = 8 \/ r = 9) by lia.
  repeat destruct C as [->|C]; try subst r; reflexivity.
Qed.

Lemma digitsValue_2 (n : Z) :
  0 <= n < 100 -> digitsValue 0 [digit (n / 10); digit n] = Some n.
Proof.
  intros H. cbn [digitsValue]. rewrite !digitValue_digit. f_equal.
  pose proof (Z.div_mod n 10 ltac:(lia)).
  pose proof (Z.mod_pos_bound n 10 ltac:(lia)).
  rewrite (Z.mod_small (n / 10)) by lia. lia.
Qed.

Lemma digitsValue_4 (n : Z) :
  0 <= n <= 9999 ->
  digitsValue 0 [digit (n / 10 / 10 / 10); digit (n / 10 / 10); digit (n / 10);
                 digit n] = Some n.
Proof.
  intros H. cbn [digitsValue]. rewrite !digitValue_digit. f_equal.
  pose proof (Z.div_mod n 10 ltac:(lia)).
  pose proof (Z.div_mod (n / 10) 10 ltac:(lia)).
  pose proof (Z.div_mod (n / 10 / 10) 10 ltac:(lia)).
  pose proof (Z.mod_pos_bound n 10 ltac:(lia)).
  pose proof (Z.mod_pos_bound (n / 10) 10 ltac:(lia)).
  pose proof (Z.mod_pos_bound (n / 10 / 10) 10 ltac:(lia)).
  rewrite (Z.mod_small (n / 10 / 10 / 10)) by lia. lia.
Qed.

Lemma parse_text (y m a : Z) :
  0 <= y <= 9999 -> 0 <= m < 100 -> 0 <= a < 100 ->
  parse (pad 4 y ++ "-" ++ pad 2 m ++ "-" ++ pad 2 a)
  = if (1 <=? m) && (m <=? 12) && (1 <=? a) && (a <=? DaysInMonth y (m - 1))
    then Some (MakeDate (MakeDay y (m - 1) a) 0)
    else None.
Proof.
  intros Hy Hm Ha. unfold parse.
  cbn [pad append list_ascii_of_string].
  change (Ascii.eqb "-" "-") with true. cbn [andb].
  rewrite digitsValue_4, !digitsValue_2 by assumption. reflexivity.
Qed.

(** The text of a day of the years 0 to 9999 reads back as that day. *)
Lemma parse_dateOfDay (d : Z) :
  DayFromYear 0 <= d < DayFromYear 10000 ->
  parse (dateOfDay d) = Some (d * msPerDay).
Proof.
  intros Hd. unfold dateOfDay. rewrite isoDate_fields.
  set (t := d * msPerDay).
  assert (Ed : Day t = d) by apply Day_midnight.
  pose proof (MonthFromTime_range t) as Hm.
  pose proof (DateFromTime_range t) as Ha.
  assert (Hy : 0 <= YearFromTime t <= 9999).
  { unfold YearFromTime. rewrite Ed. pose proof (YearFromDay_spec d) as S.
    split.
    - destruct (Z.le_gt_cases 0 (YearFromDay d)) as [L|G]; [exact L|].
      assert (DayFromYear (YearFromDay d + 1) <= DayFromYear 0).
      { destruct (Z.eq_dec (YearFromDay d + 1) 0) as [->|]; [lia|].
        apply Z.lt_le_incl, DayFromYear_lt. lia. }
      lia.
    - destruct (Z.le_gt_cases (YearFromDay d) 9999) as [L|G]; [exact L|].
      assert (DayFromYear 10000 <= DayFromYear (YearFromDay d)).
      { destruct (Z.eq_dec 10000 (YearFromDay d)) as [<-|]; [lia|].
        apply Z.lt_le_incl, DayFromYear_lt. lia. }
      lia. }
  assert (Hdim : DaysInMonth (YearFromTime t) (MonthFromTime t) <= 31).
  { unfold DaysInMonth.
    assert (C : MonthFromTime t = 0 \/ MonthFromTime t = 1 \/ MonthFromTime t = 2
                \/ MonthFromTime t = 3 \/ MonthFromTime t = 4 \/ MonthFromTime t = 5
                \/ MonthFromTime t = 6 \/ MonthFromTime t = 7 \/ MonthFromTime t = 8
                \/ MonthFromTime t = 9 \/ MonthFromTime t = 10
                \/ MonthFromTime t = 11) by lia.
    destruct (InLeapYear (YearFromTime t));
      repeat destruct C as [->|C]; try rewrite C; cbn; lia. }
  unfold isoYear.
  destruct (Z.leb_spec 0 (YearFromTime t)); [|lia].
  destruct (Z.leb_spec (YearFromTime t) 9999); [|lia].
  cbn [andb].
  rewrite parse_text by lia.
  replace (MonthFromTime t + 1 - 1) with (MonthFromTime t) by lia.
  destruct (Z.leb_spec 1 (MonthFromTime t + 1)); [|lia].
  destruct (Z.leb_spec (MonthFromTime t + 1) 12); [|lia].
  destruct (Z.leb_spec 1 (DateFromTime t)); [|lia].
  destruct (Z.leb_spec (DateFromTime t)
              (DaysInMonth (YearFromTime t) (MonthFromTime t))); [|lia].
  cbn [andb]. f_equal. unfold MakeDate.
  pose proof (MakeDay_fields t 0) as E. rewrite !Z.add_0_r in E.
  rewrite E, Ed. lia.
Qed.

Lemma dateOfDay_inj (d d' : Z) :
  DayFromYear 0 <= d < DayFromYear 10000 ->
  DayFromYear 0 <= d' < DayFromYear 10000 ->
  dateOfDay d = dateOfDay d' -> d = d'.
Proof.
  intros H H' E.
  assert (P : Some (d * msPerDay) = Some (d' * msPerDay))
    by (rewrite <- !parse_dateOfDay by assumption; now rewrite E).
  injection P as P. pose proof msPerDay_pos. nia.
Qed.

Lemma digit_digitValue (c : ascii) (v : Z) :
  digitValue c = Some v -> 0 <= v <= 9 /\ digit v = c.
Proof.
  unfold digitValue, digit.
  destruct ((48 <=? N_of_ascii c)%N && (N_of_ascii c <=? 57)%N) eqn:B;
    [|discriminate].
  apply andb_true_iff in B as [L U]. apply N.leb_le in L, U.
  intros [= <-]. split; [lia|].
  rewrite Z.mod_small by lia.
  replace (48 + Z.to_N (Z.of_N (N_of_ascii c) - 48))%N with (N_of_ascii c) by lia.
  apply ascii_N_embedding.
Qed.

Lemma digit_congr (a b : Z) : a mod 10 = b mod 10 -> digit a = digit b.
Proof. unfold digit. now intros ->. Qed.

Lemma digit_last (q v : Z) : digit (10 * q + v) = digit v.
Proof.
  apply digit_congr. replace (10 * q + v) with (v + q * 10) by lia.
  now rewrite Z.mod_add by lia.
Qed.

Lemma div_10_last (q v : Z) : 0 <= v <= 9 -> (10 * q + v) / 10 = q.
Proof.
  intros H. pose proof (Z.div_mod (10 * q + v) 10 ltac:(lia)).
  pose proof (Z.mod_pos_bound (10 * q + v) 10 ltac:(lia)). lia.
Qed.

Lemma digitsValue_2_inv (c1 c2 : ascii) (n : Z) :
  digitsValue 0 [c1; c2] = Some n ->
  0 <= n < 100 /\ pad 2 n = String c1 (String c2 EmptyString).
Proof.
  cbn [digitsValue].
  destruct (digitValue c1) as [v1|] eqn:E1; [|discriminate].
  destruct (digitValue c2) as [v2|] eqn:E2; [|discriminate].
  apply digit_digitValue in E1 as [R1 <-], E2 as [R2 <-].
  intros H.
  assert (E : n = 10 * (10 * 0 + v1) + v2) by congruence.
  subst n. clear H. split; [lia|].
  cbn [pad append].
  rewrite div_10_last, !digit_last by lia. reflexivity.
Qed.

Lemma digitsValue_4_inv (c1 c2 c3 c4 : ascii) (n : Z) :
  digitsValue 0 [c1; c2; c3; c4] = Some n ->
  0 <= n <= 9999
  /\ pad 4 n = String c1 (String c2 (String c3 (String c4 EmptyString))).
Proof.
  cbn [digitsValue].
  destruct (digitValue c1) as [v1|] eqn:E1; [|discriminate].
  destruct (digitValue c2) as [v2|] eqn:E2; [|discriminate].
  destruct (digitValue c3) as [v3|] eqn:E3; [|discriminate].
  destruct (digitValue c4) as [v4|] eqn:E4; [|discriminate].
  apply digit_digitValue in E1 as [R1 <-], E2 as [R2 <-], E3 as [R3 <-],
    E4 as [R4 <-].
  intros H.
  assert (E : n = 10 * (10 * (10 * (10 * 0 + v1) + v2) + v3) + v4)
    by congruence.
  subst n. clear H. split; [lia|].
  cbn [pad append].
  rewrite !div_10_last, !digit_last by lia. reflexivity.
Qed.

Lemma string_of_list_ascii_10 (s : string) (c1 c2 c3 c4 c5 c6 c7 c8 c9 c10 : ascii) :
  list_ascii_of_string s = [c1; c2; c3; c4; c5; c6; c7; c8; c9; c10] ->
  s = String c1 (String c2 (String c3 (String c4 (String c5 (String c6
        (String c7 (String c8 (String c9 (String c10 EmptyString))))))))).
Proof.
  intros H. rewrite <- (string_of_list_ascii_of_string s), H. reflexivity.
Qed.

(** What [parse] accepts: the four digits of a year, the two of a month and
    the two of a day of that month. *)
Lemma parse_inv (s : string) (t : Z) :
  parse s = Some t ->
  exists y m a,
    0 <= y <= 9999 /\ 1 <= m <= 12 /\ 1 <= a <= DaysInMonth y (m - 1)
    /\ s = (pad 4 y ++ "-" ++ pad 2 m ++ "-" ++ pad 2 a)%string
    /\ t = MakeDay y (m - 1) a * msPerDay.
Proof.
  unfold parse.
  destruct (list_ascii_of_string s) as [|y1 [|y2 [|y3 [|y4 [|d1 [|m1 [|m2 [|d2
    [|a1 [|a2 [|]]]]]]]]]]] eqn:L; try discriminate.
  apply string_of_list_ascii_10 in L.
  destruct (Ascii.eqb_spec d1 "-") as [->|]; [|discriminate].
  destruct (Ascii.eqb_spec d2 "-") as [->|]; [|discriminate].
  cbn [andb].
  destruct (digitsValue 0 [y1; y2; y3; y4]) as [y|] eqn:Ey; [|discriminate].
  destruct (digitsValue 0 [m1; m2]) as [m|] eqn:Em; [|discriminate].
  destruct (digitsValue 0 [a1; a2]) as [a|] eqn:Ea; [|discriminate].
  apply digitsValue_4_inv in Ey as [Ry Py].
  apply digitsValue_2_inv in Em as [Rm Pm], Ea as [Ra Pa].
  destruct (Z.leb_spec 1 m); [|discriminate].
  destruct (Z.leb_spec m 12); [|discriminate].
  destruct (Z.leb_spec 1 a); [|discriminate].
  destruct (Z.leb_spec a (DaysInMonth y (m - 1))); [|discriminate].
  cbn [andb]. intros [= <-].
  exists y, m, a. repeat split; try lia.
  - rewrite Py, Pm, Pa, L. reflexivity.
  - unfold MakeDate. lia.
Qed.

(** Replaces every [monthStart] at a known month by its value. *)
Ltac eval_monthStart :=
  repeat match goal with
         | H : context [monthStart ?b ?m] |- _ =>
             let v := eval vm_compute in (monthStart b m) in
             change (monthStart b m) with v in H
         | |- context [monthStart ?b ?m] =>
             let v := eval vm_compute in (monthStart b m) in
             change (monthStart b m) with v
         end.

Lemma fields_of_MakeDay (y m a : Z) :
  0 <= m <= 11 -> 1 <= a <= DaysInMonth y m ->
  YearFromTime (MakeDay y m a * msPerDay) = y
  /\ MonthFromTime (MakeDay y m a * msPerDay) = m
  /\ DateFromTime (MakeDay y m a * msPerDay) = a.
Proof.
  intros Hm Ha. set (t := MakeDay y m a * msPerDay).
  assert (Ed : Day t = DayFromYear y + monthStart (InLeapYear y) m + a - 1).
  { subst t. rewrite Day_midnight. unfold MakeDay.
    now rewrite Z.div_small, Z.mod_small, Z.add_0_r by lia. }
  clearbody t. unfold DaysInMonth in Ha.
  assert (C : m = 0 \/ m = 1 \/ m = 2 \/ m = 3 \/ m = 4 \/ m = 5 \/ m = 6
              \/ m = 7 \/ m = 8 \/ m = 9 \/ m = 10 \/ m = 11) by lia.
  assert (Ey : YearFromTime t = y).
  { unfold YearFromTime. apply YearFromDay_unique.
    rewrite Ed, DayFromYear_succ. clear Ed.
    destruct (InLeapYear y);
      repeat destruct C as [->|C]; try subst m; eval_monthStart; lia. }
  assert (Ew : DayWithinYear t = monthStart (InLeapYear y) m + a - 1)
    by (unfold DayWithinYear; rewrite Ey, Ed; lia).
  assert (Em : MonthFromTime t = m).
  { pose proof (MonthFromTime_spec t) as S. cbv zeta in S.
    pose proof (MonthFromTime_range t) as R.
    rewrite Ey, Ew in S.
    remember (MonthFromTime t) as k eqn:Ek. clear Ek Ed Ey Ew.
    assert (K : k = 0 \/ k = 1 \/ k = 2 \/ k = 3 \/ k = 4 \/ k = 5 \/ k = 6
                \/ k = 7 \/ k = 8 \/ k = 9 \/ k = 10 \/ k = 11) by lia.
    clear R Hm.
    destruct (InLeapYear y);
      repeat destruct C as [->|C]; try subst m;
      repeat destruct K as [->|K]; try subst k; eval_monthStart; lia. }
  repeat split; [exact Ey|exact Em|].
  unfold DateFromTime. rewrite Ey, Ew, Em. lia.
Qed.

(** A date that [parse] accepts is the text of its day. *)
Lemma isoDate_parse (s : string) (t : Z) : parse s = Some t -> isoDate t = s.
Proof.
  intros H. apply parse_inv in H as (y & m & a & Hy & Hm & Ha & -> & ->).
  destruct (fields_of_MakeDay y (m - 1) a ltac:(lia) Ha) as (Ey & Em & Ea).
  rewrite isoDate_fields, Ey, Em, Ea.
  replace (m - 1 + 1) with m by lia.
  unfold isoYear.
  destruct (Z.leb_spec 0 y); [|lia]. destruct (Z.leb_spec y 9999); [|lia].
  reflexivity.
Qed.

(** A date reads as the midnight that starts a day. *)
Lemma parse_midnight (s : string) (t : Z) :
  parse s = Some t -> t = Day t * msPerDay.
Proof.
  unfold parse.
  repeat match goal with
         | |- context [match ?x with _ => _ end] => destruct x; try discriminate
         end.
  intros [= <-]. unfold MakeDate. now rewrite Z.add_0_r, Day_midnight.
Qed.

(** Two sessions with a date that reads as the same day have the same
    date text. *)
Lemma dayOf_inj (log log' : Session) (d : Z) :
  dayOf log = Some d -> dayOf log' = Some d -> date log = date log'.
Proof.
  unfold dayOf. intros H H'.
  destruct (parse (date log)) as [t|] eqn:E; [|discriminate].
  destruct (parse (date log')) as [t'|] eqn:E'; [|discriminate].
  cbn in H, H'.
  pose proof (parse_midnight _ _ E) as M. pose proof (parse_midnight _ _ E') as M'.
  assert (t = t') by congruence. subst t'.
  apply isoDate_parse in E, E'. congruence.
Qed.

(** The dates of the chart are pairwise distinct. *)
Lemma chartDates_NoDup (env : Env) :
  DayFromYear 0 + 6 <= Day (now env) < DayFromYear 10000 ->
  NoDup (chartDates env).
Proof.
  intros H. rewrite chartDates_days.
  assert (I : forall k k', 0 <= k <= 6 -> 0 <= k' <= 6 ->
              dateOfDay (Day (now env) - 6 + k) = dateOfDay (Day (now env) - 6 + k')
              -> k = k').
  { intros k k' Hk Hk' E. apply dateOfDay_inj in E; lia. }
  cbn [map].
  repeat (constructor;
          [cbn [In]; intros C;
           repeat destruct C as [C|C]; try contradiction;
           apply I in C; lia|]).
  constructor.
Qed.

(** *** Totals *)

(** The total of the code is the spec's [totalMinutes]: the callback of
    [calculateTotalMinutes] is [toMinutes]. *)
Lemma calculateTotalMinutes_totalMinutes (logs : list Session) :
  calculateTotalMinutes logs = totalMinutes logs.
Proof. reflexivity. Qed.

Lemma datedExactly_none (d : string) (logs : list Session) :
  (forall log, In log logs -> date log <> d) -> datedExactly d logs = [].
Proof.
  unfold datedExactly.
  induction logs as [|log logs IH]; intros H; cbn [filter]; [reflexivity|].
  destruct (String.eqb_spec (date log) d) as [E|_].
  - exfalso. now apply (H log (or_introl eq_refl)).
  - apply IH. intros l Hl. apply H. now right.
Qed.

Lemma datedExactly_within (dates : list string) (d : string)
      (logs : list Session) :
  In d dates ->
  datedExactly d (filter (datedWithin dates) logs) = datedExactly d logs.
Proof.
  unfold datedExactly.
  intros Hd. induction logs as [|log logs IH]; cbn [filter]; [reflexivity|].
  destruct (datedWithin dates log) eqn:W; cbn [filter].
  - now rewrite IH.
  - destruct (String.eqb_spec (date log) d) as [E|_]; [|exact IH].
    exfalso. unfold datedWithin in W.
    assert (T : existsb (String.eqb (date log)) dates = true).
    { apply existsb_exists. exists d. split; [exact Hd|now apply String.eqb_eq]. }
    congruence.
Qed.

Lemma dailySeries_some (env : Env) (logs : list Session) :
  logs <> [] ->
  dailySeries env logs
  = Some (chartDates env,
          map (fun d => totalMinutes (datedExactly d logs)) (chartDates env)).
Proof.
  intros Hne. unfold dailySeries.
  destruct logs as [|log logs]; [contradiction|]. reflexivity.
Qed.

(** In a zone whose offset never changes, the dates of the chart are those
    under that offset. *)
Lemma chartDatesIn_constant (zone : Zone) (tz t : Z) :
  ConstantOffset zone tz ->
  chartDatesIn zone t = chartDates {| tza := tz; now := t |}.
Proof.
  intros [Hu Hl]. unfold chartDatesIn, chartDates. apply map_ext. intros i.
  unfold setDateIn, getDateIn, setDate, getDate, LocalTimeIn, UTCIn,
    LocalTime, UTC.
  cbn [tza now]. now rewrite !Hu, !Hl.
Qed.

Lemma dailySeriesIn_constant (zone : Zone) (tz t : Z) (logs : list Session) :
  ConstantOffset zone tz ->
  dailySeriesIn zone t logs = dailySeries {| tza := tz; now := t |} logs.
Proof.
  intros H. unfold dailySeriesIn, dailySeries.
  now rewrite (chartDatesIn_constant zone tz t H).
Qed.



(** Where the clocks go forward within the seven days, the chart shows one
    day twice and misses one: in New York on the evening of Monday 11
    March 2024 it has 10 March twice and no 5 March, and a session of 10
    March is counted under both. *)
Lemma chartDates_repeat_a_day :
  let tenth :=
    {| id := "1710086400000"; subject := "Math"; duration := Num 30;
       timeUnit := "minutes"; date := "2024-03-10"; notes := EmptyString;
       timestamp := "2024-03-10T16:00:00.000Z" |}%string in
  isoDate mondayEvening = "2024-03-11"%string
  /\ isoDate (LocalTimeIn newYork mondayEvening) = "2024-03-11"%string
  /\ dailySeriesIn newYork mondayEvening [tenth]
     = Some (["2024-03-06"; "2024-03-07"; "2024-03-08"; "2024-03-09";
              "2024-03-10"; "2024-03-10"; "2024-03-11"]%string,
             [Num 0; Num 0; Num 0; Num 0; Num 30; Num 30; Num 0]).
Proof. cbv zeta. repeat split; vm_compute; reflexivity. Qed.


(** *** The week *)

(** The start of the week is a Sunday, among the seven days that end
    today. *)
Lemma weekStartDay_sunday (env : Env) :
  WeekDay (weekStartDay env * msPerDay) = 0
  /\ Day (LocalTime (tza env) (now env)) - 6 <= weekStartDay env
     <= Day (LocalTime (tza env) (now env)).
Proof.
  unfold WeekDay, weekStartDay. rewrite Day_midnight.
  set (today := Day (LocalTime (tza env) (now env))).
  pose proof (Z.mod_pos_bound (today + 4) 7 ltac:(lia)) as B.
  split; [|lia].
  replace (today - (today + 4) mod 7 + 4) with (today + 4 - (today + 4) mod 7)
    by lia.
  pose proof (Z.div_mod (today + 4) 7 ltac:(lia)) as D.
  replace (today + 4 - (today + 4) mod 7) with (((today + 4) / 7) * 7) by lia.
  apply Z.mod_mul. lia.
Qed.

Lemma startOfWeek_spec (env : Env) :
  startOfWeek env = weekStartDay env * msPerDay - tza env.
Proof.
  unfold startOfWeek, weekStartDay, getDay, WeekDay.
  rewrite setDate_getDate. unfold setHours0, UTC, MakeDate, LocalTime.
  replace (now env - (Day (now env + tza env) + 4) mod 7 * msPerDay + tza env)
    with (now env + tza env - (Day (now env + tza env) + 4) mod 7 * msPerDay)
    by lia.
  rewrite Day_sub_days. lia.
Qed.

Lemma onOrAfter_ahead (env : Env) (log : Session) :
  0 <= tza env < msPerDay ->
  onOrAfter (startOfWeek env) (parse (date log)) = inWeek env log.
Proof.
  intros Htz. unfold inWeek, dayOf, onOrAfter.
  destruct (parse (date log)) as [t|] eqn:E; cbn [option_map]; [|reflexivity].
  apply parse_midnight in E. rewrite startOfWeek_spec.
  unfold msPerDay in *.
  destruct (Z.leb_spec (weekStartDay env * 86400000 - tza env) t),
    (Z.leb_spec (weekStartDay env) (Day t)); try reflexivity; lia.
Qed.

Lemma onOrAfter_behind (env : Env) (log : Session) :
  - msPerDay <= tza env < 0 ->
  onOrAfter (startOfWeek env) (parse (date log))
  = match dayOf log with
    | Some d => weekStartDay env + 1 <=? d
    | None => false
    end.
Proof.
  intros Htz. unfold dayOf, onOrAfter.
  destruct (parse (date log)) as [t|] eqn:E; cbn [option_map]; [|reflexivity].
  apply parse_midnight in E. rewrite startOfWeek_spec.
  unfold msPerDay in *.
  destruct (Z.leb_spec (weekStartDay env * 86400000 - tza env) t),
    (Z.leb_spec (weekStartDay env + 1) (Day t)); try reflexivity; lia.
Qed.

(** In a browser at or ahead of UTC the week total is that of the sessions
    dated from the Sunday of the week on. *)
Lemma weekTotal_ahead_of_UTC (env : Env) (st : State) :
  0 <= tza env < msPerDay ->
  weekTotal env st = weekMinutes env (studyLogs st).
Proof.
  intros Htz. unfold weekTotal, weekMinutes, getWeekLogs. f_equal.
  apply filter_ext. intros log. now apply onOrAfter_ahead.
Qed.

(** In a browser behind UTC a session enters the week total only when it
    is dated after the Sunday of the week. *)
Lemma getWeekLogs_behind_UTC (env : Env) (st : State) (log : Session) :
  - msPerDay <= tza env < 0 ->
  In log (getWeekLogs env st) <->
  In log (studyLogs st)
  /\ exists d, dayOf log = Some d /\ weekStartDay env + 1 <= d.
Proof.
  intros Htz. unfold getWeekLogs.
  rewrite filter_In, onOrAfter_behind by exact Htz.
  destruct (dayOf log) as [d|].
  - rewrite Z.leb_le. split.
    + intros [Hin Hd]. split; [exact Hin|]. now exists d.
    + intros [Hin (d' & [= <-] & Hd)]. now split.
  - split; [intros [_ H]; discriminate|].
    intros [_ (d' & H & _)]. discriminate.
Qed.

(** C3, on the code.  In a browser five hours behind UTC, on Wednesday
    10 January 2024 at noon, the collection holds one session of 30 minutes
    dated Sunday 7 January, the start of the week: the week total of the
    claim is 30, the one of [updateSummary] is 0.  On that Sunday at noon
    the session is today's, and the week total is 0 again.  Half a day
    ahead of UTC the two totals agree. *)
Theorem weekTotal_misses_week_start :
  getDay (tza wednesdayNoon) (now wednesdayNoon) = 3
  /\ dayOf sundayMath = Some (weekStartDay wednesdayNoon)
  /\ weekMinutes wednesdayNoon [sundayMath] = Num 30
  /\ weekTotal wednesdayNoon (withLogs [sundayMath]) = Num 0
  /\ weekTotalText (page (snd (updateSummary wednesdayNoon (withLogs [sundayMath]))))
     = "0 min"%string
  /\ getDay (tza sundayNoon) (now sundayNoon) = 0
  /\ dayOf sundayMath = Some (weekStartDay sundayNoon)
  /\ todayTotal sundayNoon (withLogs [sundayMath]) = Num 30
  /\ weekMinutes sundayNoon [sundayMath] = Num 30
  /\ weekTotal sundayNoon (withLogs [sundayMath]) = Num 0
  /\ weekTotal wednesdayNoonAhead (withLogs [sundayMath]) = Num 30.
Proof.
  repeat split; vm_compute; reflexivity.
Qed.

(** *** Ids *)

Lemma to_int_not_nil (z : Z) :
  Z.to_int z <> Decimal.Pos Decimal.Nil /\ Z.to_int z <> Decimal.Neg Decimal.Nil.
Proof.
  destruct z; cbn; split; try discriminate; intros H; injection H as H;
    now apply DecimalPos.Unsigned.to_uint_nonnil in H.
Qed.

(** Two integers with the same numeral are equal. *)
Lemma decimal_inj (z z' : Z) : decimal z = decimal z' -> z = z'.
Proof.
  unfold decimal. intros H. apply DecimalZ.to_int_inj.
  assert (E : Some (Z.to_int z) = Some (Z.to_int z')).
  { rewrite <- (NilZero.isi (Z.to_int z)) by apply to_int_not_nil.
    rewrite <- (NilZero.isi (Z.to_int z')) by apply to_int_not_nil.
    now rewrite H. }
  now injection E.
Qed.

Lemma handleFormSubmit_studyLogs (formData : FormData) (env : Env) (st : State) :
  studyLogs (snd (handleFormSubmit formData env st)) = studyLogs st
  \/ exists log, id log = decimal (now env)
                 /\ studyLogs (snd (handleFormSubmit formData env st))
                    = log :: studyLogs st.
Proof.
  unfold handleFormSubmit.
  destruct (_ || _).
  - left. reflexivity.
  - right. eexists. split; [|run_methods; destruct (setItem _ _); reflexivity].
    reflexivity.
Qed.

Lemma handleModalConfirm_studyLogs (env : Env) (st : State) :
  studyLogs (snd (handleModalConfirm env st)) = studyLogs st
  \/ studyLogs (snd (handleModalConfirm env st)) = [].
Proof.
  unfold handleModalConfirm.
  destruct (match currentAction st with Some _ => _ | None => _ end);
    [right|left; reflexivity].
  run_methods. destruct (setItem _ _); reflexivity.
Qed.

Lemma IdsBelow_weaken (b b' : Z) (logs : list Session) :
  b <= b' -> IdsBelow b logs -> IdsBelow b' logs.
Proof.
  intros Hb [Hnd Hids]. split; [exact Hnd|].
  intros log Hin. destruct (Hids log Hin) as (t & E & Ht).
  exists t. split; [exact E|lia].
Qed.

Lemma NoDup_map_filter {A B : Type} (g : A -> B) (f : A -> bool) (l : list A) :
  NoDup (map g l) -> NoDup (map g (filter f l)).
Proof.
  induction l as [|x l IH]; cbn [map filter]; intros H; [exact H|].
  inversion H as [|? ? Hx Hl]; subst.
  destruct (f x); cbn [map]; [|now apply IH].
  constructor; [|now apply IH].
  intros Hin. apply Hx. apply in_map_iff in Hin as (y & E & Hy).
  apply in_map_iff. exists y. split; [exact E|].
  now apply filter_In in Hy.
Qed.

Lemma IdsBelow_filter (b : Z) (f : Session -> bool) (logs : list Session) :
  IdsBelow b logs -> IdsBelow b (filter f logs).
Proof.
  intros [Hnd Hids]. split; [now apply NoDup_map_filter|].
  intros log Hin. apply Hids. now apply filter_In in Hin.
Qed.

Lemma IdsBelow_cons (b t : Z) (log : Session) (logs : list Session) :
  b <= t -> id log = decimal t -> IdsBelow b logs ->
  IdsBelow (t + 1) (log :: logs).
Proof.
  intros Hb E [Hnd Hids]. split.
  - cbn [map]. constructor; [|exact Hnd].
    intros Hin. apply in_map_iff in Hin as (l & El & Hl).
    destruct (Hids l Hl) as (t' & E' & Ht').
    assert (t' = t) by (apply decimal_inj; congruence). lia.
  - intros l [<-|Hl].
    + exists t. split; [exact E|lia].
    + destruct (Hids l Hl) as (t' & E' & Ht'). exists t'. split; [exact E'|lia].
Qed.

Lemma dispatch_IdsBelow (ev : Event) (env : Env) (b : Z) (st : State) :
  b <= now env -> IdsBelow b (studyLogs st) ->
  IdsBelow (now env + 1) (studyLogs (snd (dispatch ev env st))).
Proof.
  intros Hb Hinv.
  assert (Hsame : IdsBelow (now env + 1) (studyLogs st))
    by (apply (IdsBelow_weaken b); [lia|exact Hinv]).
  destruct ev; cbn [dispatch].
  - destruct (handleFormSubmit_studyLogs formData env st) as [->|(log & E & ->)];
      [exact Hsame|now apply (IdsBelow_cons b)].
  - rewrite deleteLog_studyLogs. now apply IdsBelow_filter.
  - exact Hsame.
  - exact Hsame.
  - exact Hsame.
  - exact Hsame.
  - destruct (handleModalConfirm_studyLogs env st) as [->| ->]; [exact Hsame|].
    split; [constructor|intros log []].
Qed.

(** Under clock readings that increase strictly from one event to the
    next, the ids stay pairwise distinct. *)
Lemma run_distinct_ids (tz : Z) (evs : list (Z * Event)) (b : Z) (st : State) :
  Increasing b evs -> IdsBelow b (studyLogs st) ->
  NoDup (map id (studyLogs (run tz evs st))).
Proof.
  revert b st. induction evs as [|[t ev] evs IH]; intros b st Hinc Hinv;
    cbn [run].
  - apply Hinv.
  - destruct Hinc as [Hb Hinc]. apply (IH (t + 1)); [exact Hinc|].
    now apply (dispatch_IdsBelow ev {| tza := tz; now := t |} b).
Qed.

Corollary run_distinct_ids_fresh (tz : Z) (evs : list (Z * Event)) (b : Z) :
  Increasing b evs -> NoDup (map id (studyLogs (run tz evs fresh))).
Proof.
  intros H. apply (run_distinct_ids tz evs b); [exact H|].
  split; [constructor|intros log []].
Qed.

(** C1, on the code.  Two valid forms submitted at the same reading of the
    clock get the same id. *)
Theorem same_reading_same_id :
  let st :=
    run (tza wednesdayNoon)
        [(now wednesdayNoon, Submit mathForm); (now wednesdayNoon, Submit mathForm)]
        fresh in
  map id (studyLogs st) = ["1704906000000"; "1704906000000"]%string
  /\ ~ NoDup (map id (studyLogs st)).
Proof.
  cbv zeta.
  assert (E : map id (studyLogs
                 (run (tza wednesdayNoon)
                      [(now wednesdayNoon, Submit mathForm);
                       (now wednesdayNoon, Submit mathForm)] fresh))
              = ["1704906000000"; "1704906000000"]%string)
    by (vm_compute; reflexivity).
  split; [exact E|]. rewrite E. intros H.
  inversion H as [|? ? Hin _]; subst. apply Hin. now left.
Qed.

(** *** The filtered view *)

Lemma applyFilters_ViewCurrent (env : Env) (st : State) :
  ViewCurrent (snd (applyFilters env st)).
Proof. reflexivity. Qed.

Lemma clearFilters_ViewCurrent (env : Env) (st : State) :
  ViewCurrent (snd (clearFilters env st)).
Proof.
  unfold ViewCurrent. run_methods. cbn. symmetry. now apply filter_all.
Qed.

(** The three mutations leave the filtered view as it was: they never
    assign [filteredLogs]. *)
Lemma mutations_keep_filteredLogs (env : Env) (st : State) :
  (forall formData,
     filteredLogs (snd (handleFormSubmit formData env st)) = filteredLogs st)
  /\ (forall i, filteredLogs (snd (deleteLog i env st)) = filteredLogs st)
  /\ filteredLogs (snd (handleModalConfirm env st)) = filteredLogs st.
Proof.
  split; [|split].
  - intros formData. unfold handleFormSubmit.
    destruct (_ || _); [reflexivity|].
    run_methods. destruct (setItem _ _); reflexivity.
  - intros i. run_methods. destruct (setItem _ _); reflexivity.
  - unfold handleModalConfirm.
    destruct (match currentAction st with Some _ => _ | None => _ end);
      [|reflexivity].
    run_methods. destruct (setItem _ _); reflexivity.
Qed.

(** C2, on the code.  After a session is added the filtered view and the
    cards on the page are what they were, here empty, while the filter of
    the page, which is empty, selects the new session; after the only
    session is deleted, and after all are cleared, the view still holds
    it. *)
Theorem view_stale_after_mutation :
  let added := snd (handleFormSubmit mathForm wednesdayNoon fresh) in
  let deleted := snd (deleteLog (id sundayMath) wednesdayNoon (withLogs [sundayMath])) in
  let cleared :=
    run (tza wednesdayNoon)
        [(now wednesdayNoon, ClickClearAll); (now wednesdayNoon, ClickConfirmYes)]
        (withLogs [sundayMath]) in
  ViewCurrent fresh
  /\ List.length (studyLogs added) = 1%nat
  /\ filteredLogs added = []
  /\ logsContainer (page added) = []
  /\ ~ ViewCurrent added
  /\ ViewCurrent (withLogs [sundayMath])
  /\ studyLogs deleted = []
  /\ filteredLogs deleted = [sundayMath]
  /\ logsContainer (page deleted) = [sundayMath]
  /\ ~ ViewCurrent deleted
  /\ studyLogs cleared = []
  /\ filteredLogs cleared = [sundayMath]
  /\ ~ ViewCurrent cleared.
Proof.
  cbv zeta. unfold ViewCurrent.
  repeat split; try (vm_compute; reflexivity); vm_compute; discriminate.
Qed.

Lemma constructor_fresh :
  constructor blankPage emptyStorage wednesdayNoon = Some fresh.
Proof. vm_compute. reflexivity. Qed.

(** *** Worked examples *)

(** A duration with no digit parses to NaN, which is not at most 0: the
    form is accepted and the session stored with that duration. *)
Example unparsable_duration_is_added :
  let formData :=
    {| get_subject := "Math"; get_duration := "abc"; get_timeUnit := "minutes";
       get_date := "2024-01-10"; get_notes := EmptyString |}%string in
  map duration (studyLogs (snd (handleFormSubmit formData wednesdayNoon fresh)))
  = [NaN].
Proof. vm_compute. reflexivity. Qed.

(** What is saved after a submission loads back as the collection. *)
Example saved_collection_loads_back :
  let st := snd (handleFormSubmit mathForm wednesdayNoon fresh) in
  sessionsOfValue (loadFromLocalStorage (localStorage st)) = Some (studyLogs st).
Proof. vm_compute. reflexivity. Qed.

Example trim_and_lower :
  trim "  Linear Algebra  "%string = "Linear Algebra"%string
  /\ toLowerCase "Linear Algebra"%string = "linear algebra"%string
  /\ includes "linear algebra" "alg" = true.
Proof. repeat split. Qed.

Example parseInt_examples :
  parseInt "42" = Num 42 /\ parseInt "  -7px" = Num (-7)
  /\ parseInt "0x1F" = Num 31 /\ parseInt EmptyString = NaN.
Proof. repeat split. Qed.

(* ------------------------------------------------------------------ *)
(** ** Further properties *)

(** *** More on the week and the day *)

(** X1.  In every time zone the bound of [getWeekLogs] is local midnight of
    a Sunday, the last one not after the local day of the clock reading:
    moving the day of the month back by the weekday also crosses the start
    of a month or of a year. *)
Theorem startOfWeek_local_midnight_sunday (env : Env) :
  let start := LocalTime (tza env) (startOfWeek env) in
  let today := Day (LocalTime (tza env) (now env)) in
  TimeWithinDay start = 0
  /\ WeekDay start = 0
  /\ today - 6 <= Day start <= today.
Proof.
  cbv zeta.
  assert (E : LocalTime (tza env) (startOfWeek env) = weekStartDay env * msPerDay)
    by (rewrite startOfWeek_spec; unfold LocalTime; lia).
  rewrite E.
  destruct (weekStartDay_sunday env) as [Hs Hr].
  split; [|split].
  - unfold TimeWithinDay. apply Z.mod_mul. pose proof msPerDay_pos. lia.
  - exact Hs.
  - rewrite Day_midnight. exact Hr.
Qed.

(** The date text of a day in the years 0 to 9999 is the date of exactly
    the sessions dated that day. *)
Lemma strictEq_dateOfDay (d : Z) (log : Session) :
  DayFromYear 0 <= d < DayFromYear 10000 ->
  strictEq (date log) (dateOfDay d) = datedOn d log.
Proof.
  intros Hd. unfold datedOn, dayOf, strictEq.
  destruct (String.eqb_spec (date log) (dateOfDay d)) as [E|N].
  - rewrite E, parse_dateOfDay by exact Hd. cbn [option_map].
    rewrite Day_midnight. symmetry. apply Z.eqb_refl.
  - destruct (parse (date log)) as [t|] eqn:P; cbn [option_map]; [|reflexivity].
    symmetry. apply Z.eqb_neq. intros <-. apply N.
    apply isoDate_parse in P. rewrite <- P. apply isoDate_Day.
Qed.

(** X2.  While the clock reads a year from 0 to 9999 and every session is
    dated as the date field of the form dates it (no date, or YYYY-MM-DD),
    the total of today in [updateSummary] is the total of the sessions
    dated on the UTC day of the clock reading; sessions with no date are
    not among them. *)
Theorem todayTotal_by_day (env : Env) (st : State) :
  InFourDigitYears (now env) ->
  Forall (fun log => DateFieldValue (date log)) (studyLogs st) ->
  todayTotal env st
  = calculateTotalMinutes (filter (datedOn (Day (now env))) (studyLogs st)).
Proof.
  intros Hy _. unfold todayTotal. f_equal. apply filter_ext. intros log.
  rewrite isoDate_Day. now apply strictEq_dateOfDay.
Qed.

Lemma todayTotal_by_day_witness :
  todayTotal sundayNoon (withLogs [sundayMath]) = Num 30.
Proof.
  rewrite (todayTotal_by_day sundayNoon (withLogs [sundayMath])).
  - vm_compute. reflexivity.
  - vm_compute. split; [discriminate|reflexivity].
  - constructor; [|constructor]. right. exists 19729.
    split; [vm_compute; split; [discriminate|reflexivity]|reflexivity].
Defined.

(** X3.  In a time zone whose offset from UTC does not change, for a
    collection that is not empty whose sessions are dated as the date field
    dates them, and a clock that reads a day from the seventh of the year 0
    to the end of the year 9999, the seven dates of the daily chart are
    pairwise distinct and the total under each is that of the sessions
    dated that day, the days being the seven that end with the UTC day of
    the clock reading. *)
Theorem dailySeries_by_day (zone : Zone) (tz t : Z) (logs : list Session) :
  logs <> [] ->
  ConstantOffset zone tz ->
  DayFromYear 0 + 6 <= Day t < DayFromYear 10000 ->
  Forall (fun log => DateFieldValue (date log)) logs ->
  exists dates,
    NoDup dates
    /\ dailySeriesIn zone t logs
       = Some (dates,
               map (fun k =>
                      calculateTotalMinutes
                        (filter (datedOn (Day t - 6 + k)) logs))
                   [0; 1; 2; 3; 4; 5; 6]).
Proof.
  intros Hne Hz Hy _. set (env := {| tza := tz; now := t |}).
  exists (chartDates env).
  split; [now apply (chartDates_NoDup env)|].
  rewrite (dailySeriesIn_constant zone tz t logs Hz).
  fold env. unfold dailySeries. destruct logs as [|log logs]; [contradiction|].
  cbn [List.length Nat.eqb]. f_equal. f_equal.
  rewrite (chartDates_days env), map_map. apply map_ext_in.
  intros k Hk. f_equal. apply filter_ext. intros l.
  apply strictEq_dateOfDay.
  cbn [In] in Hk. cbn [now env]. lia.
Qed.

Lemma dailySeries_by_day_witness :
  exists dates,
    NoDup dates
    /\ dailySeriesIn (fixedZone (-18000000)) 1704906000000 [sundayMath]
       = Some (dates, [Num 0; Num 0; Num 0; Num 30; Num 0; Num 0; Num 0]).
Proof.
  destruct (dailySeries_by_day (fixedZone (-18000000)) (-18000000)
              1704906000000 [sundayMath]) as (dates & Hd & E).
  - discriminate.
  - split; reflexivity.
  - vm_compute. split; [discriminate|reflexivity].
  - constructor; [|constructor]. right. exists 19729.
    split; [vm_compute; split; [discriminate|reflexivity]|reflexivity].
  - exists dates. split; [exact Hd|exact E].
Defined.

Lemma Day_local (tz d : Z) :
  (0 <= tz < msPerDay -> Day (LocalTime tz (d * msPerDay)) = d)
  /\ (- msPerDay <= tz < 0 -> Day (LocalTime tz (d * msPerDay)) = d - 1).
Proof.
  unfold Day, LocalTime. pose proof msPerDay_pos as P. split; intros H.
  - rewrite Z.add_comm, Z.div_add by lia. rewrite Z.div_small by lia. lia.
  - replace (d * msPerDay + tz) with (tz + msPerDay + (d - 1) * msPerDay) by lia.
    rewrite Z.div_add by lia. rewrite Z.div_small by lia. lia.
Qed.

Lemma fields_of_local (tz t d : Z) :
  Day (LocalTime tz t) = d ->
  (WeekDay (LocalTime tz t), YearFromTime (LocalTime tz t),
   MonthFromTime (LocalTime tz t), DateFromTime (LocalTime tz t))
  = fieldsOfDay d.
Proof.
  intros E. unfold fieldsOfDay.
  destruct (fields_of_Day (LocalTime tz t) (d * msPerDay)) as (-> & -> & ->);
    [now rewrite Day_midnight|].
  unfold WeekDay. now rewrite E, Day_midnight.
Qed.

(** X4.  The date a card shows for a session is that of its date in a
    browser at or ahead of UTC, and that of the day before in a browser
    behind UTC: the date is read as midnight UTC and shown in local
    time. *)
Theorem formattedDate_day (env : Env) (log : Session) (d : Z) :
  dayOf log = Some d ->
  (0 <= tza env < msPerDay -> formattedDate env log = Some (fieldsOfDay d))
  /\ (- msPerDay <= tza env < 0 ->
      formattedDate env log = Some (fieldsOfDay (d - 1))).
Proof.
  unfold dayOf, formattedDate. intros Hd.
  destruct (parse (date log)) as [t|] eqn:P; [|discriminate].
  cbn [option_map] in *. injection Hd as Hd.
  apply parse_midnight in P. rewrite Hd in P. rewrite P.
  destruct (Day_local (tza env) d) as [Ha Hb].
  split; intros Htz; f_equal; apply fields_of_local; auto.
Qed.

Lemma formattedDate_day_witness :
  formattedDate wednesdayNoon sundayMath = Some (6, 2024, 0, 6)
  /\ formattedDate wednesdayNoonAhead sundayMath = Some (0, 2024, 0, 7).
Proof.
  split.
  - apply (formattedDate_day wednesdayNoon sundayMath 19729); vm_compute;
      [reflexivity|split; [discriminate|reflexivity]].
  - apply (formattedDate_day wednesdayNoonAhead sundayMath 19729); vm_compute;
      [reflexivity|split; [discriminate|reflexivity]].
Defined.

(** *** More on the store *)

Lemma refresh_effects (message type : string) (env : Env) (st : State) :
  let st' := snd (refresh message type env st) in
  fst (refresh message type env st) = undefined
  /\ studyLogs st' = studyLogs st
  /\ filteredLogs st' = filteredLogs st
  /\ currentAction st' = currentAction st
  /\ localStorage st'
     = match setItem (localStorage st) (stringify (studyLogs st)) with
       | Some ls => ls
       | None => localStorage st
       end
  /\ logsContainer (page st') = filteredLogs st
  /\ totalSessionsText (page st')
     = decimal (Z.of_nat (List.length (studyLogs st)))
  /\ todayTotalText (page st') = formatDuration (todayTotal env st)
  /\ weekTotalText (page st') = formatDuration (weekTotal env st)
  /\ dailyChart (page st') = dailySeries env (studyLogs st)
  /\ filterDate (page st') = filterDate (page st)
  /\ notifications (page st') = notifications (page st) ++ [(message, type)].
Proof.
  unfold refresh. run_methods. destruct (setItem _ _); repeat split.
Qed.

Lemma handleFormSubmit_refresh (formData : FormData) (env : Env) (st : State) :
  Accepted formData ->
  handleFormSubmit formData env st
  = refresh "Study session added successfully!" "success" env
      (set_studyLogs (studySession env formData :: studyLogs st) st).
Proof.
  intros [Hs Hd]. unfold handleFormSubmit. cbn [subject duration].
  replace (negb (truthy (trim (get_subject formData)))) with false
    by (destruct (trim (get_subject formData)); [contradiction|reflexivity]).
  replace (le (parseInt (get_duration formData)) (Num 0)) with false.
  - reflexivity.
  - destruct Hd as [->|(d & -> & Hd)]; [reflexivity|].
    unfold le. symmetry. apply Z.leb_gt. exact Hd.
Qed.

Lemma handleFormSubmit_rejected (formData : FormData) (env : Env) (st : State) :
  ~ Accepted formData ->
  handleFormSubmit formData env st
  = showNotification "Please fill in all required fields correctly." "error"
      env st.
Proof.
  intros Hn. unfold handleFormSubmit. cbn [subject duration].
  destruct (trim (get_subject formData)) eqn:Es; [reflexivity|].
  destruct (parseInt (get_duration formData)) as [|d] eqn:Ed.
  - exfalso. apply Hn. split; [rewrite Es; discriminate|now left].
  - cbn [truthy negb orb le]. destruct (Z.leb_spec d 0); [reflexivity|].
    exfalso. apply Hn. split; [rewrite Es; discriminate|].
    right. exists d. now split.
Qed.

Lemma Accepted_dec (formData : FormData) : Accepted formData \/ ~ Accepted formData.
Proof.
  unfold Accepted.
  destruct (string_dec (trim (get_subject formData)) EmptyString) as [E|N];
    [right; tauto|].
  destruct (parseInt (get_duration formData)) as [|d].
  - left. split; [exact N|now left].
  - destruct (Z.lt_ge_cases 0 d).
    + left. split; [exact N|]. right. now exists d.
    + right. intros [_ [C|(d' & [= <-] & Hd)]]; [discriminate|lia].
Qed.

Lemma deleteLog_refresh (i : string) (env : Env) (st : State) :
  deleteLog i env st
  = refresh "Study session deleted successfully!" "success" env
      (set_studyLogs
         (filter (fun log => negb (strictEq (id log) i)) (studyLogs st)) st).
Proof. reflexivity. Qed.

Lemma handleModalConfirm_refresh (env : Env) (st : State) :
  handleModalConfirm env st
  = if match currentAction st with
       | Some action => strictEq action "clearAll"
       | None => false
       end
    then refresh "All study sessions cleared!" "success" env
           (set_studyLogs [] st)
    else (undefined, st).
Proof. reflexivity. Qed.

(** **** White space around the subject *)

Lemma trimStart_startsClean (s : string) : startsClean (trimStart s).
Proof.
  induction s as [|c s IH]; cbn [trimStart]; [exact I|].
  destruct (isWhiteSpace c) eqn:E; [exact IH|exact E].
Qed.

Lemma trimStart_clean (s : string) : startsClean s -> trimStart s = s.
Proof.
  destruct s as [|c s]; cbn; [reflexivity|]. now intros ->.
Qed.

Lemma trimEnd_startsClean (s : string) : startsClean s -> startsClean (trimEnd s).
Proof.
  destruct s as [|c s]; cbn [trimEnd startsClean]; [trivial|].
  intros E. rewrite E. destruct (trimEnd s); exact E.
Qed.

Lemma trimEnd_idempotent (s : string) : trimEnd (trimEnd s) = trimEnd s.
Proof.
  induction s as [|c s IH]; cbn [trimEnd]; [reflexivity|].
  destruct (trimEnd s) as [|c' s'] eqn:E.
  - destruct (isWhiteSpace c) eqn:W; cbn [trimEnd]; [reflexivity|].
    now rewrite W.
  - cbn [trimEnd]. cbn [trimEnd] in IH. rewrite IH. reflexivity.
Qed.

Lemma trim_idempotent (s : string) : trim (trim s) = trim s.
Proof.
  unfold trim.
  rewrite (trimStart_clean (trimEnd (trimStart s))).
  - apply trimEnd_idempotent.
  - apply trimEnd_startsClean, trimStart_startsClean.
Qed.

(** X5.  A form that passes the validation puts one session in front of
    the collection: its id is the numeral of the clock reading, its subject
    and notes are those of the form without the white space around them,
    and it is well formed.  The count shown is one more, the notification
    is the one of an addition, and the storage holds the new collection
    unless the write throws, which leaves it as it was. *)
Theorem handleFormSubmit_accepted (formData : FormData) (env : Env) (st : State) :
  Accepted formData ->
  let st' := snd (handleFormSubmit formData env st) in
  let added := studySession env formData in
  studyLogs st' = added :: studyLogs st
  /\ id added = decimal (now env)
  /\ subject added = trim (get_subject formData)
  /\ notes added = trim (get_notes formData)
  /\ WellFormed added
  /\ totalSessionsText (page st')
     = decimal (Z.of_nat (S (List.length (studyLogs st))))
  /\ notifications (page st')
     = notifications (page st)
         ++ [("Study session added successfully!", "success")]%string
  /\ localStorage st'
     = match setItem (localStorage st) (stringify (added :: studyLogs st)) with
       | Some ls => ls
       | None => localStorage st
       end.
Proof.
  intros Hacc. cbv zeta. rewrite handleFormSubmit_refresh by exact Hacc.
  destruct (refresh_effects "Study session added successfully!" "success" env
              (set_studyLogs (studySession env formData :: studyLogs st) st))
    as (_ & Hl & _ & _ & Hs & _ & Hn & _ & _ & _ & _ & Hm).
  cbv zeta in *. rewrite Hl, Hs, Hn, Hm.
  repeat split; try reflexivity.
  - apply Hacc.
  - apply trim_idempotent.
  - apply Hacc.
Qed.

Lemma handleFormSubmit_accepted_witness :
  studyLogs (snd (handleFormSubmit mathForm wednesdayNoon fresh))
  = [studySession wednesdayNoon mathForm]
  /\ WellFormed (studySession wednesdayNoon mathForm).
Proof.
  destruct (handleFormSubmit_accepted mathForm wednesdayNoon fresh)
    as (Hl & _ & _ & _ & Hw & _).
  - split; [discriminate|]. right. exists 30. split; [reflexivity|lia].
  - split; [exact Hl|exact Hw].
Defined.

(** **** What every run keeps *)

Lemma dispatch_PageInStep (ev : Event) (env : Env) (st : State) :
  PageInStep st -> PageInStep (snd (dispatch ev env st)).
Proof.
  intros [Hc Hn]. unfold PageInStep.
  destruct ev; cbn [dispatch].
  - destruct (Accepted_dec formData) as [A|A].
    + rewrite handleFormSubmit_refresh by exact A.
      destruct (refresh_effects "Study session added successfully!" "success"
                  env (set_studyLogs (studySession env formData :: studyLogs st) st))
        as (_ & Hl & Hf & _ & _ & Hc' & Hn' & _).
      cbv zeta in *. now rewrite Hl, Hf, Hc', Hn'.
    + rewrite handleFormSubmit_rejected by exact A. now split.
  - rewrite deleteLog_refresh.
    destruct (refresh_effects "Study session deleted successfully!" "success"
                env (set_studyLogs
                       (filter (fun log => negb (strictEq (id log) i))
                               (studyLogs st)) st))
      as (_ & Hl & Hf & _ & _ & Hc' & Hn' & _).
    cbv zeta in *. now rewrite Hl, Hf, Hc', Hn'.
  - now split.
  - now split.
  - now split.
  - now split.
  - rewrite handleModalConfirm_refresh.
    destruct (match currentAction st with Some _ => _ | None => _ end);
      [|now split].
    destruct (refresh_effects "All study sessions cleared!" "success"
                env (set_studyLogs [] st))
      as (_ & Hl & Hf & _ & _ & Hc' & Hn' & _).
    cbv zeta in *. now rewrite Hl, Hf, Hc', Hn'.
Qed.

Lemma run_PageInStep (tz : Z) (evs : list (Z * Event)) (st : State) :
  PageInStep st -> PageInStep (run tz evs st).
Proof.
  revert st. induction evs as [|[t ev] evs IH]; intros st H; cbn [run];
    [exact H|].
  apply IH. now apply dispatch_PageInStep.
Qed.

(** X6.  From its construction on and after every sequence of events, the
    cards on the page are those of the filtered view, and the count shown
    is the size of the collection. *)
Theorem page_in_step (p : Page) (ls : Storage) (env : Env) (st : State)
        (tz : Z) (evs : list (Z * Event)) :
  constructor p ls env = Some st ->
  logsContainer (page (run tz evs st)) = filteredLogs (run tz evs st)
  /\ totalSessionsText (page (run tz evs st))
     = decimal (Z.of_nat (List.length (studyLogs (run tz evs st)))).
Proof.
  unfold constructor.
  destruct (sessionsOfValue (loadFromLocalStorage ls)) as [logs|];
    [|discriminate].
  intros [= <-]. apply run_PageInStep. now split.
Qed.

Lemma page_in_step_witness :
  logsContainer
    (page (run (tza wednesdayNoon)
               [(now wednesdayNoon, Submit mathForm);
                (now wednesdayNoon + 1, ChangeFilterSubject "Math")] fresh))
  = filteredLogs
      (run (tza wednesdayNoon)
           [(now wednesdayNoon, Submit mathForm);
            (now wednesdayNoon + 1, ChangeFilterSubject "Math")] fresh).
Proof.
  apply (page_in_step blankPage emptyStorage wednesdayNoon fresh).
  exact constructor_fresh.
Defined.

Lemma setItem_unbounded (ls : Storage) (text : string) :
  quota ls = None ->
  setItem ls text = Some {| item := Some text; quota := None |}.
Proof. unfold setItem. now intros ->. Qed.

Lemma refresh_written (message type : string) (env : Env) (st0 st : State) :
  quota (localStorage st) = None ->
  WrittenThrough st0 (snd (refresh message type env st)).
Proof.
  intros Hq.
  destruct (refresh_effects message type env st) as (_ & Hl & _ & _ & Hs & _).
  cbv zeta in *. unfold WrittenThrough.
  rewrite Hl, Hs, setItem_unbounded by exact Hq. split; [reflexivity|].
  right. reflexivity.
Qed.

Lemma dispatch_WrittenThrough (ev : Event) (env : Env) (st0 st : State) :
  WrittenThrough st0 st -> WrittenThrough st0 (snd (dispatch ev env st)).
Proof.
  intros H. pose proof H as [Hq _].
  destruct ev; cbn [dispatch]; try exact H.
  - destruct (Accepted_dec formData) as [A|A].
    + rewrite handleFormSubmit_refresh by exact A. now apply refresh_written.
    + rewrite handleFormSubmit_rejected by exact A. exact H.
  - rewrite deleteLog_refresh. now apply refresh_written.
  - rewrite handleModalConfirm_refresh.
    destruct (match currentAction st with Some _ => _ | None => _ end);
      [|exact H].
    now apply refresh_written.
Qed.

(** X7.  With a storage that never refuses a write, after every sequence
    of events either the collection and the storage are as they were at
    the start, or the storage holds the text of the collection as it is
    now: the durable copy never lags behind. *)
Theorem storage_written_through (tz : Z) (evs : list (Z * Event)) (st0 : State) :
  quota (localStorage st0) = None ->
  let st := run tz evs st0 in
  (studyLogs st = studyLogs st0 /\ localStorage st = localStorage st0)
  \/ item (localStorage st) = Some (stringify (studyLogs st)).
Proof.
  intros Hq. cbv zeta.
  assert (H : WrittenThrough st0 st0) by (split; [exact Hq|now left]).
  assert (G : forall st, WrittenThrough st0 st -> WrittenThrough st0 (run tz evs st)).
  { induction evs as [|[t ev] evs IH]; intros st Hst; cbn [run]; [exact Hst|].
    apply IH. now apply dispatch_WrittenThrough. }
  apply (G st0 H).
Qed.

Lemma storage_written_through_witness :
  item (localStorage
          (run (tza wednesdayNoon)
               [(now wednesdayNoon, Submit mathForm);
                (now wednesdayNoon + 1, ClickDelete "1704906000000")] fresh))
  = Some "[]"%string.
Proof.
  destruct (storage_written_through (tza wednesdayNoon)
              [(now wednesdayNoon, Submit mathForm);
               (now wednesdayNoon + 1, ClickDelete "1704906000000")] fresh)
    as [[_ H]|H].
  - reflexivity.
  - vm_compute in H. discriminate.
  - exact H.
Defined.

Lemma dispatch_WellFormed (ev : Event) (env : Env) (st : State) :
  Forall WellFormed (studyLogs st) ->
  Forall WellFormed (studyLogs (snd (dispatch ev env st))).
Proof.
  intros H. destruct ev; cbn [dispatch]; try exact H.
  - destruct (Accepted_dec formData) as [A|A].
    + rewrite handleFormSubmit_refresh by exact A.
      destruct (refresh_effects "Study session added successfully!" "success"
                  env (set_studyLogs (studySession env formData :: studyLogs st) st))
        as (_ & -> & _).
      constructor; [|exact H].
      destruct A as [As Ad]. repeat split; [exact As|apply trim_idempotent|exact Ad].
    + rewrite handleFormSubmit_rejected by exact A. exact H.
  - rewrite deleteLog_studyLogs. apply Forall_forall. intros log Hin.
    apply filter_In in Hin as [Hin _]. revert log Hin. now apply Forall_forall.
  - destruct (handleModalConfirm_studyLogs env st) as [->| ->];
      [exact H|constructor].
Qed.



Lemma NewestFirst_weaken (b b' : Z) (logs : list Session) :
  b <= b' -> NewestFirst b logs -> NewestFirst b' logs.
Proof.
  intros Hb H. destruct H as [b|b t log logs E Ht H]; [constructor|].
  apply (NewestFirst_cons b' t); [exact E|lia|exact H].
Qed.

Lemma NewestFirst_filter (f : Session -> bool) (b : Z) (logs : list Session) :
  NewestFirst b logs -> NewestFirst b (filter f logs).
Proof.
  induction 1 as [b|b t log logs E Ht H IH]; cbn [filter]; [constructor|].
  destruct (f log).
  - now apply (NewestFirst_cons b t).
  - apply (NewestFirst_weaken t); [lia|exact IH].
Qed.

Lemma dispatch_NewestFirst (ev : Event) (env : Env) (b : Z) (st : State) :
  b <= now env -> NewestFirst b (studyLogs st) ->
  NewestFirst (now env + 1) (studyLogs (snd (dispatch ev env st))).
Proof.
  intros Hb H.
  assert (Hsame : NewestFirst (now env + 1) (studyLogs st))
    by (apply (NewestFirst_weaken b); [lia|exact H]).
  destruct ev; cbn [dispatch]; try exact Hsame.
  - destruct (Accepted_dec formData) as [A|A].
    + rewrite handleFormSubmit_refresh by exact A.
      destruct (refresh_effects "Study session added successfully!" "success"
                  env (set_studyLogs (studySession env formData :: studyLogs st) st))
        as (_ & -> & _).
      apply (NewestFirst_cons _ (now env)); [reflexivity|lia|].
      apply (NewestFirst_weaken b); [lia|exact H].
    + rewrite handleFormSubmit_rejected by exact A. exact Hsame.
  - rewrite deleteLog_studyLogs. now apply NewestFirst_filter.
  - destruct (handleModalConfirm_studyLogs env st) as [->| ->];
      [exact Hsame|constructor].
Qed.

(** X9.  Under clock readings that increase strictly from one event to
    the next, the collection stays newest first: the ids are the numerals
    of readings that decrease strictly from the front to the back. *)
Theorem collection_newest_first (tz : Z) (evs : list (Z * Event)) (b : Z)
        (st : State) :
  Increasing b evs -> NewestFirst b (studyLogs st) ->
  exists b', NewestFirst b' (studyLogs (run tz evs st)).
Proof.
  revert b st. induction evs as [|[t ev] evs IH]; intros b st Hinc H;
    cbn [run].
  - now exists b.
  - destruct Hinc as [Hb Hinc]. apply (IH (t + 1)); [exact Hinc|].
    now apply (dispatch_NewestFirst ev {| tza := tz; now := t |} b).
Qed.

Lemma collection_newest_first_witness :
  exists b',
    NewestFirst b'
      (studyLogs (run (tza wednesdayNoon)
                      [(now wednesdayNoon, Submit mathForm);
                       (now wednesdayNoon + 1, Submit mathForm)] fresh)).
Proof.
  apply (collection_newest_first (tza wednesdayNoon)
           [(now wednesdayNoon, Submit mathForm);
            (now wednesdayNoon + 1, Submit mathForm)] 0 fresh).
  - cbn. lia.
  - constructor.
Defined.

(** **** Clearing *)

(** X10.  Once the confirmation of a clearing has been asked for, the
    confirmation empties the collection, whatever it held: the summary
    reads 0 min twice and 0 sessions, the chart shows no data, and the
    storage holds the empty array unless the write throws.  A confirmation
    that was never asked for changes nothing. *)
Theorem clear_all (env env' : Env) (st : State) :
  let asked := snd (showClearAllConfirmation env st) in
  let cleared := snd (handleModalConfirm env' asked) in
  studyLogs asked = studyLogs st
  /\ studyLogs cleared = []
  /\ todayTotalText (page cleared) = "0 min"%string
  /\ weekTotalText (page cleared) = "0 min"%string
  /\ totalSessionsText (page cleared) = "0"%string
  /\ dailyChart (page cleared) = None
  /\ localStorage cleared
     = match setItem (localStorage st) "[]" with
       | Some ls => ls
       | None => localStorage st
       end
  /\ (currentAction st = None -> handleModalConfirm env' st = (undefined, st)).
Proof.
  cbv zeta. split; [reflexivity|].
  change (handleModalConfirm env' (snd (showClearAllConfirmation env st)))
    with (refresh "All study sessions cleared!" "success" env'
            (set_studyLogs [] (set_currentAction (Some "clearAll"%string) st))).
  destruct (refresh_effects "All study sessions cleared!" "success" env'
              (set_studyLogs [] (set_currentAction (Some "clearAll"%string) st)))
    as (_ & Hl & _ & _ & Hs & _ & Hn & Ht & Hw & Hc & _).
  cbv zeta in *. rewrite Hl, Hs, Hn, Ht, Hw, Hc.
  repeat split.
  intros E. unfold handleModalConfirm. now rewrite E.
Qed.

(** **** Totals *)

Lemma fold_exact (logs : list Session) (ms : list Z) (acc : Z) :
  map (fun log => toMinutes (duration log) (timeUnit log)) logs = map Num ms ->
  Forall (fun m => 0 <= m) ms ->
  0 <= acc ->
  acc + fold_right Z.add 0 ms <= 2 ^ 53 ->
  fold_left (fun total log => add total (minutesOf log)) logs (Num acc)
  = Num (acc + fold_right Z.add 0 ms).
Proof.
  revert ms acc. induction logs as [|log logs IH]; intros [|m ms] acc E Hm Ha Hs;
    try discriminate; cbn [fold_left fold_right] in *.
  - now rewrite Z.add_0_r.
  - injection E as E0 E. inversion Hm as [|? ? Hm0 Hms]; subst.
    assert (P : 0 <= fold_right Z.add 0 ms).
    { clear -Hms. induction Hms; cbn [fold_right]; lia. }
    change (minutesOf log) with (toMinutes (duration log) (timeUnit log)).
    rewrite E0, add_exact by lia.
    rewrite (IH ms (acc + m)) by (assumption || lia). f_equal. lia.
Qed.

(** Within the exact integers the total is the sum of the minutes. *)
Lemma calculateTotalMinutes_exact (logs : list Session) (ms : list Z) :
  map (fun log => toMinutes (duration log) (timeUnit log)) logs = map Num ms ->
  Forall (fun m => 0 <= m) ms ->
  fold_right Z.add 0 ms <= 2 ^ 53 ->
  calculateTotalMinutes logs = Num (fold_right Z.add 0 ms).
Proof.
  intros E Hm Hs. unfold calculateTotalMinutes.
  now rewrite (fold_exact logs ms 0) by (assumption || lia).
Qed.

Lemma sum_Permutation (a b : list Z) :
  Permutation a b -> fold_right Z.add 0 a = fold_right Z.add 0 b.
Proof. induction 1; cbn [fold_right]; lia. Qed.

Lemma Num_inj_map (a b : list Z) : map Num a = map Num b -> a = b.
Proof.
  revert b. induction a as [|x a IH]; intros [|y b] E; try discriminate;
    [reflexivity|].
  injection E as -> E. now rewrite (IH b E).
Qed.

Lemma minutes_app (a b : list Session) (ms : list Z) :
  map (fun log => toMinutes (duration log) (timeUnit log)) (a ++ b)
  = map Num ms ->
  exists ma mb,
    ms = ma ++ mb
    /\ map (fun log => toMinutes (duration log) (timeUnit log)) a = map Num ma
    /\ map (fun log => toMinutes (duration log) (timeUnit log)) b = map Num mb.
Proof.
  revert ms. induction a as [|log a IH]; intros ms E; cbn [app map] in E.
  - exists [], ms. now repeat split.
  - destruct ms as [|m ms]; [discriminate|]. injection E as E0 E.
    destruct (IH ms E) as (ma & mb & -> & Ea & Eb).
    exists (m :: ma), mb. repeat split; [|exact Eb]. cbn [map]. now rewrite E0, Ea.
Qed.

Lemma sum_app (a b : list Z) :
  fold_right Z.add 0 (a ++ b) = fold_right Z.add 0 a + fold_right Z.add 0 b.
Proof. induction a as [|x a IH]; cbn [app fold_right]; lia. Qed.

Lemma sum_nonneg (ms : list Z) :
  Forall (fun m => 0 <= m) ms -> 0 <= fold_right Z.add 0 ms.
Proof. induction 1; cbn [fold_right]; lia. Qed.

(** X11.  For sessions whose minutes are integers from 0 on with a sum of
    at most 2^53, the total of [calculateTotalMinutes] does not depend on
    the order of the sessions, and the total of two collections put
    together is the sum of their totals. *)
Theorem calculateTotalMinutes_order_free (a b c : list Session) :
  WithinExactIntegers (a ++ b) ->
  Permutation (a ++ b) c ->
  calculateTotalMinutes c = calculateTotalMinutes (a ++ b)
  /\ calculateTotalMinutes (a ++ b)
     = add (calculateTotalMinutes a) (calculateTotalMinutes b).
Proof.
  intros (ms & E & Hm & Hs) Hp. split.
  - apply (Permutation_map (fun log => toMinutes (duration log) (timeUnit log)))
      in Hp.
    rewrite E in Hp. apply Permutation_sym, Permutation_map_inv in Hp
      as (ms' & E' & Hp').
    rewrite (calculateTotalMinutes_exact (a ++ b) ms E Hm Hs).
    rewrite (calculateTotalMinutes_exact c ms' E').
    + f_equal. symmetry. now apply sum_Permutation.
    + revert Hm. now apply Permutation_Forall.
    + now rewrite <- (sum_Permutation ms ms' Hp').
  - destruct (minutes_app a b ms E) as (ma & mb & -> & Ea & Eb).
    apply Forall_app in Hm as [Ha Hb]. rewrite sum_app in Hs.
    pose proof (sum_nonneg ma Ha). pose proof (sum_nonneg mb Hb).
    rewrite (calculateTotalMinutes_exact (a ++ b) (ma ++ mb))
      by (rewrite ?sum_app; try apply Forall_app; auto).
    rewrite (calculateTotalMinutes_exact a ma), (calculateTotalMinutes_exact b mb)
      by (assumption || lia).
    rewrite add_exact by lia. now rewrite sum_app.
Qed.

Lemma calculateTotalMinutes_order_free_witness :
  calculateTotalMinutes [sundayMath; sundayMath]
  = add (calculateTotalMinutes [sundayMath]) (calculateTotalMinutes [sundayMath]).
Proof.
  apply (calculateTotalMinutes_order_free [sundayMath] [sundayMath]
           [sundayMath; sundayMath]).
  - exists [30; 30]. repeat split; [repeat constructor; lia|vm_compute; discriminate].
  - apply Permutation_refl.
Defined.

(** Beyond 2^53 the order matters: the sums are rounded as they grow. *)
Lemma totals_round_beyond_exact_integers :
  let session m :=
    {| id := EmptyString; subject := "Math"; duration := Num m;
       timeUnit := "minutes"; date := "2024-01-07"; notes := EmptyString;
       timestamp := EmptyString |}%string in
  calculateTotalMinutes [session (2 ^ 53); session 1; session 1] = Num (2 ^ 53)
  /\ calculateTotalMinutes [session 1; session 1; session (2 ^ 53)]
     = Num (2 ^ 53 + 2).
Proof. split; vm_compute; reflexivity. Qed.

Lemma minutesOf_NaN (log : Session) : duration log = NaN -> minutesOf log = NaN.
Proof. unfold minutesOf. intros ->. now destruct (strictEq _ _). Qed.

Lemma add_NaN_r (a : number) : add a NaN = NaN.
Proof. now destruct a. Qed.

Lemma fold_NaN (logs : list Session) :
  fold_left (fun total log => add total (minutesOf log)) logs NaN = NaN.
Proof.
  induction logs as [|log logs IH]; cbn [fold_left add]; [reflexivity|exact IH].
Qed.

(** X12.  One session whose duration is NaN makes the total of every
    collection that holds it NaN, which the summary shows as NaNh. *)
Theorem calculateTotalMinutes_NaN (log : Session) (logs : list Session) :
  In log logs -> duration log = NaN ->
  calculateTotalMinutes logs = NaN
  /\ formatDuration (calculateTotalMinutes logs) = "NaNh"%string.
Proof.
  intros Hin Hd.
  assert (E : calculateTotalMinutes logs = NaN).
  { unfold calculateTotalMinutes. generalize (Num 0).
    induction logs as [|l logs IH]; intros acc; [contradiction|].
    cbn [fold_left]. destruct Hin as [->|Hin].
    - rewrite minutesOf_NaN, add_NaN_r by exact Hd. apply fold_NaN.
    - now apply IH. }
  rewrite E. split; reflexivity.
Qed.

Lemma calculateTotalMinutes_NaN_witness :
  let formData :=
    {| get_subject := "Math"; get_duration := "abc"; get_timeUnit := "minutes";
       get_date := "2024-01-10"; get_notes := EmptyString |}%string in
  todayTotalText (page (snd (handleFormSubmit formData wednesdayNoon
                                              (withLogs [sundayMath]))))
  = "NaNh"%string.
Proof.
  cbv zeta.
  destruct (calculateTotalMinutes_NaN
              (studySession wednesdayNoon
                 {| get_subject := "Math"; get_duration := "abc";
                    get_timeUnit := "minutes"; get_date := "2024-01-10";
                    get_notes := EmptyString |})
              [studySession wednesdayNoon
                 {| get_subject := "Math"; get_duration := "abc";
                    get_timeUnit := "minutes"; get_date := "2024-01-10";
                    get_notes := EmptyString |}]) as [_ H].
  - now left.
  - reflexivity.
  - exact H.
Defined.

Lemma minutes_filter (f : Session -> bool) (logs : list Session) (ms : list Z) :
  map (fun log => toMinutes (duration log) (timeUnit log)) logs = map Num ms ->
  Forall (fun m => 0 <= m) ms ->
  exists ms',
    map (fun log => toMinutes (duration log) (timeUnit log)) (filter f logs)
    = map Num ms'
    /\ Forall (fun m => 0 <= m) ms'
    /\ fold_right Z.add 0 ms' <= fold_right Z.add 0 ms.
Proof.
  revert ms. induction logs as [|log logs IH]; intros [|m ms] E Hm;
    try discriminate; cbn [filter map fold_right] in *.
  - exists []. split; [reflexivity|]. split; [apply Forall_nil|reflexivity].
  - injection E as E0 E. inversion Hm as [|? ? Hm0 Hms]; subst.
    destruct (IH ms E Hms) as (ms' & E' & Hm' & Hs').
    destruct (f log).
    + exists (m :: ms'). cbn [map fold_right]. rewrite E0, E'.
      split; [reflexivity|]. split; [now constructor|lia].
    + exists ms'. split; [exact E'|]. split; [exact Hm'|lia].
Qed.

(** X13.  When the minutes of the sessions, the new one included, are
    integers from 0 on with a sum of at most 2^53, a session submitted
    under the default date of the form, today's, adds its minutes, the
    spec's [toMinutes] of its duration and unit, to the total of today that
    the summary shows; under any other date it leaves that total as it
    was. *)
Theorem todayTotal_after_add (formData : FormData) (env : Env) (st : State) :
  Accepted formData ->
  WithinExactIntegers (studySession env formData :: studyLogs st) ->
  let st' := snd (handleFormSubmit formData env st) in
  let added := studySession env formData in
  todayTotalText (page st') = formatDuration (todayTotal env st')
  /\ (get_date formData = setDefaultDate env ->
      todayTotal env st'
      = add (toMinutes (duration added) (timeUnit added)) (todayTotal env st))
  /\ (get_date formData <> setDefaultDate env ->
      todayTotal env st' = todayTotal env st).
Proof.
  intros Hacc (ms & Ems & Hm & Hs). cbv zeta.
  rewrite handleFormSubmit_refresh by exact Hacc.
  destruct (refresh_effects "Study session added successfully!" "success" env
              (set_studyLogs (studySession env formData :: studyLogs st) st))
    as (_ & Hl & _ & _ & _ & _ & _ & Ht & _).
  cbv zeta in *.
  assert (E : todayTotal env
                (snd (refresh "Study session added successfully!" "success" env
                        (set_studyLogs (studySession env formData :: studyLogs st) st)))
              = todayTotal env
                  (set_studyLogs (studySession env formData :: studyLogs st) st))
    by (unfold todayTotal; now rewrite Hl).
  rewrite E, Ht. split; [reflexivity|].
  unfold todayTotal, setDefaultDate. cbn [studyLogs set_studyLogs filter].
  change (date (studySession env formData)) with (get_date formData).
  split; intros Hd.
  - replace (strictEq (get_date formData) (isoDate (now env))) with true
      by (symmetry; apply String.eqb_eq; exact Hd).
    destruct ms as [|m ms]; [discriminate|]. cbn [map] in Ems.
    injection Ems as E0 Ems. inversion Hm as [|? ? Hm0 Hms]; subst.
    cbn [fold_right] in Hs.
    destruct (minutes_filter
                (fun log => strictEq (date log) (isoDate (now env)))
                (studyLogs st) ms Ems Hms) as (ms' & E' & Hm' & Hs').
    pose proof (sum_nonneg ms' Hm').
    assert (Em : map (fun log => toMinutes (duration log) (timeUnit log))
                     (studySession env formData
                      :: filter (fun log => strictEq (date log) (isoDate (now env)))
                                (studyLogs st))
                 = map Num (m :: ms'))
      by (cbn [map]; f_equal; [exact E0|exact E']).
    rewrite (calculateTotalMinutes_exact _ (m :: ms') Em)
      by (try constructor; cbn [fold_right]; assumption || lia).
    rewrite (calculateTotalMinutes_exact _ ms' E' Hm') by lia.
    change (toMinutes (duration (studySession env formData))
                      (timeUnit (studySession env formData)))
      with (toMinutes (parseInt (get_duration formData)) (get_timeUnit formData)).
    rewrite E0, add_exact by lia. reflexivity.
  - replace (strictEq (get_date formData) (isoDate (now env))) with false
      by (symmetry; apply String.eqb_neq; exact Hd).
    reflexivity.
Qed.

Lemma todayTotal_after_add_witness :
  todayTotalText (page (snd (handleFormSubmit mathForm wednesdayNoon fresh)))
  = "30 min"%string.
Proof.
  destruct (todayTotal_after_add mathForm wednesdayNoon fresh) as (H & _).
  - split; [discriminate|]. right. exists 30. split; [reflexivity|lia].
  - exists [30]. repeat split; [repeat constructor; lia|vm_compute; discriminate].
  - exact H.
Defined.

(** **** Adding and removing *)

Lemma filter_filter {A : Type} (f g : A -> bool) (l : list A) :
  filter f (filter g l) = filter (fun x => g x && f x) l.
Proof.
  induction l as [|x l IH]; cbn [filter]; [reflexivity|].
  destruct (g x); cbn [filter andb]; [destruct (f x)|]; now rewrite IH.
Qed.

(** X14.  Removing a session right after it was added, by its id, gives
    back the collection as it was, provided no session had that id; the
    sessions that had it go as well. *)
Theorem add_then_delete (formData : FormData) (env env' : Env) (st : State) :
  Accepted formData ->
  let added := snd (handleFormSubmit formData env st) in
  let back := snd (deleteLog (decimal (now env)) env' added) in
  studyLogs back
  = filter (fun log => negb (strictEq (id log) (decimal (now env))))
           (studyLogs st)
  /\ ((forall log, In log (studyLogs st) -> id log <> decimal (now env)) ->
      studyLogs back = studyLogs st).
Proof.
  intros Hacc. cbv zeta.
  rewrite deleteLog_studyLogs, handleFormSubmit_refresh by exact Hacc.
  destruct (refresh_effects "Study session added successfully!" "success" env
              (set_studyLogs (studySession env formData :: studyLogs st) st))
    as (_ & Hl & _).
  cbv zeta in Hl. rewrite Hl. cbn [studyLogs set_studyLogs filter].
  replace (strictEq (id (studySession env formData)) (decimal (now env)))
    with true by (symmetry; apply String.eqb_refl).
  cbn [negb]. split; [reflexivity|].
  intros Hfresh. apply filter_all. intros l Hin. apply differs_from.
  now apply Hfresh.
Qed.

Lemma add_then_delete_witness :
  studyLogs
    (snd (deleteLog (decimal (now wednesdayNoon)) wednesdayNoon
            (snd (handleFormSubmit mathForm wednesdayNoon
                                   (withLogs [sundayMath])))))
  = [sundayMath].
Proof.
  destruct (add_then_delete mathForm wednesdayNoon wednesdayNoon
              (withLogs [sundayMath])) as [_ H].
  - split; [discriminate|]. right. exists 30. split; [reflexivity|lia].
  - apply H. intros log [<-|[]]. vm_compute. discriminate.
Defined.

(** X15.  Removing by an id twice is removing once, and removals by two
    ids give the same collection in either order. *)
Theorem deleteLog_twice_and_swapped (i j : string) (e1 e2 e3 e4 : Env)
        (st : State) :
  studyLogs (snd (deleteLog i e2 (snd (deleteLog i e1 st))))
  = studyLogs (snd (deleteLog i e1 st))
  /\ studyLogs (snd (deleteLog j e2 (snd (deleteLog i e1 st))))
     = studyLogs (snd (deleteLog i e4 (snd (deleteLog j e3 st)))).
Proof.
  rewrite !deleteLog_studyLogs, !filter_filter. split.
  - apply filter_ext. intros log. now destruct (negb (strictEq (id log) i)).
  - apply filter_ext. intros log. apply andb_comm.
Qed.

(** **** A session with no date *)

Lemma append_empty (a b : string) :
  (a ++ b)%string = EmptyString -> a = EmptyString /\ b = EmptyString.
Proof. destruct a; cbn; [now split|discriminate]. Qed.

Lemma isoDate_nonempty (t : Z) : isoDate t <> EmptyString.
Proof.
  rewrite isoDate_fields. intros E.
  apply append_empty in E as [_ E]. discriminate.
Qed.

Lemma chartDates_nonempty (env : Env) (d : string) :
  In d (chartDates env) -> d <> EmptyString.
Proof.
  unfold chartDates. intros H. apply in_map_iff in H as (i & <- & _).
  apply isoDate_nonempty.
Qed.

(** X16.  The form is accepted with an empty date.  The session it adds is
    counted among the sessions, but in no total: not in today's, not in the
    week's, not under any date of the daily chart; its card has no valid
    date to show. *)
Theorem undated_session_counts_nowhere (formData : FormData) (env : Env)
        (st : State) :
  Accepted formData -> get_date formData = EmptyString ->
  let st' := snd (handleFormSubmit formData env st) in
  List.length (studyLogs st') = S (List.length (studyLogs st))
  /\ todayTotal env st' = todayTotal env st
  /\ weekTotal env st' = weekTotal env st
  /\ (studyLogs st <> [] ->
      dailySeries env (studyLogs st') = dailySeries env (studyLogs st))
  /\ formattedDate env (studySession env formData) = None.
Proof.
  intros Hacc Hd. cbv zeta. rewrite handleFormSubmit_refresh by exact Hacc.
  destruct (refresh_effects "Study session added successfully!" "success" env
              (set_studyLogs (studySession env formData :: studyLogs st) st))
    as (_ & Hl & _).
  cbv zeta in Hl. cbn [studyLogs set_studyLogs] in Hl.
  assert (Dn : date (studySession env formData) = EmptyString) by exact Hd.
  split; [now rewrite Hl|]. split; [|split; [|split]].
  - unfold todayTotal. rewrite Hl. cbn [filter]. rewrite Dn.
    replace (strictEq EmptyString (isoDate (now env))) with false; [reflexivity|].
    symmetry. apply String.eqb_neq. intros E. symmetry in E.
    now apply isoDate_nonempty in E.
  - unfold weekTotal, getWeekLogs. rewrite Hl. cbn [filter]. now rewrite Dn.
  - intros Hne. rewrite Hl, !dailySeries_some by (assumption || discriminate).
    f_equal. f_equal. apply map_ext_in. intros d Hin.
    unfold datedExactly. cbn [filter]. rewrite Dn.
    destruct (String.eqb_spec EmptyString d) as [E|_]; [|reflexivity].
    symmetry in E. now apply (chartDates_nonempty env) in E.
  - unfold formattedDate. now rewrite Dn.
Qed.

Lemma undated_session_counts_nowhere_witness :
  let formData :=
    {| get_subject := "Math"; get_duration := "30"; get_timeUnit := "minutes";
       get_date := EmptyString; get_notes := EmptyString |}%string in
  weekTotal wednesdayNoonAhead
            (snd (handleFormSubmit formData wednesdayNoonAhead
                                   (withLogs [sundayMath])))
  = Num 30.
Proof.
  cbv zeta.
  destruct (undated_session_counts_nowhere
              {| get_subject := "Math"; get_duration := "30";
                 get_timeUnit := "minutes"; get_date := EmptyString;
                 get_notes := EmptyString |}
              wednesdayNoonAhead (withLogs [sundayMath]))
    as (_ & _ & H & _).
  - split; [discriminate|]. right. exists 30. split; [reflexivity|lia].
  - reflexivity.
  - rewrite H. vm_compute. reflexivity.
Defined.

(** *** The options of the subject filter *)

Lemma ascii_compare_eq (a b : ascii) : Ascii.compare a b = Eq -> a = b.
Proof. apply Ascii.compare_eq_iff. Qed.

Lemma compare_trans_lt (a b c : string) :
  String.compare a b = Lt -> String.compare b c = Lt -> String.compare a c = Lt.
Proof.
  revert b c. induction a as [|x a IH]; intros [|y b] [|z c]; cbn [String.compare];
    try discriminate; try reflexivity.
  unfold Ascii.compare.
  destruct (N.compare_spec (N_of_ascii x) (N_of_ascii y)) as [Exy|Lxy|Gxy];
    destruct (N.compare_spec (N_of_ascii y) (N_of_ascii z)) as [Eyz|Lyz|Gyz];
    try discriminate; intros H1 H2.
  - rewrite Exy, Eyz, N.compare_refl. now apply (IH b).
  - rewrite Exy. now apply N.compare_lt_iff in Lyz as ->.
  - rewrite <- Eyz. now apply N.compare_lt_iff in Lxy as ->.
  - assert (L : (N_of_ascii x < N_of_ascii z)%N) by lia.
    now apply N.compare_lt_iff in L as ->.
Qed.

Lemma leb_false_Before (a b : string) : String.leb a b = false -> Before b a.
Proof.
  unfold String.leb, Before. rewrite String.compare_antisym.
  destruct (String.compare b a); cbn; congruence.
Qed.

Lemma leb_true_cases (a b : string) : String.leb a b = true -> a = b \/ Before a b.
Proof.
  unfold String.leb, Before.
  destruct (String.compare a b) eqn:E; try discriminate; intros _.
  - left. now apply String.compare_eq_iff.
  - now right.
Qed.

Lemma insertSorted_In (x : string) (l : list string) (y : string) :
  In y (insertSorted x l) <-> y = x \/ In y l.
Proof.
  induction l as [|z l IH]; cbn [insertSorted In].
  - split; intros [H|H]; auto.
  - destruct (String.leb x z); cbn [In]; [|rewrite IH]; intuition auto.
Qed.

Lemma sort_In (l : list string) (y : string) : In y (sort l) <-> In y l.
Proof.
  induction l as [|x l IH]; cbn [sort fold_right In]; [reflexivity|].
  fold (sort l). rewrite insertSorted_In, IH. intuition auto.
Qed.

Lemma insertSorted_sorted (x : string) (l : list string) :
  ~ In x l -> StronglySorted Before l -> StronglySorted Before (insertSorted x l).
Proof.
  intros Hx Hs. induction Hs as [|z l Hs IH Hz]; cbn [insertSorted].
  - repeat constructor.
  - destruct (String.leb x z) eqn:E.
    + apply leb_true_cases in E as [->|E]; [exfalso; apply Hx; now left|].
      constructor; [now constructor|].
      constructor; [exact E|].
      apply Forall_forall. intros w Hw.
      apply (compare_trans_lt x z w); [exact E|].
      revert w Hw. now apply Forall_forall.
    + apply leb_false_Before in E.
      constructor; [apply IH; intros H; apply Hx; now right|].
      apply Forall_forall. intros w Hw. apply insertSorted_In in Hw as [->|Hw];
        [exact E|]. revert w Hw. now apply Forall_forall.
Qed.

Lemma sort_sorted (l : list string) :
  NoDup l -> StronglySorted Before (sort l).
Proof.
  induction 1 as [|x l Hx Hl IH]; cbn [sort fold_right]; [constructor|].
  fold (sort l). apply insertSorted_sorted; [|exact IH].
  now rewrite sort_In.
Qed.

Lemma existsb_eqb_In (x : string) (seen : list string) :
  existsb (String.eqb x) seen = true <-> In x seen.
Proof.
  rewrite existsb_exists. split.
  - intros (y & Hy & E). apply String.eqb_eq in E. now subst.
  - intros H. exists x. split; [exact H|apply String.eqb_refl].
Qed.

Lemma distinct_In (seen l : list string) (y : string) :
  In y (distinct seen l) <-> In y l /\ ~ In y seen.
Proof.
  revert seen. induction l as [|x l IH]; intros seen; cbn [distinct In].
  - tauto.
  - destruct (existsb (String.eqb x) seen) eqn:E.
    + apply existsb_eqb_In in E. rewrite IH. split.
      * intros [H1 H2]. auto.
      * intros [[->|H1] H2]; [contradiction|auto].
    + assert (Hx : ~ In x seen)
        by (intros H; apply existsb_eqb_In in H; congruence).
      cbn [In]. rewrite IH. cbn [In]. split.
      * intros [->|[H1 H2]]; [auto|]. split; [auto|]. intros H. apply H2. now right.
      * intros [[->|H1] H2]; [now left|].
        destruct (string_dec x y) as [->|N]; [now left|].
        right. split; [exact H1|]. intros [H|H]; [contradiction|contradiction].
Qed.

Lemma distinct_NoDup (seen l : list string) : NoDup (distinct seen l).
Proof.
  revert seen. induction l as [|x l IH]; intros seen; cbn [distinct];
    [constructor|].
  destruct (existsb (String.eqb x) seen); [apply IH|].
  constructor; [|apply IH].
  rewrite distinct_In. intros [_ H]. apply H. now left.
Qed.

(** X17.  The options that [updateFilters] puts after All Subjects are the
    subjects of the collection, each once and as it is written, in
    ascending order of their code units. *)
Theorem subjects_sorted_distinct (st : State) :
  StronglySorted Before (subjects st)
  /\ (forall s, In s (subjects st) <->
                exists log, In log (studyLogs st) /\ subject log = s).
Proof.
  unfold subjects. split.
  - apply sort_sorted, distinct_NoDup.
  - intros s. rewrite sort_In, distinct_In, in_map_iff. cbn [In].
    split.
    + intros [(log & E & Hin) _]. now exists log.
    + intros (log & Hin & E). split; [now exists log|tauto].
Qed.

(** *** Escaping *)

Section Escaping.

Local Open Scope string_scope.

Lemma occurs_app (c : ascii) (a b : string) :
  occurs c (a ++ b) = occurs c a || occurs c b.
Proof.
  induction a as [|x a IH]; cbn [append occurs]; [reflexivity|].
  now rewrite IH, orb_assoc.
Qed.

Lemma escapeChar_safe (c : ascii) :
  occurs "<" (escapeChar c) = false /\ occurs ">" (escapeChar c) = false.
Proof.
  destruct c as [[] [] [] [] [] [] [] []]; split; reflexivity.
Qed.

Lemma unescapeHtml_escapeChar (c : ascii) (r : string) :
  unescapeHtml (escapeChar c ++ r) = String c (unescapeHtml r).
Proof.
  destruct c as [[] [] [] [] [] [] [] []]; reflexivity.
Qed.

(** X18.  What [escapeHtml] returns holds no angle bracket, so that it
    opens no tag where a card puts it, and it loses nothing: the text reads
    back from it. *)
Theorem escapeHtml_safe_and_lossless (text : string) :
  occurs "<" (escapeHtml text) = false
  /\ occurs ">" (escapeHtml text) = false
  /\ unescapeHtml (escapeHtml text) = text.
Proof.
  induction text as [|c r (IH1 & IH2 & IH3)]; [repeat split|].
  cbn [escapeHtml]. rewrite !occurs_app, IH1, IH2, unescapeHtml_escapeChar, IH3.
  destruct (escapeChar_safe c) as [-> ->]. repeat split.
Qed.

End Escaping.

(** *** The exported file *)

Section ExportedFile.

Local Open Scope string_scope.

Lemma splitLines_single (x : string) :
  occurs lineFeed x = false -> splitLines x = [x].
Proof.
  induction x as [|c x IH]; cbn [occurs splitLines]; [reflexivity|].
  intros H. apply orb_false_iff in H as [Hc Hx].
  rewrite Ascii.eqb_sym in Hc. rewrite Hc, IH by exact Hx. reflexivity.
Qed.

Lemma splitLines_app (x y : string) :
  occurs lineFeed x = false ->
  splitLines (x ++ newline ++ y) = x :: splitLines y.
Proof.
  induction x as [|c x IH]; cbn [occurs append splitLines].
  - intros _. reflexivity.
  - intros H. apply orb_false_iff in H as [Hc Hx].
    rewrite Ascii.eqb_sym in Hc. rewrite Hc.
    cbn [append] in IH. rewrite IH by exact Hx. reflexivity.
Qed.

Lemma splitLines_join (l : list string) :
  l <> [] -> Forall (fun x => occurs lineFeed x = false) l ->
  splitLines (join newline l) = l.
Proof.
  induction l as [|x l IH]; [contradiction|]. intros _ H.
  inversion H as [|? ? Hx Hl]; subst.
  destruct l as [|y l].
  - cbn [join]. now apply splitLines_single.
  - change (join newline (x :: y :: l))
      with (x ++ newline ++ join newline (y :: l)).
    rewrite splitLines_app by exact Hx. f_equal. apply IH; [discriminate|exact Hl].
Qed.

Lemma uint_single_line (d : Decimal.uint) :
  occurs lineFeed (NilEmpty.string_of_uint d) = false.
Proof. induction d; cbn [NilEmpty.string_of_uint occurs]; try exact IHd; reflexivity. Qed.

Lemma decimal_single_line (z : Z) : occurs lineFeed (decimal z) = false.
Proof.
  unfold decimal, NilZero.string_of_int, NilZero.string_of_uint.
  destruct (Z.to_int z) as [d|d]; destruct d; try reflexivity;
    cbn [occurs]; rewrite ?orb_false_l;
    try apply (uint_single_line (Decimal.D0 _));
    cbn [NilEmpty.string_of_uint occurs]; apply uint_single_line.
Qed.

Lemma join_single_line (separator : string) (l : list string) :
  occurs lineFeed separator = false ->
  Forall (fun x => occurs lineFeed x = false) l ->
  occurs lineFeed (join separator l) = false.
Proof.
  intros Hsep. induction 1 as [|x l Hx Hl IH]; [reflexivity|].
  destruct l as [|y l]; [exact Hx|].
  change (join separator (x :: y :: l))
    with (x ++ separator ++ join separator (y :: l)).
  now rewrite !occurs_app, Hx, Hsep, IH.
Qed.

Lemma quoted_single_line (x : string) :
  occurs lineFeed x = false -> occurs lineFeed (quoted x) = false.
Proof.
  intros H. unfold quoted. cbn [occurs]. rewrite occurs_app, H. reflexivity.
Qed.

Lemma csvRow_single_line (log : Session) :
  SingleLine log -> occurs lineFeed (csvRow log) = false.
Proof.
  intros (Hs & Hu & Hd & Hn & Ht). unfold csvRow.
  apply join_single_line; [reflexivity|].
  repeat constructor; try assumption.
  - now apply quoted_single_line.
  - destruct (duration log); [reflexivity|apply decimal_single_line].
  - apply quoted_single_line. destruct (truthy (notes log)); [exact Hn|reflexivity].
Qed.

(** X19.  When no text of a session holds a line feed, the file of
    [exportToCSV] has the header line and then one line for each session,
    in the order of the collection; the export changes neither the
    collection nor the storage nor the filtered view. *)
Theorem export_one_line_per_session (env : Env) (st : State) :
  studyLogs st <> [] -> Forall SingleLine (studyLogs st) ->
  exists name content,
    exportedFile env st = Some (name, content)
    /\ splitLines content
       = "Subject,Duration,Time Unit,Date,Notes,Timestamp"
           :: map csvRow (studyLogs st)
    /\ studyLogs (snd (exportToCSV env st)) = studyLogs st
    /\ filteredLogs (snd (exportToCSV env st)) = filteredLogs st
    /\ localStorage (snd (exportToCSV env st)) = localStorage st.
Proof.
  intros Hne Hs.
  assert (Hstate : studyLogs (snd (exportToCSV env st)) = studyLogs st
                   /\ filteredLogs (snd (exportToCSV env st)) = filteredLogs st
                   /\ localStorage (snd (exportToCSV env st)) = localStorage st)
    by (unfold exportToCSV; destruct (_ =? _)%nat; repeat split).
  unfold exportedFile.
  destruct (studyLogs st) as [|log logs] eqn:E; [contradiction|].
  cbn [List.length Nat.eqb].
  eexists. eexists. split; [reflexivity|].
  split; [|exact Hstate].
  unfold csvContent. apply splitLines_join; [discriminate|].
  constructor; [reflexivity|].
  apply Forall_forall. intros row Hin. apply in_map_iff in Hin as (l & <- & Hl).
  apply csvRow_single_line. revert l Hl. now apply Forall_forall.
Qed.

Lemma export_one_line_per_session_witness :
  exists name content,
    exportedFile wednesdayNoon (withLogs [sundayMath]) = Some (name, content)
    /\ List.length (splitLines content) = 2%nat.
Proof.
  destruct (export_one_line_per_session wednesdayNoon (withLogs [sundayMath]))
    as (name & content & E & L & _).
  - discriminate.
  - constructor; [|constructor]. repeat split.
  - exists name, content. split; [exact E|]. now rewrite L.
Defined.

End ExportedFile.

(** *** Numerals *)

Lemma horner_of_uint_acc (d : Decimal.uint) (acc : positive) :
  Z.pos (Pos.of_uint_acc d acc) = horner (Z.pos acc) d.
Proof.
  revert acc. induction d; intros acc; cbn [Pos.of_uint_acc horner];
    [reflexivity|rewrite IHd; f_equal; lia..].
Qed.

Lemma horner_of_uint (d : Decimal.uint) : Z.of_N (Pos.of_uint d) = horner 0 d.
Proof.
  induction d; cbn [Pos.of_uint horner]; [reflexivity|exact IHd|..];
    cbn [Z.of_N]; rewrite horner_of_uint_acc; reflexivity.
Qed.

Lemma horner_to_uint (p : positive) : horner 0 (Pos.to_uint p) = Z.pos p.
Proof.
  rewrite <- horner_of_uint, DecimalPos.Unsigned.of_to. reflexivity.
Qed.

Lemma to_uint_head (p : positive) (l : Decimal.uint) :
  Pos.to_uint p <> Decimal.D0 l.
Proof.
  intros E.
  assert (U : Decimal.unorm (Pos.to_uint p) = Pos.to_uint p).
  { rewrite <- (DecimalPos.Unsigned.to_of (Pos.to_uint p)).
    now rewrite DecimalPos.Unsigned.of_to. }
  destruct (Decimal.nzhead (Pos.to_uint p)) eqn:H.
  1: { apply (proj2 (DecimalFacts.unorm_0 _)) in H. rewrite U in H.
       now apply DecimalPos.Unsigned.to_uint_nonzero in H. }
  all: rewrite DecimalFacts.unorm_nzhead in U by (rewrite H; discriminate);
    rewrite E in U; now apply DecimalFacts.nzhead_nonzero in U.
Qed.

Ltac eval_radixDigit :=
  repeat match goal with
         | |- context [radixDigit 10 ?c] =>
             let v := eval vm_compute in (radixDigit 10 c) in
             change (radixDigit 10 c) with v
         end.

Lemma leadingDigits_digits (d : Decimal.uint) (rest : string) (acc : Z) :
  leadingDigits 10 (NilEmpty.string_of_uint d ++ rest) (Some acc)
  = leadingDigits 10 rest (Some (horner acc d)).
Proof.
  revert acc. induction d; intros acc;
    cbn [NilEmpty.string_of_uint append horner]; [reflexivity|..];
    cbn [leadingDigits]; eval_radixDigit; cbn iota beta;
    rewrite ?Z.add_0_r; apply IHd.
Qed.

Lemma append_empty_r (s : string) : (s ++ EmptyString)%string = s.
Proof. induction s; cbn; congruence. Qed.

Lemma leadingDigits_numeral (d : Decimal.uint) :
  d <> Decimal.Nil ->
  leadingDigits 10 (NilEmpty.string_of_uint d) None = Some (horner 0 d).
Proof.
  intros Hd.
  destruct d; [contradiction|..];
    cbn [NilEmpty.string_of_uint leadingDigits horner]; eval_radixDigit;
    cbn iota beta;
    rewrite <- (append_empty_r (NilEmpty.string_of_uint d)),
      leadingDigits_digits; reflexivity.
Qed.

Lemma decimal_pos (p : positive) :
  decimal (Z.pos p) = NilEmpty.string_of_uint (Pos.to_uint p).
Proof.
  unfold decimal. cbn [Z.to_int NilZero.string_of_int].
  unfold NilZero.string_of_uint.
  destruct (Pos.to_uint p) eqn:E; try reflexivity.
  now apply DecimalPos.Unsigned.to_uint_nonnil in E.
Qed.

Lemma decimal_neg (p : positive) :
  decimal (Z.neg p) = String "-" (NilEmpty.string_of_uint (Pos.to_uint p)).
Proof.
  unfold decimal. cbn [Z.to_int NilZero.string_of_int].
  unfold NilZero.string_of_uint.
  destruct (Pos.to_uint p) eqn:E; try reflexivity.
  now apply DecimalPos.Unsigned.to_uint_nonnil in E.
Qed.

(** What [parseInt] does with the numeral of a positive number, with and
    without a minus sign. *)
Lemma parseInt_numeral (p : positive) :
  parseInt (NilEmpty.string_of_uint (Pos.to_uint p)) = Num (round53 (Z.pos p))
  /\ parseInt (String "-" (NilEmpty.string_of_uint (Pos.to_uint p)))
     = Num (round53 (Z.neg p)).
Proof.
  pose proof (horner_to_uint p) as V.
  pose proof (DecimalPos.Unsigned.to_uint_nonnil p) as Hn.
  pose proof (to_uint_head p) as Hh.
  assert (L := leadingDigits_numeral (Pos.to_uint p) Hn). rewrite V in L.
  destruct (Pos.to_uint p) as [|d|d|d|d|d|d|d|d|d|d];
    [contradiction|exfalso; now apply (Hh d)|..];
    (split; unfold parseInt;
     cbn [NilEmpty.string_of_uint trimStart];
     destruct d; cbn [NilEmpty.string_of_uint] in L |- *;
     vm_compute isWhiteSpace; cbn iota;
     vm_compute Ascii.eqb; cbn iota; cbn [andb orb];
     rewrite L; reflexivity).
Qed.

(** [parseInt] reads a decimal numeral as the number nearest to the
    integer it denotes. *)
Lemma parseInt_decimal (z : Z) : parseInt (decimal z) = Num (round53 z).
Proof.
  destruct z as [|p|p].
  - reflexivity.
  - rewrite decimal_pos. apply parseInt_numeral.
  - rewrite decimal_neg. apply parseInt_numeral.
Qed.

(** X20. A duration field that holds the decimal numeral of an integer up
    to 2^53 in magnitude is read as that integer, and the form is accepted
    exactly when the trimmed subject is not empty and the integer is
    positive. *)
Theorem duration_read_from_numeral (env : Env) (formData : FormData) (z : Z) :
  get_duration formData = decimal z ->
  Z.abs z <= 2 ^ 53 ->
  duration (studySession env formData) = Num z
  /\ (Accepted formData
      <-> trim (get_subject formData) <> EmptyString /\ 0 < z).
Proof.
  intros E Hz. unfold Accepted. cbn [studySession duration].
  rewrite E, parseInt_decimal, round53_exact by exact Hz.
  split; [reflexivity|]. split.
  - intros [Hs [H|[d [H Hd]]]]; [discriminate|].
    split; [exact Hs|congruence].
  - intros [Hs Hp]. split; [exact Hs|]. right. now exists z.
Qed.

Lemma duration_read_from_numeral_witness :
  duration (studySession wednesdayNoon mathForm) = Num 30
  /\ (Accepted mathForm
      <-> trim (get_subject mathForm) <> EmptyString /\ 0 < 30).
Proof.
  apply (duration_read_from_numeral wednesdayNoon mathForm 30);
    [reflexivity|vm_compute; discriminate].
Defined.

(** Beyond 2^53 a numeral is read as the nearest number. *)
Lemma parseInt_rounds_beyond_exact_integers :
  parseInt "9007199254740993" = Num 9007199254740992.
Proof. vm_compute. reflexivity. Qed.

(** *** Saving and loading *)

Section JsonRoundTrip.

Import JSON.
Local Open Scope nat_scope.

Lemma list_ascii_of_string_app (a b : string) :
  list_ascii_of_string (a ++ b)
  = (list_ascii_of_string a ++ list_ascii_of_string b)%list.
Proof. induction a as [|c a IH]; cbn; [reflexivity|now rewrite IH]. Qed.

Lemma parseChars_quoteChar (c : ascii) (tail : list ascii) (acc : list N) :
  parseChars (list_ascii_of_string (quoteChar c) ++ tail) acc
  = parseChars tail (N_of_ascii c :: acc).
Proof.
  destruct c as [[] [] [] [] [] [] [] []]; reflexivity.
Qed.

Lemma parseChars_quoteChars (s : string) (rest : list ascii) (acc : list N) :
  parseChars (list_ascii_of_string (quoteChars s) ++ quote :: rest) acc
  = Some ((rev acc ++ units s)%list, rest).
Proof.
  revert acc. induction s as [|c s IH]; intros acc.
  - cbn. now rewrite List.app_nil_r.
  - cbn [quoteChars]. rewrite list_ascii_of_string_app, <- app_assoc, parseChars_quoteChar, IH.
    cbn [rev]. rewrite <- app_assoc. reflexivity.
Qed.

Lemma list_ascii_of_stringifyString (s : string) (rest : list ascii) :
  (list_ascii_of_string (stringifyString s) ++ rest)%list
  = quote :: (list_ascii_of_string (quoteChars s) ++ quote :: rest)%list.
Proof.
  unfold stringifyString. cbn [list_ascii_of_string app].
  rewrite list_ascii_of_string_app, <- app_assoc. reflexivity.
Qed.

Lemma parseValue_string (n : nat) (s : string) (rest : list ascii) :
  parseValue (S n) (list_ascii_of_string (stringifyString s) ++ rest)
  = Some (JString (units s), rest).
Proof.
  rewrite list_ascii_of_stringifyString. cbn [parseValue skipWs].
  change (isWs quote) with false. cbn iota.
  change (Ascii.eqb quote "[") with false.
  change (Ascii.eqb quote "{") with false.
  change (Ascii.eqb quote quote) with true. cbn iota.
  now rewrite parseChars_quoteChars.
Qed.

Lemma takeDigits_numeral (d : Decimal.uint) (rest : list ascii) :
  takeDigits (list_ascii_of_string (NilEmpty.string_of_uint d) ++ ","%char :: rest)
  = (list_ascii_of_string (NilEmpty.string_of_uint d), ","%char :: rest).
Proof.
  induction d; cbn [NilEmpty.string_of_uint list_ascii_of_string app];
    [reflexivity|..];
    cbn [takeDigits];
    match goal with
    | |- context [isDigit ?c] => change (isDigit c) with true
    end; cbn iota; rewrite IHd; reflexivity.
Qed.

Lemma fold_digits_numeral (d : Decimal.uint) (acc : Z) :
  fold_left (fun acc c => (10 * acc + (Z.of_N (N_of_ascii c) - 48))%Z)
            (list_ascii_of_string (NilEmpty.string_of_uint d)) acc
  = horner acc d.
Proof.
  revert acc. induction d; intros acc;
    cbn [NilEmpty.string_of_uint list_ascii_of_string fold_left horner];
    [reflexivity|..]; rewrite <- IHd; f_equal;
    match goal with
    | |- context [Z.of_N (N_of_ascii ?c)] =>
        let v := eval vm_compute in (Z.of_N (N_of_ascii c)) in
        change (Z.of_N (N_of_ascii c)) with v
    end; lia.
Qed.

Lemma parseNumber_numeral (p : positive) (rest : list ascii) :
  parseNumber (list_ascii_of_string (NilEmpty.string_of_uint (Pos.to_uint p)) ++ ","%char :: rest)
  = Some (JNumber (Z.pos p) 0, ","%char :: rest)
  /\ parseNumber ("-"%char :: list_ascii_of_string (NilEmpty.string_of_uint (Pos.to_uint p))
                  ++ ","%char :: rest)
     = Some (JNumber (Z.neg p) 0, ","%char :: rest).
Proof.
  pose proof (horner_to_uint p) as V.
  pose proof (DecimalPos.Unsigned.to_uint_nonnil p) as Hn.
  pose proof (to_uint_head p) as Hh.
  pose proof (takeDigits_numeral (Pos.to_uint p) rest) as T.
  pose proof (fold_digits_numeral (Pos.to_uint p) 0) as F. rewrite V in F.
  destruct (Pos.to_uint p) as [|d|d|d|d|d|d|d|d|d|d];
    [contradiction|exfalso; now apply (Hh d)|..];
    (split; unfold parseNumber;
     cbn [NilEmpty.string_of_uint list_ascii_of_string app] in T, F |- *;
     vm_compute Ascii.eqb; cbn iota;
     rewrite T; cbn iota;
     vm_compute Ascii.eqb; cbn [andb]; cbn iota;
     unfold parseFrac, parseExp; vm_compute Ascii.eqb; cbn [orb]; cbn iota;
     rewrite List.app_nil_r; unfold digitsToZ; rewrite F; reflexivity).
Qed.

Lemma parseValue_number (n : nat) (a : number) (rest : list ascii) :
  parseValue (S n)
    (list_ascii_of_string (stringifyNumber a) ++ ","%char :: rest)
  = Some (match a with Num z => JNumber z 0 | NaN => JNull end,
          ","%char :: rest).
Proof.
  destruct a as [|[|p|p]]; [reflexivity|reflexivity|..];
    unfold stringifyNumber, toString; [rewrite decimal_pos|rewrite decimal_neg];
    destruct (parseNumber_numeral p rest) as [P N].
  - pose proof (DecimalPos.Unsigned.to_uint_nonnil p) as Hn.
    pose proof (to_uint_head p) as Hh.
    destruct (Pos.to_uint p) as [|d|d|d|d|d|d|d|d|d|d];
      [contradiction|exfalso; now apply (Hh d)|..];
      cbn [NilEmpty.string_of_uint list_ascii_of_string app] in P |- *;
      cbn [parseValue skipWs]; vm_compute isWs; cbn iota;
      vm_compute Ascii.eqb; cbn iota; exact P.
  - cbn [list_ascii_of_string app].
    cbn [parseValue skipWs]; vm_compute isWs; cbn iota;
      vm_compute Ascii.eqb; cbn iota. exact N.
Qed.

Lemma parseMembers_eq (n : nat) (s : list ascii) (acc : list (list N * value)) :
  parseMembers (S n) s acc
  = match skipWs s with
    | c :: r =>
        if Ascii.eqb c quote then
          match parseChars r [] with
          | Some (key, r1) =>
              match skipWs r1 with
              | c1 :: r2 =>
                  if Ascii.eqb c1 ":" then
                    match parseValue n r2 with
                    | Some (v, r3) =>
                        match skipWs r3 with
                        | c2 :: r4 =>
                            if Ascii.eqb c2 "," then
                              parseMembers n r4 ((key, v) :: acc)
                            else if Ascii.eqb c2 "}" then
                              Some (JObject (rev ((key, v) :: acc)), r4)
                            else None
                        | [] => None
                        end
                    | None => None
                    end
                  else None
              | [] => None
              end
          | None => None
          end
        else None
    | [] => None
    end.
Proof. reflexivity. Qed.

Lemma parseElements_eq (n : nat) (s : list ascii) (acc : list value) :
  parseElements (S n) s acc
  = match parseValue n s with
    | Some (v, r) =>
        match skipWs r with
        | c :: r1 =>
            if Ascii.eqb c "," then parseElements n r1 (v :: acc)
            else if Ascii.eqb c "]" then Some (JArray (rev (v :: acc)), r1)
            else None
        | [] => None
        end
    | None => None
    end.
Proof. reflexivity. Qed.

Lemma list_ascii_of_member (key vtext : string) (tail : list ascii) :
  (list_ascii_of_string (member key vtext) ++ tail)%list
  = quote :: (list_ascii_of_string (quoteChars key)
              ++ quote :: ":"%char :: (list_ascii_of_string vtext ++ tail))%list.
Proof.
  unfold member. rewrite list_ascii_of_string_app, <- app_assoc.
  rewrite list_ascii_of_stringifyString. cbn [append list_ascii_of_string app].
  reflexivity.
Qed.

(** One member of an object, followed by a comma or by the closing brace. *)
Lemma parseMembers_member (n : nat) (key vtext : string) (v : value)
      (next : ascii) (rest : list ascii) (acc : list (list N * value)) :
  isWs next = false ->
  parseValue n (list_ascii_of_string vtext ++ next :: rest)
  = Some (v, next :: rest) ->
  parseMembers (S n) (list_ascii_of_string (member key vtext) ++ next :: rest)
               acc
  = if Ascii.eqb next "," then parseMembers n rest ((units key, v) :: acc)
    else if Ascii.eqb next "}"
         then Some (JObject (rev ((units key, v) :: acc)), rest)
         else None.
Proof.
  intros Hws Hv. rewrite list_ascii_of_member, parseMembers_eq.
  cbn [skipWs]. change (isWs quote) with false. cbn iota.
  change (Ascii.eqb quote quote) with true. cbn iota.
  rewrite parseChars_quoteChars. cbn [rev app skipWs].
  change (isWs ":") with false. cbn iota.
  change (Ascii.eqb ":" ":") with true. cbn iota.
  rewrite Hv. cbn [skipWs]. rewrite Hws. reflexivity.
Qed.

Lemma list_ascii_of_stringifySession (log : Session) (rest : list ascii) :
  (list_ascii_of_string (stringifySession log) ++ rest)%list
  = "{"%char ::
    (list_ascii_of_string (member "id" (stringifyString (id log))) ++ ","%char ::
     list_ascii_of_string (member "subject" (stringifyString (subject log)))
     ++ ","%char ::
     list_ascii_of_string (member "duration" (stringifyNumber (duration log)))
     ++ ","%char ::
     list_ascii_of_string (member "timeUnit" (stringifyString (timeUnit log)))
     ++ ","%char ::
     list_ascii_of_string (member "date" (stringifyString (date log)))
     ++ ","%char ::
     list_ascii_of_string (member "notes" (stringifyString (notes log)))
     ++ ","%char ::
     list_ascii_of_string (member "timestamp" (stringifyString (timestamp log)))
     ++ "}"%char :: rest)%list.
Proof.
  unfold stringifySession. cbn [join].
  repeat (rewrite ?list_ascii_of_string_app; cbn [append list_ascii_of_string app];
          rewrite <- ?app_assoc).
  reflexivity.
Qed.

Lemma parseValue_braces (n : nat) (key vtext : string) (tail : list ascii) :
  parseValue (S n)
    ("{"%char :: list_ascii_of_string (member key vtext) ++ tail)
  = parseMembers n (list_ascii_of_string (member key vtext) ++ tail) [].
Proof. rewrite list_ascii_of_member. reflexivity. Qed.

(** The text of a session parses to the value it denotes, under any bound
    from nine on. *)
Lemma parseValue_session (n : nat) (log : Session) (rest : list ascii) :
  parseValue (9 + n) (list_ascii_of_string (stringifySession log) ++ rest)
  = Some (valueOfSession log, rest).
Proof.
  rewrite list_ascii_of_stringifySession.
  cbn [Nat.add]. rewrite parseValue_braces.
  rewrite parseMembers_member with (v := JString (units (id log)));
    [|reflexivity|apply parseValue_string].
  change (Ascii.eqb "," ",") with true. cbn iota.
  rewrite parseMembers_member with (v := JString (units (subject log)));
    [|reflexivity|apply parseValue_string].
  change (Ascii.eqb "," ",") with true. cbn iota.
  rewrite parseMembers_member
    with (v := match duration log with Num z => JNumber z 0 | NaN => JNull end);
    [|reflexivity|apply parseValue_number].
  change (Ascii.eqb "," ",") with true. cbn iota.
  rewrite parseMembers_member with (v := JString (units (timeUnit log)));
    [|reflexivity|apply parseValue_string].
  change (Ascii.eqb "," ",") with true. cbn iota.
  rewrite parseMembers_member with (v := JString (units (date log)));
    [|reflexivity|apply parseValue_string].
  change (Ascii.eqb "," ",") with true. cbn iota.
  rewrite parseMembers_member with (v := JString (units (notes log)));
    [|reflexivity|apply parseValue_string].
  change (Ascii.eqb "," ",") with true. cbn iota.
  rewrite parseMembers_member with (v := JString (units (timestamp log)));
    [|reflexivity|apply parseValue_string].
  reflexivity.
Qed.

Lemma stringifySession_head (log : Session) :
  exists t, stringifySession log = String "{" t.
Proof. unfold stringifySession. cbn [append]. eauto. Qed.

Lemma join_sessions_head (log : Session) (logs : list Session) :
  exists t, join "," (map stringifySession (log :: logs)) = String "{" t.
Proof.
  destruct (stringifySession_head log) as [t E].
  cbn [map join]. rewrite E. destruct (map stringifySession logs); cbn [append]; eauto.
Qed.

(** The texts of sessions between commas, up to the closing bracket. *)
Lemma parseElements_sessions (logs : list Session) (log : Session) (n : nat)
      (acc : list value) (rest : list ascii) :
  parseElements (10 + List.length logs + n)
    (list_ascii_of_string (join "," (map stringifySession (log :: logs)))
     ++ "]"%char :: rest) acc
  = Some (JArray (rev acc ++ map valueOfSession (log :: logs)), rest).
Proof.
  revert log acc. induction logs as [|log' logs IH]; intros log acc.
  - cbn [map join List.length Nat.add]. rewrite parseElements_eq.
    rewrite (parseValue_session n). cbn [skipWs].
    change (isWs "]") with false. cbn iota.
    change (Ascii.eqb "]" ",") with false.
    change (Ascii.eqb "]" "]") with true. cbn iota. reflexivity.
  - change (join "," (map stringifySession (log :: log' :: logs)))
      with (stringifySession log ++ ","
            ++ join "," (map stringifySession (log' :: logs)))%string.
    rewrite list_ascii_of_string_app, <- app_assoc.
    change (list_ascii_of_string
              ("," ++ join "," (map stringifySession (log' :: logs))))
      with (","%char :: list_ascii_of_string
                           (join "," (map stringifySession (log' :: logs)))).
    cbn [List.length Nat.add app]. rewrite parseElements_eq.
    rewrite (parseValue_session (1 + List.length logs + n)). cbn [skipWs].
    change (isWs ",") with false. cbn iota.
    change (Ascii.eqb "," ",") with true. cbn iota.
    pose proof (IH log' (valueOfSession log :: acc)) as IH'.
    cbn [Nat.add] in IH'. rewrite IH'. cbn [rev map].
    rewrite <- app_assoc. reflexivity.
Qed.

Lemma parseValue_sessions (logs : list Session) (n : nat) :
  parseValue (11 + List.length logs + n)
             (list_ascii_of_string (stringify logs))
  = Some (JArray (map valueOfSession logs), []).
Proof.
  destruct logs as [|log logs]; [reflexivity|].
  unfold stringify.
  change (list_ascii_of_string
            ("[" ++ join "," (map stringifySession (log :: logs)) ++ "]"))
    with ("["%char :: list_ascii_of_string
            (join "," (map stringifySession (log :: logs)) ++ "]")).
  rewrite list_ascii_of_string_app.
  pose proof (parseElements_sessions logs log (1 + n) [] []) as P.
  destruct (join_sessions_head log logs) as [t E]. rewrite E in P |- *.
  cbn [list_ascii_of_string app List.length Nat.add] in P |- *.
  cbn [parseValue skipWs].
  change (isWs "[") with false. cbn iota.
  change (Ascii.eqb "[" "[") with true. cbn iota.
  change (isWs "{") with false. cbn iota.
  change (Ascii.eqb "{" "]") with false. cbn iota.
  replace (List.length logs + S n) with (S (List.length logs + n)) in P by lia.
  exact P.
Qed.

Lemma textOfUnits_units (s : string) : textOfUnits (units s) = Some s.
Proof.
  induction s as [|c s IH]; [reflexivity|].
  unfold units in *. cbn [list_ascii_of_string map textOfUnits].
  rewrite IH, ascii_N_embedding.
  pose proof (N_ascii_bounded c) as B. apply N.ltb_lt in B. rewrite B.
  reflexivity.
Qed.

Lemma sessionOfValue_valueOfSession (log : Session) :
  duration log <> NaN -> sessionOfValue (valueOfSession log) = Some log.
Proof.
  destruct log as [i s d u a n t]. cbn [duration]. intros Hd.
  destruct d as [|z]; [contradiction|].
  unfold valueOfSession, sessionOfValue, stringProperty, integerProperty.
  cbn [id subject duration timeUnit date notes timestamp].
  cbn [property].
  rewrite !textOfUnits_units. cbn.
  rewrite !textOfUnits_units. rewrite Z.mul_1_r. reflexivity.
Qed.

Lemma sessionsOfValues_valueOfSession (logs : list Session) :
  Forall (fun log => duration log <> NaN) logs ->
  sessionsOfValues (map valueOfSession logs) = Some logs.
Proof.
  induction 1 as [|log logs H _ IH]; [reflexivity|].
  cbn [map sessionsOfValues]. now rewrite sessionOfValue_valueOfSession, IH.
Qed.

End JsonRoundTrip.



